(** * Multipurpose chatbot: a shallow embedding of the intent resolver,
    the context store, the training-data manager and the text normalizer,
    with the properties the specification states about them.

    Conventions of the embedding.
    - Python [str] values are Rocq strings read as ASCII text (code points
      below 128); [str.lower], [str.split], [\w] and [\s] are the ASCII
      restrictions of their Python counterparts.
    - Python floats that hold scores are exact rationals ([Q]); the
      constants 1.1, 1.05 and 0.3 are 11/10, 21/20 and 3/10.
    - [datetime] values are integers, microseconds since the epoch; every
      [datetime.now()] read during one call returns the instant the call is
      made at, which the call takes as its argument [now]. A difference of
      two of them is compared and divided in microseconds, exactly, where
      the code goes through the float [total_seconds()]; the two agree for
      second counts below 2^34 (module [TimedeltaFacts]), and the
      statements that need the agreement carry that bound.
    - A session is a value. The code stores dictionaries, which
      [import_context] can make two users share; the statements that need
      sessions to be apart are made for runs without [import_context].
    - A Python dict whose iteration order matters is an association list in
      insertion order; the session table is a finite map.
    - A function that mutates [self] returns the new object next to its
      result. *)

From Stdlib Require Import QArith Qabs ZArith Lia Lqa Ascii.
From stdpp Require Import gmap strings list fin_maps sorting.

Local Close Scope Q_scope.
Local Open Scope stdpp_scope.

(** ** Python string primitives *)

Module PyStr.

Definition code (c : ascii) : N := N_of_ascii c.

Definition between (lo hi : N) (c : ascii) : bool :=
  ((lo <=? code c) && (code c <=? hi))%N.

Definition isupper (c : ascii) : bool := between 65 90 c.
Definition islower (c : ascii) : bool := between 97 122 c.
Definition isdigit (c : ascii) : bool := between 48 57 c.

(** [str.isspace] on one character: tab .. carriage return, the four
    separators 28..31 and the space. *)
Definition isspace (c : ascii) : bool :=
  between 9 13 c || between 28 31 c || (code c =? 32)%N.

(** The class [\w] of [re]: letters, digits and the underscore. *)
Definition isword (c : ascii) : bool :=
  isupper c || islower c || isdigit c || (code c =? 95)%N.

(** [string.punctuation]: the 32 printable ASCII characters that are
    neither alphanumeric nor blank; the underscore is one of them. *)
Definition ispunct (c : ascii) : bool :=
  between 33 47 c || between 58 64 c || between 91 96 c || between 123 126 c.

Definition lower_char (c : ascii) : ascii :=
  if isupper c then ascii_of_N (code c + 32) else c.

(** [s.lower()] *)
Fixpoint lower (s : string) : string :=
  match s with
  | EmptyString => EmptyString
  | String c s' => String (lower_char c) (lower s')
  end.

(** [s.startswith(p)] *)
Fixpoint startswith (p s : string) : bool :=
  match p, s with
  | EmptyString, _ => true
  | String _ _, EmptyString => false
  | String a p', String b s' => if decide (a = b) then startswith p' s' else false
  end.

(** [s.find(p)], with [None] for Python's -1. *)
Fixpoint find (p s : string) : option nat :=
  if startswith p s then Some 0
  else match s with
       | EmptyString => None
       | String _ s' => S <$> find p s'
       end.

(** [p in s] *)
Definition contains (p s : string) : bool :=
  match find p s with Some _ => true | None => false end.

(** [s[n:]] *)
Fixpoint slice_from (n : nat) (s : string) : string :=
  match n, s with
  | O, _ => s
  | S _, EmptyString => EmptyString
  | S n', String _ s' => slice_from n' s'
  end.

Fixpoint lstrip (s : string) : string :=
  match s with
  | EmptyString => EmptyString
  | String c s' => if isspace c then lstrip s' else s
  end.

Fixpoint rstrip (s : string) : string :=
  match s with
  | EmptyString => EmptyString
  | String c s' =>
      match rstrip s' with
      | EmptyString => if isspace c then EmptyString else String c EmptyString
      | r => String c r
      end
  end.

(** [s.strip()] *)
Definition strip (s : string) : string := rstrip (lstrip s).

(** [s.split()]: the maximal runs of non-blank characters, in order.
    [cur] is the run being read, if one was started. *)
Fixpoint split_go (cur : option string) (s : string) : list string :=
  match s with
  | EmptyString => option_list cur
  | String c s' =>
      if isspace c then option_list cur ++ split_go None s'
      else split_go (Some (from_option (λ w, w +:+ String c EmptyString)
                                        (String c EmptyString) cur)) s'
  end.

Definition split (s : string) : list string := split_go None s.

(** [sep.join(l)] *)
Fixpoint join (sep : string) (l : list string) : string :=
  match l with
  | [] => EmptyString
  | [w] => w
  | w :: l' => w +:+ sep +:+ join sep l'
  end.

(** [re.sub(r'[^\w\s]', '', s)]: drop what is neither a word character
    nor blank. *)
Fixpoint sub_nonword_nonspace (s : string) : string :=
  match s with
  | EmptyString => EmptyString
  | String c s' =>
      if isword c || isspace c then String c (sub_nonword_nonspace s')
      else sub_nonword_nonspace s'
  end.

(** Every character of [s] satisfies [p]. *)
Fixpoint forallb (p : ascii → bool) (s : string) : bool :=
  match s with
  | EmptyString => true
  | String c s' => p c && forallb p s'
  end.

End PyStr.

(** ** The normalizer of [app.py] and of [utils/text_preprocessor.py] *)

Module SimpleTextPreprocessor.

Definition lemmatization_map : list (string * string) :=
  [ ("are", "be"); ("am", "be"); ("is", "be"); ("was", "be"); ("were", "be");
    ("running", "run"); ("ran", "run"); ("runs", "run");
    ("going", "go"); ("went", "go"); ("goes", "go");
    ("having", "have"); ("had", "have"); ("has", "have");
    ("doing", "do"); ("did", "do"); ("does", "do");
    ("saying", "say"); ("said", "say"); ("says", "say");
    ("orders", "order"); ("ordered", "order");
    ("returns", "return"); ("returned", "return");
    ("problems", "problem"); ("issues", "issue") ].

(** [d.get(word, default)] on a dict literal *)
Fixpoint dict_get (d : list (string * string)) (word default : string) : string :=
  match d with
  | [] => default
  | (k, v) :: d' => if decide (k = word) then v else dict_get d' word default
  end.

Definition preprocess_text (text : string) : string :=
  if decide (text = EmptyString) then EmptyString
  else
    let text := PyStr.lower text in
    let text := PyStr.sub_nonword_nonspace text in
    let words := PyStr.split text in
    let processed_words := map (λ word, dict_get lemmatization_map word word) words in
    PyStr.join " " processed_words.

End SimpleTextPreprocessor.

Module TextPreprocessor.

(** [_clean_text]: the part of [process] that removes characters; the
    tokenizer and the lemmatizer that follow are NLTK's. *)
Definition _clean_text (text : string) : string :=
  PyStr.sub_nonword_nonspace (PyStr.strip (PyStr.lower text)).

End TextPreprocessor.

(** ** The context store of [models/context_manager.py] *)

Module ContextManager.

(** One entry of a conversation history. *)
Record Turn := {
  timestamp : Z;
  user_input : string;
  bot_response : string;
  intent : string;
  application : string
}.

(** [collections.deque] with a [maxlen]. *)
Record deque (A : Type) := { maxlen : nat; items : list A }.
Arguments maxlen {A} _.
Arguments items {A} _.

(** [deque(maxlen=n)] *)
Definition deque_new {A} (n : nat) : deque A := {| maxlen := n; items := [] |}.

(** [deque(l, maxlen=n)]: the last [n] elements of [l]. *)
Definition deque_of_list {A} (l : list A) (n : nat) : deque A :=
  {| maxlen := n; items := drop (length l - n) l |}.

(** [d.append(x)]: the element goes to the right end; a deque that is
    then longer than its [maxlen] gives up its leftmost element. *)
Definition deque_append {A} (d : deque A) (x : A) : deque A :=
  let l := items d ++ [x] in
  {| maxlen := maxlen d;
     items := if decide (maxlen d < length l) then drop 1 l else l |}.

(** What the two open dictionaries of a context hold. *)
Inductive value := VBool (b : bool) | VStr (s : string).

Record UserContext := {
  user_id : string;
  conversation_history : deque Turn;
  current_application : string;
  user_name : option string;
  user_preferences : gmap string value;
  session_start : Z;
  last_activity : Z;
  message_count : nat;
  context_variables : gmap string value
}.

Definition set_conversation_history (h : deque Turn) (c : UserContext) : UserContext :=
  {| user_id := user_id c; conversation_history := h;
     current_application := current_application c; user_name := user_name c;
     user_preferences := user_preferences c; session_start := session_start c;
     last_activity := last_activity c; message_count := message_count c;
     context_variables := context_variables c |}.

Definition set_current_application (a : string) (c : UserContext) : UserContext :=
  {| user_id := user_id c; conversation_history := conversation_history c;
     current_application := a; user_name := user_name c;
     user_preferences := user_preferences c; session_start := session_start c;
     last_activity := last_activity c; message_count := message_count c;
     context_variables := context_variables c |}.

Definition set_user_name (n : option string) (c : UserContext) : UserContext :=
  {| user_id := user_id c; conversation_history := conversation_history c;
     current_application := current_application c; user_name := n;
     user_preferences := user_preferences c; session_start := session_start c;
     last_activity := last_activity c; message_count := message_count c;
     context_variables := context_variables c |}.

Definition set_user_preferences (p : gmap string value) (c : UserContext) : UserContext :=
  {| user_id := user_id c; conversation_history := conversation_history c;
     current_application := current_application c; user_name := user_name c;
     user_preferences := p; session_start := session_start c;
     last_activity := last_activity c; message_count := message_count c;
     context_variables := context_variables c |}.

Definition set_last_activity (t : Z) (c : UserContext) : UserContext :=
  {| user_id := user_id c; conversation_history := conversation_history c;
     current_application := current_application c; user_name := user_name c;
     user_preferences := user_preferences c; session_start := session_start c;
     last_activity := t; message_count := message_count c;
     context_variables := context_variables c |}.

Definition set_message_count (n : nat) (c : UserContext) : UserContext :=
  {| user_id := user_id c; conversation_history := conversation_history c;
     current_application := current_application c; user_name := user_name c;
     user_preferences := user_preferences c; session_start := session_start c;
     last_activity := last_activity c; message_count := n;
     context_variables := context_variables c |}.

Definition set_context_variables (v : gmap string value) (c : UserContext) : UserContext :=
  {| user_id := user_id c; conversation_history := conversation_history c;
     current_application := current_application c; user_name := user_name c;
     user_preferences := user_preferences c; session_start := session_start c;
     last_activity := last_activity c; message_count := message_count c;
     context_variables := v |}.

(** The manager: its two settings and the session table. *)
Record t := {
  max_context_length : nat;
  session_timeout : Z;
  user_contexts : gmap string UserContext
}.

Definition set_user_contexts (m : gmap string UserContext) (self : t) : t :=
  {| max_context_length := max_context_length self;
     session_timeout := session_timeout self;
     user_contexts := m |}.

(** [ContextManager(max_context_length, session_timeout)] *)
Definition init (max_context_length : nat) (session_timeout : Z) : t :=
  {| max_context_length := max_context_length;
     session_timeout := session_timeout;
     user_contexts := ∅ |}.

(** [session_age > self.session_timeout], the age in microseconds. The
    code compares the float [total_seconds()] of the age with the timeout;
    comparing the microseconds decides the same for a timeout below 2^34
    seconds ([TimedeltaFacts.expired_as_computed]), not for every larger
    one. *)
Definition expired (self : t) (current_time : Z) (context : UserContext) : Prop :=
  (session_timeout self * 1000000 < current_time - last_activity context)%Z.

Global Instance expired_dec self current_time context :
  Decision (expired self current_time context).
Proof. unfold expired. apply _. Defined.

Definition _cleanup_expired_sessions (self : t) (current_time : Z) : t :=
  set_user_contexts
    (filter (λ entry, ¬ expired self current_time entry.2) (user_contexts self))
    self.

Definition _create_new_context (self : t) (user_id : string) (now : Z) : UserContext :=
  {| user_id := user_id;
     conversation_history := deque_new (max_context_length self);
     current_application := "customer_support";
     user_name := None;
     user_preferences := ∅;
     session_start := now;
     last_activity := now;
     message_count := 0;
     context_variables := ∅ |}.

(** [get_context]: the context handed out, and the manager after the
    sweep and the insertion or the touch. *)
Definition get_context (self : t) (user_id : string) (now : Z) : UserContext * t :=
  let self := _cleanup_expired_sessions self now in
  let context :=
    match user_contexts self !! user_id with
    | None => _create_new_context self user_id now
    | Some context => set_last_activity now context
    end in
  (context, set_user_contexts (<[user_id := context]> (user_contexts self)) self).

Definition name_patterns : list string :=
  [ "my name is"; "i'm called"; "i am"; "call me"; "you can call me" ].

(** The loop of [_extract_user_name] over the patterns still to try; it
    stops at the first one that occurs in the lowered input. *)
Fixpoint _extract_user_name_loop (patterns : list string) (context : UserContext)
    (user_input user_input_lower : string) : UserContext :=
  match patterns with
  | [] => context
  | pattern :: patterns' =>
      match PyStr.find pattern user_input_lower with
      | Some i =>
          let name_start := i + String.length pattern in
          let potential_name := PyStr.strip (PyStr.slice_from name_start user_input) in
          match head (PyStr.split potential_name) with
          | Some name =>
              if decide (1 < String.length name)
              then set_user_name (Some name) context
              else context
          | None => context
          end
      | None => _extract_user_name_loop patterns' context user_input user_input_lower
      end
  end.

Definition _extract_user_name (context : UserContext) (user_input : string) : UserContext :=
  _extract_user_name_loop name_patterns context user_input (PyStr.lower user_input).

Definition issue_words : list string := [ "problem"; "issue"; "error"; "not working" ].
Definition positive_words : list string :=
  [ "great"; "good"; "excellent"; "thanks"; "thank you"; "awesome" ].
Definition negative_words : list string :=
  [ "bad"; "terrible"; "awful"; "horrible"; "disappointed" ].

(** [any(word in text for word in words)]; the two sentiment loops, which
    store the same value at the first hit and stop, test the same thing. *)
Definition any_in (words : list string) (text : string) : bool :=
  existsb (λ word, PyStr.contains word text) words.

Definition _update_context_variables (context : UserContext)
    (user_input intent : string) : UserContext :=
  let user_input_lower := PyStr.lower user_input in
  let vars := context_variables context in
  let vars := if any_in issue_words user_input_lower
              then <["has_issues" := VBool true]> vars else vars in
  let vars := if PyStr.contains "order" user_input_lower
              then <["discussing_orders" := VBool true]> vars else vars in
  let vars := if any_in positive_words user_input_lower
              then <["last_sentiment" := VStr "positive"]> vars else vars in
  let vars := if any_in negative_words user_input_lower
              then <["last_sentiment" := VStr "negative"]> vars else vars in
  set_context_variables vars context.

Definition new_turn (now : Z) (user_input bot_response intent application : string) : Turn :=
  {| timestamp := now; user_input := user_input; bot_response := bot_response;
     intent := intent; application := application |}.

Definition update_context (self : t) (user_id user_input bot_response intent
    application : string) (now : Z) : t :=
  let '(context, self) := get_context self user_id now in
  let context :=
    set_conversation_history
      (deque_append (conversation_history context)
         (new_turn now user_input bot_response intent application)) context in
  let context := set_current_application application context in
  let context := set_message_count (message_count context + 1) context in
  let context := _extract_user_name context user_input in
  let context := _update_context_variables context user_input intent in
  set_user_contexts (<[user_id := context]> (user_contexts self)) self.

Definition switch_application (self : t) (user_id application : string) (now : Z) : t :=
  let '(context, self) := get_context self user_id now in
  set_user_contexts
    (<[user_id := set_current_application application context]> (user_contexts self)) self.

Definition set_user_preference (self : t) (user_id preference_key : string)
    (v : value) (now : Z) : t :=
  let '(context, self) := get_context self user_id now in
  set_user_contexts
    (<[user_id := set_user_preferences
                    (<[preference_key := v]> (user_preferences context)) context]>
       (user_contexts self)) self.

(** [int((now - session_start).total_seconds())]: the quotient of the
    microseconds towards zero, which is what [int] makes of the float for
    a duration below 2^34 seconds
    ([TimedeltaFacts.get_session_duration_as_computed]). *)
Definition _get_session_duration (context : UserContext) (now : Z) : Z :=
  ((now - session_start context) ÷ 1000000)%Z.

Definition clear_context (self : t) (user_id : string) : bool * t :=
  match user_contexts self !! user_id with
  | Some _ => (true, set_user_contexts (delete user_id (user_contexts self)) self)
  | None => (false, self)
  end.

(** One entry of [get_all_active_sessions]. *)
Record Session := {
  s_user_id : string;
  s_user_name : option string;
  s_current_application : string;
  s_message_count : nat;
  s_session_duration : Z;
  s_last_activity : Z
}.

(** The entries come in the order of the keys of the finite map; the
    code lists them in the order in which the sessions were inserted. *)
Definition get_all_active_sessions (self : t) (now : Z) : list Session * t :=
  let self := _cleanup_expired_sessions self now in
  (map (λ entry,
          {| s_user_id := entry.1;
             s_user_name := user_name entry.2;
             s_current_application := current_application entry.2;
             s_message_count := message_count entry.2;
             s_session_duration := _get_session_duration entry.2 now;
             s_last_activity := last_activity entry.2 |})
       (map_to_list (user_contexts self)),
   self).

(** [export_context]: the session, as a value. The copy the code returns
    is shallow: its history is a new list, its dictionaries of preferences
    and of variables are those of the session. *)
Definition export_context (self : t) (user_id : string) : option UserContext :=
  user_contexts self !! user_id.

(** [import_context]: the history of the imported data is wrapped again
    in a deque of the manager's length, and the data is stored, as a value.
    The code stores the dictionary it is given: a client that imports one
    dictionary for two users, or what it exported for another user, leaves
    sessions that share objects. *)
Definition import_context (self : t) (user_id : string) (context_data : UserContext) : bool * t :=
  let context_data :=
    set_conversation_history
      (deque_of_list (items (conversation_history context_data))
         (max_context_length self)) context_data in
  (true, set_user_contexts (<[user_id := context_data]> (user_contexts self)) self).

(** The calls a client can make, and a run of them. *)
Inductive call :=
| GetContext (user_id : string) (now : Z)
| UpdateContext (user_id user_input bot_response intent application : string) (now : Z)
| SwitchApplication (user_id application : string) (now : Z)
| SetUserPreference (user_id preference_key : string) (v : value) (now : Z)
| ClearContext (user_id : string)
| GetAllActiveSessions (now : Z)
| ImportContext (user_id : string) (context_data : UserContext).

Definition step (self : t) (c : call) : t :=
  match c with
  | GetContext u now => (get_context self u now).2
  | UpdateContext u i b n a now => update_context self u i b n a now
  | SwitchApplication u a now => switch_application self u a now
  | SetUserPreference u k v now => set_user_preference self u k v now
  | ClearContext u => (clear_context self u).2
  | GetAllActiveSessions now => (get_all_active_sessions self now).2
  | ImportContext u d => (import_context self u d).2
  end.

Definition run (self : t) (calls : list call) : t := fold_left step calls self.

(** The history of a context is a deque of the manager's length and holds
    no more turns than that. *)
Definition bounded_history (n : nat) (context : UserContext) : Prop :=
  maxlen (conversation_history context) = n ∧
  length (items (conversation_history context)) ≤ n.

(** Every session of the table has a bounded history. *)
Definition bounded (self : t) : Prop :=
  map_Forall (λ _ context, bounded_history (max_context_length self) context)
             (user_contexts self).

(** The stored sentiment of a context. *)
Definition last_sentiment (context : UserContext) : option value :=
  context_variables context !! "last_sentiment".

(** [get_conversation_history]: [limit] is [None] for Python's [None];
    [history[-limit:]] is the whole history when [limit] exceeds its
    length. *)
Definition get_conversation_history (self : t) (user_id : string) (limit : option Z)
    (now : Z) : list Turn * t :=
  let '(context, self) := get_context self user_id now in
  let history := items (conversation_history context) in
  match limit with
  | Some limit =>
      if decide (0 < limit)%Z
      then (drop (length history - Z.to_nat limit) history, self)
      else (history, self)
  | None => (history, self)
  end.

(** [get_user_preference]: the default is [None] unless the caller gives
    one. *)
Definition get_user_preference (self : t) (user_id preference_key : string)
    (default : option value) (now : Z) : option value * t :=
  let '(context, self) := get_context self user_id now in
  (match user_preferences context !! preference_key with
   | Some v => Some v
   | None => default
   end, self).

(** What [get_context_summary] returns. *)
Record Summary := {
  sm_user_id : string;
  sm_user_name : option string;
  sm_current_application : string;
  sm_message_count : nat;
  sm_session_duration : Z;
  sm_recent_intents : list string;
  sm_has_issues : value;
  sm_last_sentiment : value
}.

Definition get_context_summary (self : t) (user_id : string) (now : Z) : Summary * t :=
  let '(context, self) := get_context self user_id now in
  let history := items (conversation_history context) in
  ({| sm_user_id := ContextManager.user_id context;
      sm_user_name := user_name context;
      sm_current_application := current_application context;
      sm_message_count := message_count context;
      sm_session_duration := _get_session_duration context now;
      sm_recent_intents := map intent (drop (length history - 3) history);
      sm_has_issues := default (VBool false) (context_variables context !! "has_issues");
      sm_last_sentiment := default (VStr "neutral")
                                   (context_variables context !! "last_sentiment") |},
   self).

(** The calls other than [import_context], which stores what it is given. *)
Definition own_call (c : call) : Prop :=
  match c with
  | ImportContext _ _ => False
  | _ => True
  end.

(** A session stored under its own user id whose history is as long as
    its message count allows. *)
Definition counted (n : nat) (key : string) (context : UserContext) : Prop :=
  ContextManager.user_id context = key ∧
  length (items (conversation_history context)) = min (message_count context) n.

End ContextManager.

(** ** [timedelta.total_seconds] and the floats of Python *)

Module Timedelta.

(** The numbers a Python float holds exactly: a significand [m] of at
    most 53 bits times a power of two in the range of binary64. *)
Definition representable (x : Q) : Prop :=
  ∃ m e : Z, (Z.abs m < 2 ^ 53)%Z ∧ (-1074 <= e <= 971)%Z ∧ (x == inject_Z m * 2 ^ e)%Q.

(** The rounding of a quotient of two integers to the nearest float, by
    the laws of it that are used: it keeps the order, it keeps a number
    that a float holds exactly, and no float is nearer to the number than
    the one it returns. *)
Class Binary64 := {
  round : Q → Q;
  round_monotone : ∀ x y, (x <= y)%Q → (round x <= round y)%Q;
  round_representable : ∀ x, representable x → (round x == x)%Q;
  round_nearest : ∀ x y, representable y → (Qabs (round x - x) <= Qabs (y - x))%Q
}.

(** One function with these laws: no rounding at all. *)
Definition unrounded : Binary64.
Proof.
  refine {| round := λ x, x;
            round_monotone := λ x y H, H;
            round_representable := λ x _, Qeq_refl x |}.
  intros x y _. assert (H : (x - x == 0)%Q) by ring. rewrite H. apply Qabs_nonneg.
Defined.

Section Timedelta.
Context `{B : Binary64}.

(** [timedelta.total_seconds()] of a difference of [microseconds]: the
    quotient by 10^6, as a float. *)
Definition total_seconds (microseconds : Z) : Q := round (microseconds # 1000000).

(** [int(x)] of a float: towards zero. *)
Definition int (x : Q) : Z := (Qnum x ÷ Z.pos (Qden x))%Z.

(** [session_age > self.session_timeout], as the sweep computes it. *)
Definition session_age_exceeds (session_timeout age : Z) : Prop :=
  (inject_Z session_timeout < total_seconds age)%Q.

(** [int((now - session_start).total_seconds())], as the code computes
    it. *)
Definition session_duration (age : Z) : Z := int (total_seconds age).

End Timedelta.

End Timedelta.

(** ** The training corpus: the dictionary of [chatbot_data.json] *)

Module Corpus.

Record AppData := {
  patterns : list string;
  responses : list string;
  tags : list string
}.

(** The dict under the key "applications", in insertion order; its keys
    are pairwise distinct. *)
Definition Applications : Type := list (string * AppData).

(** The whole dictionary; [None] when it has no key "applications". *)
Record TrainingData := { applications : option Applications }.

(** [apps.get(name)] *)
Fixpoint get (apps : Applications) (name : string) : option AppData :=
  match apps with
  | [] => None
  | (k, d) :: apps' => if decide (k = name) then Some d else get apps' name
  end.

(** The dict after its entry for [name] was changed in place by [f]. *)
Fixpoint alter (f : AppData → AppData) (name : string) (apps : Applications) : Applications :=
  match apps with
  | [] => []
  | (k, d) :: apps' =>
      if decide (k = name) then (k, f d) :: apps' else (k, d) :: alter f name apps'
  end.

(** [apps[name] = d] for a key the dict does not hold yet. *)
Definition add (apps : Applications) (name : string) (d : AppData) : Applications :=
  apps ++ [(name, d)].

End Corpus.

(** ** What the classifier takes from scikit-learn *)

Module Sklearn.

(** The runs of word characters of a document, [cur] being the run read
    so far. *)
Fixpoint word_runs (cur : string) (s : string) : list string :=
  match s with
  | EmptyString => [cur]
  | String c s' =>
      if PyStr.isword c then word_runs (cur +:+ String c EmptyString) s'
      else cur :: word_runs EmptyString s'
  end.

(** The default [token_pattern], [\b\w\w+\b], on the lowered document:
    the runs of two word characters or more. Stop words are removed from
    these afterwards. *)
Definition tokenize (doc : string) : list string :=
  filter (λ w, 2 ≤ String.length w) (word_runs EmptyString (PyStr.lower doc)).

(** [TfidfVectorizer] and [cosine_similarity] as the classifier calls
    them. [fit_transform] answers [None] when it raises; it does so, with
    "empty vocabulary", when no document has a token. *)
Class Vectorizer := {
  Fitted : Type;
  Row : Type;
  fit_transform : list string → option (Fitted * list Row);
  transform : Fitted → string → Row;
  cosine_similarity : Row → Row → Q;
  fit_transform_empty_vocabulary :
    ∀ docs, Forall (λ doc, tokenize doc = []) docs → fit_transform docs = None
}.

(** [np.argmax]: the first index of the largest entry. *)
Fixpoint argmax_go (best_idx : nat) (best : Q) (idx : nat) (l : list Q) : nat :=
  match l with
  | [] => best_idx
  | x :: l' =>
      if Qle_bool x best then argmax_go best_idx best (S idx) l'
      else argmax_go idx x (S idx) l'
  end.

Definition argmax (l : list Q) : option nat :=
  match l with
  | [] => None
  | x :: l' => Some (argmax_go 0 x 1 l')
  end.

(** A stand-in for the library in worked examples: a row is the token
    list of a document and the similarity of two rows is the share of the
    first row's tokens found in the second, out of the longer row. It
    raises on an empty vocabulary as the original does. *)
Definition overlap (a b : list string) : Q :=
  Z.of_nat (length (filter (λ w, w ∈ b) a)) # Pos.of_nat (max (length a) (length b)).

Definition overlap_fit_transform (docs : list string) : option (unit * list (list string)) :=
  if decide (Forall (λ doc, tokenize doc = []) docs) then None
  else Some ((), map tokenize docs).

Lemma overlap_fit_transform_empty_vocabulary docs :
  Forall (λ doc, tokenize doc = []) docs → overlap_fit_transform docs = None.
Proof. intros H. unfold overlap_fit_transform. by case_decide. Qed.

Definition token_overlap : Vectorizer :=
  {| Fitted := unit;
     Row := list string;
     fit_transform := overlap_fit_transform;
     transform := λ _ text, tokenize text;
     cosine_similarity := overlap;
     fit_transform_empty_vocabulary := overlap_fit_transform_empty_vocabulary |}.

End Sklearn.

(** ** The intent classifier of [models/intent_classifier.py] *)

Module IntentClassifier.
Import Sklearn.

Record TagInfo := { application : string; tag : string }.

(** The applications [train] keeps: patterns and tags agree in number. *)
Definition well_formed (app_data : Corpus.AppData) : Prop :=
  length (Corpus.patterns app_data) = length (Corpus.tags app_data).

Global Instance well_formed_dec app_data : Decision (well_formed app_data).
Proof. unfold well_formed. apply _. Defined.

Definition kept (training_data : Corpus.TrainingData) : Corpus.Applications :=
  filter (λ entry, well_formed entry.2) (default [] (Corpus.applications training_data)).

(** The patterns of the kept applications, in the order of the corpus, and
    their tags, each with the application it comes from. *)
Definition kept_patterns (training_data : Corpus.TrainingData) : list string :=
  flat_map (λ entry, Corpus.patterns entry.2) (kept training_data).

Definition kept_tags (training_data : Corpus.TrainingData) : list TagInfo :=
  flat_map (λ entry, map (λ tag, {| application := entry.1; tag := tag |})
                         (Corpus.tags entry.2))
           (kept training_data).

Section Classifier.
Context `{V : Vectorizer}.

Record t := {
  min_confidence : Q;
  trained : bool;
  patterns : list string;
  tags : list TagInfo;
  vectorizer : option Fitted;
  X : option (list Row)
}.

(** [IntentClassifier(min_confidence=...)] *)
Definition init (min_confidence : Q) : t :=
  {| min_confidence := min_confidence; trained := false; patterns := [];
     tags := []; vectorizer := None; X := None |}.

(** The loop of [train] over the applications: one whose patterns and tags
    differ in number is passed over. *)
Definition collect_step (acc : list string * list TagInfo)
    (entry : string * Corpus.AppData) : list string * list TagInfo :=
  let '(all_patterns, all_tags) := acc in
  let '(app_name, app_data) := entry in
  if decide (length (Corpus.patterns app_data) ≠ length (Corpus.tags app_data))
  then (all_patterns, all_tags)
  else (all_patterns ++ Corpus.patterns app_data,
        all_tags ++ map (λ tag, {| application := app_name; tag := tag |})
                        (Corpus.tags app_data)).

Definition collect (training_data : Corpus.TrainingData) : list string * list TagInfo :=
  fold_left collect_step (default [] (Corpus.applications training_data)) ([], []).

Definition train (self : t) (training_data : Corpus.TrainingData) : bool * t :=
  let '(all_patterns, all_tags) := collect training_data in
  match all_patterns with
  | [] => (false, self)
  | _ :: _ =>
      match fit_transform all_patterns with
      | Some (fitted, rows) =>
          (true,
           {| min_confidence := min_confidence self; trained := true;
              patterns := all_patterns; tags := all_tags;
              vectorizer := Some fitted; X := Some rows |})
      | None =>
          (false,
           {| min_confidence := min_confidence self; trained := false;
              patterns := all_patterns; tags := all_tags;
              vectorizer := vectorizer self; X := X self |})
      end
  end.

(** [min(a, b)] of Python: [b] only when it is smaller. *)
Definition py_min (a b : Q) : Q := if Qle_bool a b then a else b.

(** [list(history)[-3:]] *)
Definition last3 {A} (l : list A) : list A := drop (length l - 3) l.

(** The context argument is [None] for Python's [None], an empty dict or a
    dict without a history. *)
Definition _apply_context_scoring (confidence : Q) (tag_info : TagInfo)
    (application' : string) (context : option ContextManager.UserContext) : Q :=
  let adjusted_confidence := confidence in
  let adjusted_confidence :=
    if decide (application tag_info = application')
    then py_min (adjusted_confidence * (11 # 10)) 1
    else adjusted_confidence in
  match context with
  | Some context =>
      let history := ContextManager.items (ContextManager.conversation_history context) in
      let recent_intents := map ContextManager.intent (last3 history) in
      if decide (tag tag_info ∈ recent_intents)
      then (adjusted_confidence * (21 # 20))%Q
      else adjusted_confidence
  | None => adjusted_confidence
  end.

(** The best-matching row and its similarity; [None] where the lines that
    compute them raise. *)
Definition best_match (self : t) (text : string) : option (nat * Q) :=
  match vectorizer self, X self with
  | Some fitted, Some rows =>
      let text_vector := transform fitted text in
      let similarities := cosine_similarity text_vector <$> rows in
      best_match_idx ← argmax similarities;
      confidence ← similarities !! best_match_idx;
      Some (best_match_idx, confidence)
  | _, _ => None
  end.

Definition predict (self : t) (text application' : string)
    (context : option ContextManager.UserContext) : string * Q :=
  if negb (trained self) then ("unknown", 0%Q)
  else
    match best_match self text with
    | Some (best_match_idx, confidence) =>
        if Qle_bool (min_confidence self) confidence then
          match tags self !! best_match_idx with
          | Some best_tag_info =>
              (tag best_tag_info,
               _apply_context_scoring confidence best_tag_info application' context)
          | None => ("unknown", 0%Q)
          end
        else ("unknown", confidence)
    | None => ("unknown", 0%Q)
    end.

(** [retrain] *)
Definition retrain (self : t) (new_data : Corpus.TrainingData) : bool * t :=
  train self new_data.

(** A run of [train] calls; next to the classifier, the corpus of the last
    call that returned [True]. *)
Fixpoint train_all (self : t) (last : option Corpus.TrainingData)
    (corpora : list Corpus.TrainingData) : t * option Corpus.TrainingData :=
  match corpora with
  | [] => (self, last)
  | training_data :: corpora' =>
      let '(ok, self') := train self training_data in
      train_all self' (if ok then Some training_data else last) corpora'
  end.

(** The tags of a trained classifier are those collected from the corpus
    of the last [train] call that returned [True]. *)
Definition tags_of_last (self : t) (last : option Corpus.TrainingData) : Prop :=
  trained self = true → ∃ td, last = Some td ∧ tags self = kept_tags td.

End Classifier.

(** The recent intents the scoring looks at; none without a context. *)
Definition recent_intents (context : option ContextManager.UserContext) : list string :=
  match context with
  | Some context =>
      map ContextManager.intent
          (last3 (ContextManager.items (ContextManager.conversation_history context)))
  | None => []
  end.

(** The tags a corpus supplies, whatever the application. *)
Definition corpus_tags (training_data : Corpus.TrainingData) : list string :=
  flat_map (λ entry, Corpus.tags entry.2) (default [] (Corpus.applications training_data)).

End IntentClassifier.

(** ** The training-data manager (class [TrainingDataManager]) *)

Module TrainingDataManager.

Record t := { data_file : string; data : Corpus.TrainingData }.

Definition init (data_file : string) : t :=
  {| data_file := data_file; data := {| Corpus.applications := None |} |}.

(** [save_data]: [write_ok] tells whether the file system let the corpus
    be written. *)
Definition save_data (self : t) (write_ok : bool) : bool := write_ok.

Definition append_example (pattern response tag : string) (d : Corpus.AppData) : Corpus.AppData :=
  {| Corpus.patterns := Corpus.patterns d ++ [pattern];
     Corpus.responses := Corpus.responses d ++ [response];
     Corpus.tags := Corpus.tags d ++ [tag] |}.

Definition add_example (self : t) (application pattern response tag : string)
    (write_ok : bool) : bool * t :=
  match Corpus.applications (data self) with
  | None => (false, self)
  | Some apps =>
      let apps :=
        match Corpus.get apps application with
        | None => Corpus.add apps application
                    {| Corpus.patterns := []; Corpus.responses := []; Corpus.tags := [] |}
        | Some _ => apps
        end in
      let apps := Corpus.alter (append_example pattern response tag) application apps in
      let self := {| data_file := data_file self;
                     data := {| Corpus.applications := Some apps |} |} in
      (save_data self write_ok, self)
  end.

(** [_create_default_data] *)
Definition _create_default_data : Corpus.TrainingData :=
  {| Corpus.applications := Some [
    ("customer_support",
     {| Corpus.patterns :=
          [ "hello"; "hi"; "hey"; "good morning"; "good afternoon";
            "i need help with my order"; "order status"; "track my package";
            "return policy"; "refund request"; "cancel order"; "product not working";
            "broken item"; "defective product"; "shipping delay";
            "when will my order arrive"; "delivery time"; "payment issue";
            "billing problem"; "charge dispute" ];
        Corpus.responses :=
          [ "Hello! I'm here to help with your customer service needs.";
            "I can check your order status. Please provide your order number.";
            "Our return policy allows returns within 30 days of purchase.";
            "I'm sorry to hear you're having issues. Let me help you with that.";
            "For shipping delays, I can check the current status for you.";
            "I can help with payment issues. What seems to be the problem?" ];
        Corpus.tags :=
          [ "greeting"; "greeting"; "greeting"; "greeting"; "greeting"; "order_help";
            "order_status"; "order_status"; "return_policy"; "refund"; "cancel_order";
            "product_issue"; "product_issue"; "product_issue"; "shipping"; "shipping";
            "shipping"; "payment"; "payment"; "payment" ] |});
    ("college_helpdesk",
     {| Corpus.patterns :=
          [ "admission requirements"; "how to apply"; "application deadline";
            "tuition fees"; "scholarships"; "financial aid"; "course registration";
            "class schedule"; "prerequisites"; "campus facilities"; "library hours";
            "computer lab" ];
        Corpus.responses :=
          [ "Admission requirements include a completed application and transcripts.";
            "The application deadline for fall semester is August 1st.";
            "Tuition fees vary by program. I can check specific costs for you.";
            "We offer various scholarships based on academic performance.";
            "Course registration opens two weeks before each semester.";
            "The library is open from 8 AM to 10 PM on weekdays." ];
        Corpus.tags :=
          [ "admissions"; "admissions"; "admissions"; "fees"; "financial";
            "financial"; "registration"; "schedule"; "courses"; "facilities";
            "facilities"; "facilities" ] |});
    ("hr_recruitment",
     {| Corpus.patterns :=
          [ "job openings"; "current vacancies"; "career opportunities";
            "application process"; "how to apply"; "submit resume";
            "interview process"; "hiring stages"; "technical interview";
            "salary range"; "compensation"; "benefits package" ];
        Corpus.responses :=
          [ "We have openings in engineering, marketing, and sales departments.";
            "You can apply through our careers portal with your resume.";
            "Our interview process typically includes 3-4 stages.";
            "Salary ranges are competitive and based on experience.";
            "We offer comprehensive health benefits and retirement plans." ];
        Corpus.tags :=
          [ "openings"; "openings"; "openings"; "application"; "application";
            "application"; "interview"; "interview"; "interview"; "compensation";
            "compensation"; "benefits" ] |});
    ("personal_assistant",
     {| Corpus.patterns :=
          [ "what's the time"; "current time"; "time please"; "weather today";
            "weather forecast"; "will it rain"; "set reminder"; "remind me to";
            "schedule meeting"; "tell me a joke"; "make me laugh"; "something funny" ];
        Corpus.responses :=
          [ "I can check the time for you. One moment...";
            "For weather information, I recommend checking a weather app.";
            "I can help you set reminders. What should I remind you about?";
            "Why don't scientists trust atoms? Because they make up everything!";
            "Here's a joke: Why did the scarecrow win an award? He was outstanding in his field!" ];
        Corpus.tags :=
          [ "time"; "time"; "time"; "weather"; "weather"; "weather"; "reminder";
            "reminder"; "schedule"; "joke"; "joke"; "joke" ] |}) ] |}.

(** What [load_data] finds at [data_file]: no file, a file that holds a
    dictionary, or a file that cannot be read as JSON. *)
Inductive file := Missing | Holds (d : Corpus.TrainingData) | Unreadable.

(** [load_data]: the dictionary it returns, and the manager. With no
    file the default data is stored and written, whatever becomes of the
    write; when reading raises, the default data is returned and nothing
    is stored. *)
Definition load_data (self : t) (f : file) (write_ok : bool) : Corpus.TrainingData * t :=
  match f with
  | Holds d => (d, {| data_file := data_file self; data := d |})
  | Missing =>
      let self := {| data_file := data_file self; data := _create_default_data |} in
      let _ := save_data self write_ok in
      (data self, self)
  | Unreadable => (_create_default_data, self)
  end.

(** [get_application_data]; [None] where the lookup of "applications"
    raises. *)
Definition get_application_data (self : t) (application : string)
    : option (option Corpus.AppData) :=
  apps ← Corpus.applications (data self); Some (Corpus.get apps application).

(** [get_all_applications]; [None] where it raises. *)
Definition get_all_applications (self : t) : option (list string) :=
  apps ← Corpus.applications (data self); Some (map fst apps).

(** What [get_stats] returns; per application the numbers of patterns,
    responses and tags. *)
Record Stats := {
  total_applications : nat;
  total_patterns : nat;
  total_responses : nat;
  application_stats : list (string * (nat * nat * nat))
}.

(** The loop of [get_stats]. *)
Definition stats_step (acc : nat * nat * list (string * (nat * nat * nat)))
    (entry : string * Corpus.AppData) : nat * nat * list (string * (nat * nat * nat)) :=
  let '(total_patterns, total_responses, application_stats) := acc in
  let '(app_name, app_data) := entry in
  let patterns_count := length (Corpus.patterns app_data) in
  let responses_count := length (Corpus.responses app_data) in
  let tags_count := length (Corpus.tags app_data) in
  (total_patterns + patterns_count, total_responses + responses_count,
   application_stats ++ [(app_name, (patterns_count, responses_count, tags_count))]).

Definition get_stats (self : t) : option Stats :=
  apps ← Corpus.applications (data self);
  let '(total_patterns, total_responses, application_stats) :=
    fold_left stats_step apps (0, 0, []) in
  Some {| total_applications := length apps;
          total_patterns := total_patterns;
          total_responses := total_responses;
          application_stats := application_stats |}.

(** The patterns and the responses of a corpus, counted. *)
Definition count_patterns (apps : Corpus.Applications) : nat :=
  sum_list (map (λ entry, length (Corpus.patterns entry.2)) apps).

Definition count_responses (apps : Corpus.Applications) : nat :=
  sum_list (map (λ entry, length (Corpus.responses entry.2)) apps).

End TrainingDataManager.

(** ** The trainer of [data/training_data.py] *)

Module ChatbotTrainer.

(** The loop of [validate_data]. *)
Definition validate_step (valid : bool) (entry : string * Corpus.AppData) : bool :=
  let '(app_name, app_data) := entry in
  let valid :=
    if decide (length (Corpus.patterns app_data) ≠ length (Corpus.tags app_data))
    then false else valid in
  if decide (length (Corpus.patterns app_data) = 0) then false else valid.

(** [validate_data]; [None] where the lookup of "applications" raises. *)
Definition validate_data (data : Corpus.TrainingData) : option bool :=
  apps ← Corpus.applications data; Some (fold_left validate_step apps true).

End ChatbotTrainer.

(** ** [get_similar_intents] and what it takes from NumPy *)

Module Numpy.

(** The entry of [l] at index [a]; 0 outside the list. *)
Definition key (l : list Q) (a : nat) : Q := default 0%Q (l !! a).

Definition le_key (l : list Q) (a b : nat) : Prop := (key l a <= key l b)%Q.

Global Instance le_key_dec l a b : Decision (le_key l a b).
Proof. unfold le_key, Qle. apply _. Defined.

Global Instance le_key_total l : Total (le_key l).
Proof.
  intros a b. unfold le_key.
  destruct (Qlt_le_dec (key l b) (key l a)) as [H|H]; [right|left]; [|done].
  by apply Qlt_le_weak.
Qed.

Global Instance le_key_trans l : Transitive (le_key l).
Proof. intros a b c. unfold le_key. apply Qle_trans. Qed.

(** [np.argsort]: the indices of a list in an order that sorts it
    ascending; the order among equal entries is left open. *)
Class Argsort := {
  argsort : list Q → list nat;
  argsort_permutation : ∀ l, argsort l ≡ₚ seq 0 (length l);
  argsort_sorted : ∀ l, StronglySorted (le_key l) (argsort l)
}.

(** One such function: merge sort on the indices. *)
Definition merge_argsort : Argsort :=
  {| argsort := λ l, merge_sort (le_key l) (seq 0 (length l));
     argsort_permutation := λ l, merge_sort_Permutation (le_key l) (seq 0 (length l));
     argsort_sorted := λ l, StronglySorted_merge_sort (le_key l) (seq 0 (length l)) |}.

(** [a[-k:]] for an integer [k]: the last [k] elements for a positive
    [k], all of [a] for 0, and [a] without its first [-k] elements for a
    negative [k]. *)
Definition slice_last {A} (k : Z) (l : list A) : list A :=
  if decide (0 < k)%Z then drop (length l - Z.to_nat k) l
  else drop (Z.to_nat (- k)) l.

End Numpy.

Module SimilarIntents.
Import Sklearn Numpy IntentClassifier.

Section SimilarIntents.
Context `{V : Vectorizer} `{S : Argsort}.

(** The loop over the top indices; [None] where a lookup raises. *)
Fixpoint similar_loop (similarities : list Q) (tags : list TagInfo)
    (top_indices : list nat) : option (list (string * Q)) :=
  match top_indices with
  | [] => Some []
  | idx :: top_indices' =>
      sim ← similarities !! idx;
      if Qle_bool sim 0 then similar_loop similarities tags top_indices'
      else
        tag_info ← tags !! idx;
        results ← similar_loop similarities tags top_indices';
        Some ((tag tag_info, sim) :: results)
  end.

Definition get_similar_intents (self : t) (text : string) (top_k : Z) : list (string * Q) :=
  if negb (trained self) then []
  else
    match vectorizer self, X self with
    | Some fitted, Some rows =>
        let text_vector := transform fitted text in
        let similarities := cosine_similarity text_vector <$> rows in
        let top_indices := reverse (slice_last top_k (argsort similarities)) in
        default [] (similar_loop similarities (tags self) top_indices)
    | _, _ => []
    end.

End SimilarIntents.

End SimilarIntents.

(** ** The chatbot of [app.py] *)

Module SimpleChatbot.

(** [_load_pattern_responses]; [hm] and [ampm] are the clock of the
    moment the chatbot is built, formatted with [%H:%M] and [%I:%M %p]. *)
Definition _load_pattern_responses (hm ampm : string)
    : list (string * list (list string * list string)) :=
  [ ("customer_support",
    [
      ([ "hello"; "hi"; "hey" ],
       [ "Hello! How can I help with customer support today?";
         "Hi there! What can I assist you with today?" ]);
      ([ "order"; "status"; "track"; "package" ],
       [ "I can help you track your order. Do you have an order number?";
         "For order status, I'll need your order number." ]);
      ([ "return"; "refund"; "cancel" ],
       [ "Our return policy allows returns within 30 days. Can you tell me more about your situation?";
         "I can help with returns and refunds. What would you like to return?" ]);
      ([ "problem"; "issue"; "broken"; "not working"; "defective" ],
       [ "I'm sorry you're having issues. Let me help you troubleshoot the problem.";
         "I can help with technical issues. What seems to be the problem?" ]);
      ([ "shipping"; "delivery"; "when"; "arrive" ],
       [ "I can check shipping status for you. What's your order number?";
         "For delivery information, I'll need your order details." ]);
      ([ "payment"; "billing"; "charge"; "credit card" ],
       [ "I can help with payment issues. What seems to be the problem?";
         "For billing questions, I'll need more information about the charge." ]) ]);
    ("college_helpdesk",
    [
      ([ "admission"; "apply"; "application"; "requirements" ],
       [ "Admission requirements include a completed application and transcripts.";
         "The application deadline for fall semester is August 1st." ]);
      ([ "tuition"; "fees"; "scholarship"; "financial"; "aid" ],
       [ "Tuition fees vary by program. I can check specific costs for you.";
         "We offer various scholarships based on academic performance." ]);
      ([ "course"; "register"; "class"; "schedule" ],
       [ "Course registration opens two weeks before each semester.";
         "You can check the class schedule on our student portal." ]);
      ([ "campus"; "library"; "facility"; "hours" ],
       [ "The library is open from 8 AM to 10 PM on weekdays.";
         "Most campus facilities are open from 7 AM to 10 PM." ]) ]);
    ("hr_recruitment",
    [
      ([ "job"; "opening"; "vacancy"; "career"; "position" ],
       [ "We have openings in engineering, marketing, and sales departments.";
         "You can view all current openings on our careers page." ]);
      ([ "apply"; "application"; "resume"; "cv" ],
       [ "You can apply through our careers portal with your resume.";
         "The application process typically takes 2-3 weeks." ]);
      ([ "interview"; "process"; "hiring"; "stage" ],
       [ "Our interview process typically includes 3-4 stages.";
         "The hiring process includes resume screening and multiple interviews." ]);
      ([ "salary"; "compensation"; "benefit"; "pay" ],
       [ "Salary ranges are competitive and based on experience.";
         "We offer comprehensive health benefits and retirement plans." ]) ]);
    ("personal_assistant",
    [
      ([ "time"; "current"; "clock" ],
       [ ("The current time is " +:+ hm +:+ "."); ("It's currently " +:+ ampm +:+ ".") ]);
      ([ "weather"; "forecast"; "rain"; "temperature" ],
       [ "I recommend checking a weather app for current conditions.";
         "For accurate weather information, try a dedicated weather service." ]);
      ([ "remind"; "reminder"; "schedule"; "meeting" ],
       [ "I can help you set reminders. What should I remind you about?";
         "For scheduling, you can use calendar apps like Google Calendar." ]);
      ([ "joke"; "funny"; "laugh"; "humor" ],
       [ "Why don't scientists trust atoms? Because they make up everything!";
         "Why did the scarecrow win an award? He was outstanding in his field!" ]) ]) ].

(** The dict [fallbacks] of [get_response]. *)
Definition fallbacks : list (string * list string) :=
  [ ("customer_support",
     [ "I'm here to help with customer support. How can I assist you today?";
       "For customer support, I can help with orders, returns, and technical issues. What do you need help with?";
       "I specialize in customer service. Tell me about your concern." ]);
    ("college_helpdesk",
     [ "I can help with college information, admissions, and campus services. What would you like to know?";
       "As a college helpdesk assistant, I can answer questions about admissions, courses, and campus life.";
       "How can I assist you with college-related matters today?" ]);
    ("hr_recruitment",
     [ "I can help with job openings, applications, and company information. What would you like to know?";
       "For HR and recruitment questions, I'm here to help. What information are you looking for?";
       "I specialize in career and employment information. How can I assist you?" ]);
    ("personal_assistant",
     [ "I can help with time, reminders, and general information. What do you need?";
       "As your personal assistant, I can provide information and help with various tasks.";
       "How can I assist you today?" ]) ].

(** One entry of a user's history. *)
Record Exchange := {
  user : string;
  bot : string;
  timestamp : Z;
  application : string
}.

Record Context := {
  conversation_history : list Exchange;
  current_application : string;
  user_name : option string
}.

Record t := {
  pattern_responses : list (string * list (list string * list string));
  conversation_context : gmap string Context
}.

(** [SimpleChatbot()] at a moment whose clock reads [hm], [ampm]. *)
Definition init (hm ampm : string) : t :=
  {| pattern_responses := _load_pattern_responses hm ampm;
     conversation_context := ∅ |}.

(** What [get_response] returns. *)
Record Response := {
  response : string;
  confidence : Q;
  r_application : string;
  context_used : bool
}.

(** [d.get(key, default)] on a dict with string keys. *)
Fixpoint dict_get {A} (d : list (string * A)) (key : string) (default : A) : A :=
  match d with
  | [] => default
  | (k, v) :: d' => if decide (k = key) then v else dict_get d' key default
  end.

(** [random.choice(seq)] with the [k]-th draw of the random source
    [rng]; [None] where it raises, on an empty sequence. *)
Definition choice (rng : nat → nat) (k : nat) (seq : list string) : option string :=
  seq !! (rng k mod length seq).

(** [match_count / len(pattern_group) if pattern_group else 0] *)
Definition group_confidence (pattern_group : list string) (processed_input : string) : Q :=
  let match_count :=
    length (filter (λ pattern, PyStr.contains pattern processed_input = true)
                   pattern_group) in
  match pattern_group with
  | [] => 0%Q
  | _ :: _ => (Z.of_nat match_count # Pos.of_nat (length pattern_group))%Q
  end.

(** The loop over the pattern groups of the application: the best
    response and confidence so far and the number of draws made; [None]
    where a draw raises. *)
Fixpoint match_loop (rng : nat → nat) (app_patterns : list (list string * list string))
    (processed_input : string) (best_response : option string) (best_confidence : Q)
    (k : nat) : option (option string * Q * nat) :=
  match app_patterns with
  | [] => Some (best_response, best_confidence, k)
  | (pattern_group, responses) :: app_patterns' =>
      let confidence := group_confidence pattern_group processed_input in
      if Qle_bool confidence best_confidence
      then match_loop rng app_patterns' processed_input best_response best_confidence k
      else
        chosen ← choice rng k responses;
        match_loop rng app_patterns' processed_input (Some chosen) confidence (S k)
  end.

(** The answer of the [except] branch, and of a blank input. *)
Definition apology (application : string) : Response :=
  {| response := "I apologize, but I'm having trouble right now. Please try again.";
     confidence := 0%Q; r_application := application; context_used := false |}.

Definition please_type (application : string) : Response :=
  {| response := "Please type a message so I can help you!";
     confidence := 0%Q; r_application := application; context_used := false |}.

Definition question_words : list string := [ "how"; "what"; "when"; "where" ].

(** The part of [get_response] after the context of the user was set up:
    the response, and the context of the user with the exchange recorded;
    [None] where it raises. *)
Definition respond (self : t) (context : Context) (user_input application : string)
    (rng : nat → nat) (now : Z) : option (Response * Context) :=
  let processed_input := SimpleTextPreprocessor.preprocess_text user_input in
  let app_patterns := dict_get (pattern_responses self) application [] in
  '(best_response, best_confidence, k) ←
     match_loop rng app_patterns processed_input None 0%Q 0;
  '(best_response, best_confidence) ←
     (if bool_decide (best_response = None ∨ best_response = Some EmptyString)
         || negb (Qle_bool (3 # 10) best_confidence)
      then
        chosen ← choice rng k
                   (dict_get fallbacks application [ "How can I help you today?" ]);
        Some (chosen, (1 # 10)%Q)
      else Some (default EmptyString best_response, best_confidence));
  '(best_response, context) ←
     match PyStr.find "my name is" (PyStr.lower user_input) with
     | Some i =>
         let name_start := i + 10 in
         potential_name ←
           head (PyStr.split (PyStr.strip (PyStr.slice_from name_start user_input)));
         if decide (1 < String.length potential_name)
         then Some ("Nice to meet you, " +:+ potential_name +:+ "! " +:+ best_response,
                    {| conversation_history := conversation_history context;
                       current_application := current_application context;
                       user_name := Some potential_name |})
         else Some (best_response, context)
     | None =>
         match user_name context with
         | Some name =>
             if bool_decide (name ≠ EmptyString)
                && existsb (λ word, PyStr.contains word processed_input) question_words
             then Some (best_response +:+ " By the way, " +:+ name +:+ "!", context)
             else Some (best_response, context)
         | None => Some (best_response, context)
         end
     end;
  let history :=
    conversation_history context ++
      [ {| user := user_input; bot := best_response; timestamp := now;
           application := application |} ] in
  let history :=
    if decide (5 < length history) then drop (length history - 5) history else history in
  Some ({| response := best_response; confidence := best_confidence;
           r_application := application;
           context_used := bool_decide (1 < length history) |},
        {| conversation_history := history;
           current_application := current_application context;
           user_name := user_name context |}).

Definition get_response (self : t) (user_input user_id application : string)
    (rng : nat → nat) (now : Z) : Response * t :=
  if decide (user_input = EmptyString ∨ PyStr.strip user_input = EmptyString)
  then (please_type application, self)
  else
    let context :=
      match conversation_context self !! user_id with
      | Some context => context
      | None => {| conversation_history := []; current_application := application;
                   user_name := None |}
      end in
    let self := {| pattern_responses := pattern_responses self;
                   conversation_context :=
                     <[user_id := context]> (conversation_context self) |} in
    match respond self context user_input application rng now with
    | Some (r, context) =>
        (r, {| pattern_responses := pattern_responses self;
               conversation_context :=
                 <[user_id := context]> (conversation_context self) |})
    | None => (apology application, self)
    end.

(** One request, and a run of requests. *)
Record Request := {
  q_user_input : string;
  q_user_id : string;
  q_application : string;
  q_rng : nat → nat;
  q_now : Z
}.

Definition serve (self : t) (q : Request) : t :=
  (get_response self (q_user_input q) (q_user_id q) (q_application q)
                (q_rng q) (q_now q)).2.

Definition run (self : t) (requests : list Request) : t := fold_left serve requests self.

(** Every pattern group of the table has a response to draw. *)
Definition well_tabled (self : t) : Prop :=
  Forall (λ entry, Forall (λ group, group.2 ≠ []) entry.2) (pattern_responses self).

(** The context [get_response] works on: the user's, or a new one. *)
Definition context_of (self : t) (user_id application : string) : Context :=
  match conversation_context self !! user_id with
  | Some context => context
  | None => {| conversation_history := []; current_application := application;
               user_name := None |}
  end.

(** The candidates [get_response] draws from for an application: the
    responses of its pattern groups and its fallback answers. *)
Definition candidates (self : t) (application : string) : list string :=
  flat_map snd (dict_get (pattern_responses self) application []) ++
  dict_get fallbacks application [ "How can I help you today?" ].

End SimpleChatbot.

(** ** Normalized text *)

Module Normalized.

(** The characters of a normalized word: lower-case letters, digits and
    the underscore. *)
Definition plain (c : ascii) : bool := PyStr.isword c && negb (PyStr.isupper c).

(** A word that is not empty and made of such characters. *)
Definition word (w : string) : bool :=
  match w with
  | EmptyString => false
  | String _ _ => PyStr.forallb plain w
  end.

(** [map.get(word, word)] with the map of [preprocess_text]. *)
Definition lemma (w : string) : string :=
  SimpleTextPreprocessor.dict_get SimpleTextPreprocessor.lemmatization_map w w.

End Normalized.

(** * Properties *)

(** ** Strings *)

Module PyStrFacts.
Import PyStr.

(** A property of characters that computes holds of all 256 of them. *)
Lemma ascii_forall (P : ascii → bool) :
  (∀ b0 b1 b2 b3 b4 b5 b6 b7 : bool, P (Ascii b0 b1 b2 b3 b4 b5 b6 b7) = true) →
  ∀ c, P c = true.
Proof. intros H [b0 b1 b2 b3 b4 b5 b6 b7]. apply H. Qed.

Ltac by_ascii_cases c :=
  revert c;
  match goal with
  | |- ∀ c : ascii, @?P c = true => apply (ascii_forall P)
  end;
  intros [] [] [] [] [] [] [] []; vm_compute; reflexivity.

(** Blank characters are no word characters, and lowering keeps them. *)
Lemma isspace_not_isword c : implb (isspace c) (negb (isword c)) = true.
Proof. by_ascii_cases c. Qed.

Lemma lower_char_isspace c : Bool.eqb (isspace (lower_char c)) (isspace c) = true.
Proof. by_ascii_cases c. Qed.

(** Lowering a character that is no letter, digit or underscore leaves a
    character that is none either. *)
Lemma lower_char_isword c : implb (negb (isword c)) (negb (isword (lower_char c))) = true.
Proof. by_ascii_cases c. Qed.

(** Punctuation other than the underscore is neither word nor blank. *)
Lemma ispunct_not_isword c :
  implb (ispunct c && negb (code c =? 95)%N) (negb (isword c) && negb (isspace c)) = true.
Proof. by_ascii_cases c. Qed.

Lemma split_go_blank s :
  forallb isspace s = true → split_go None s = [].
Proof.
  induction s as [|c s IH]; simpl; [done|].
  intros [Hc Hs]%andb_prop. rewrite Hc. simpl. auto.
Qed.

Lemma split_blank s : forallb isspace s = true → split s = [].
Proof. apply split_go_blank. Qed.

(** What [re.sub] leaves of a text without word characters is blank. *)
Lemma sub_nonword_nonspace_blank s :
  forallb (λ c, negb (isword c)) s = true →
  forallb isspace (sub_nonword_nonspace s) = true.
Proof.
  induction s as [|c s IH]; simpl; [done|].
  intros [Hc Hs]%andb_prop. apply negb_true_iff in Hc. rewrite Hc. simpl.
  destruct (isspace c) eqn:Hsp; simpl; [rewrite Hsp|]; auto.
Qed.

Lemma lower_no_word s :
  forallb (λ c, negb (isword c)) s = true →
  forallb (λ c, negb (isword c)) (lower s) = true.
Proof.
  induction s as [|c s IH]; simpl; [done|].
  intros [Hc Hs]%andb_prop. rewrite IH by done.
  pose proof (lower_char_isword c) as H. rewrite Hc in H. simpl in H.
  by rewrite H.
Qed.

Lemma find_Some_startswith p s i :
  find p s = Some i → startswith p (slice_from i s) = true.
Proof.
  revert i. induction s as [|c s IH]; intros i; simpl.
  - destruct (startswith p EmptyString) eqn:Hp; [|done].
    intros [= <-]. done.
  - destruct (startswith p (String c s)) eqn:Hp.
    + intros [= <-]. done.
    + destruct (find p s) as [j|] eqn:Hf; simpl; [|done].
      intros [= <-]. simpl. by apply IH.
Qed.

Lemma contains_find p s : contains p s = true ↔ is_Some (find p s).
Proof.
  unfold contains. destruct (find p s); split; intros H; done || by destruct H.
Qed.

End PyStrFacts.

(** ** The normalizer *)

Module PreprocessorFacts.
Import PyStr PyStrFacts SimpleTextPreprocessor.

Example preprocess_text_orders :
  preprocess_text "Where ARE my   orders?!" = "where be my order".
Proof. reflexivity. Qed.

(** A text without any letter, digit or underscore is normalized to the
    empty string: blanks and the punctuation that [\w] does not cover. *)
Lemma preprocess_text_no_word_chars text :
  forallb (λ c, negb (isword c)) text = true → preprocess_text text = "".
Proof.
  intros H. unfold preprocess_text. case_decide; [done|].
  rewrite split_blank; [done|].
  apply sub_nonword_nonspace_blank, lower_no_word, H.
Qed.

(** The same for the first step of the NLTK pipeline: nothing but blanks
    is left for the tokenizer. *)
Lemma clean_text_blank_text text :
  forallb isspace text = true → TextPreprocessor._clean_text text = "".
Proof.
  unfold TextPreprocessor._clean_text, strip.
  induction text as [|c s IH]; simpl; [done|].
  intros [Hc Hs]%andb_prop.
  pose proof (lower_char_isspace c) as Hl. rewrite Hc in Hl.
  apply Bool.eqb_prop in Hl. rewrite Hl. auto.
Qed.

(** C9, where the code departs from it: the underscore is punctuation, the
    class [\w] counts it as a word character, so [re.sub] keeps it and the
    normalizer of [app.py] returns "_" instead of the empty string; the
    first step of [TextPreprocessor.process] keeps it the same way. *)
Theorem preprocess_text_keeps_underscore :
  forallb (λ c, ispunct c || isspace c) "_" = true ∧
  preprocess_text "_" = "_" ∧
  preprocess_text " _ ! " = "_" ∧
  TextPreprocessor._clean_text "_" = "_".
Proof. repeat split; reflexivity. Qed.

(** Without the underscore the statement of C9 holds: a text of blanks and
    of punctuation other than "_" is normalized to the empty string. *)
Lemma preprocess_text_punctuation text :
  forallb (λ c, (ispunct c && negb (code c =? 95)%N) || isspace c) text = true →
  preprocess_text text = "".
Proof.
  intros H. apply preprocess_text_no_word_chars.
  induction text as [|c s IH]; simpl in *; [done|].
  apply andb_prop in H as [Hc Hs]. rewrite IH by done.
  rewrite andb_true_r.
  apply orb_prop in Hc as [Hc|Hc].
  - pose proof (ispunct_not_isword c) as Hp. rewrite Hc in Hp. simpl in Hp.
    by apply andb_prop in Hp as [-> _].
  - pose proof (isspace_not_isword c) as Hp. by rewrite Hc in Hp.
Qed.

End PreprocessorFacts.

(** ** Seconds as floats *)

Module TimedeltaFacts.
Import Timedelta ContextManager.

Section Facts.
Context `{B : Binary64}.

Lemma round_integer (n : Z) :
  (Z.abs n < 2 ^ 53)%Z → (round (inject_Z n) == inject_Z n)%Q.
Proof.
  intros Hn. apply round_representable. exists n, 0%Z. split; [done|]. split; [lia|].
  change (2 ^ 0)%Q with 1%Q. ring.
Qed.

(** A whole number of 2^-19-ths of a second is a float as long as it
    has 53 bits: below 2^34 seconds the floats stand no more than 2^-19
    seconds apart, which is less than two microseconds. *)
Lemma representable_fine (m : Z) : (Z.abs m < 2 ^ 53)%Z → representable (m # 524288).
Proof.
  intros Hm. exists m, (-19)%Z. split; [done|]. split; [lia|].
  unfold Qeq. simpl. lia.
Qed.

(** What lies a microsecond or more above such a float is rounded to a
    float above it, and what lies a microsecond or more below it to a
    float below it. *)
Lemma round_above (x : Q) (k : Z) :
  (Z.abs (k + 1) < 2 ^ 53)%Z →
  ((k # 524288) + (1 # 1000000) <= x)%Q → ((k # 524288) < round x)%Q.
Proof.
  intros Hk Hx.
  destruct (Qlt_le_dec x ((k + 1) # 524288)) as [Hlt|Hge].
  - pose proof (round_nearest x _ (representable_fine (k + 1) Hk)) as Hn.
    assert (Hf : ((k + 1) # 524288 == (k # 524288) + (1 # 524288))%Q).
    { unfold Qeq. simpl. lia. }
    assert (Ha : (Qabs (((k + 1) # 524288) - x) == ((k + 1) # 524288) - x)%Q)
      by (apply Qabs_pos; lra).
    rewrite Ha in Hn. apply Qabs_Qle_condition in Hn as [Hn _]. lra.
  - apply Qlt_le_trans with ((k + 1) # 524288)%Q; [unfold Qlt; simpl; lia|].
    rewrite <- (round_representable _ (representable_fine (k + 1) Hk)).
    by apply round_monotone.
Qed.

Lemma round_below (x : Q) (k : Z) :
  (Z.abs (k - 1) < 2 ^ 53)%Z →
  (x <= (k # 524288) - (1 # 1000000))%Q → (round x < (k # 524288))%Q.
Proof.
  intros Hk Hx.
  destruct (Qlt_le_dec ((k - 1) # 524288) x) as [Hlt|Hge].
  - pose proof (round_nearest x _ (representable_fine (k - 1) Hk)) as Hn.
    assert (Hf : ((k - 1) # 524288 == (k # 524288) - (1 # 524288))%Q).
    { unfold Qeq. simpl. lia. }
    assert (Ha : (Qabs (((k - 1) # 524288) - x) == - (((k - 1) # 524288) - x))%Q)
      by (apply Qabs_neg; lra).
    rewrite Ha in Hn. apply Qabs_Qle_condition in Hn as [_ Hn]. lra.
  - apply Qle_lt_trans with ((k - 1) # 524288)%Q; [|unfold Qlt; simpl; lia].
    rewrite <- (round_representable _ (representable_fine (k - 1) Hk)).
    by apply round_monotone.
Qed.

(** For a timeout below 2^34 seconds the float test of the sweep decides
    as the comparison of the microseconds does. *)
Lemma session_age_exceeds_exact (session_timeout age : Z) :
  (Z.abs session_timeout < 2 ^ 34)%Z →
  session_age_exceeds session_timeout age ↔ (session_timeout * 1000000 < age)%Z.
Proof.
  intros HT. unfold session_age_exceeds, total_seconds. split.
  - intros Hlt. destruct (Z_lt_le_dec (session_timeout * 1000000) age) as [|Hle]; [done|].
    exfalso. apply (Qlt_not_le _ _ Hlt).
    rewrite <- (round_integer session_timeout) by lia.
    apply round_monotone. unfold Qle. simpl. lia.
  - intros Hlt.
    apply Qle_lt_trans with ((session_timeout * 524288) # 524288)%Q;
      [unfold Qle; simpl; lia|].
    apply round_above; [lia|]. unfold Qle. simpl. lia.
Qed.

Lemma int_between (x : Q) (n : Z) :
  (0 <= n)%Z → (inject_Z n <= x)%Q → (x < inject_Z (n + 1))%Q → int x = n.
Proof.
  destruct x as [a b]. unfold int, Qle, Qlt. simpl. intros Hn Hlo Hhi.
  rewrite Z.quot_div_nonneg by lia. symmetry. apply (Z.div_unique _ _ _ (a - n * Z.pos b)); lia.
Qed.

Lemma int_between_neg (x : Q) (n : Z) :
  (n <= 0)%Z → (inject_Z (n - 1) < x)%Q → (x <= inject_Z n)%Q → int x = n.
Proof.
  destruct x as [a b]. unfold int, Qle, Qlt. simpl. intros Hn Hlo Hhi.
  rewrite <- (Z.opp_involutive a), Z.quot_opp_l by lia.
  rewrite Z.quot_div_nonneg by lia.
  rewrite <- (Z.div_unique (- a) (Z.pos b) (- n) (- a + n * Z.pos b)); lia.
Qed.

(** For a duration below 2^34 seconds [int] of the float is the quotient
    of the microseconds, towards zero. *)
Lemma session_duration_exact (age : Z) :
  (Z.abs age < 2 ^ 34 * 1000000)%Z → session_duration age = (age ÷ 1000000)%Z.
Proof.
  intros Hage. unfold session_duration, total_seconds.
  set (n := (age ÷ 1000000)%Z).
  pose proof (Z.quot_rem' age 1000000) as Hqr. fold n in Hqr.
  destruct (Z_le_gt_dec 0 age) as [Hpos|Hneg].
  - assert (Hr : (0 <= Z.rem age 1000000 < 1000000)%Z)
      by (apply Z.rem_bound_pos; lia).
    assert (Hn : (0 <= n < 2 ^ 34)%Z) by lia.
    apply int_between; [lia| |].
    + rewrite <- (round_integer n) by lia. apply round_monotone. unfold Qle. simpl. lia.
    + apply Qlt_le_trans with (((n + 1) * 524288) # 524288)%Q;
        [|unfold Qle; simpl; lia].
      apply round_below; [lia|]. unfold Qle. simpl. lia.
  - assert (Hr : (- 1000000 < Z.rem age 1000000 <= 0)%Z)
      by (pose proof (Z.rem_bound_pos_neg age 1000000); lia).
    assert (Hn : (- 2 ^ 34 < n <= 0)%Z) by lia.
    apply int_between_neg; [lia| |].
    + apply Qle_lt_trans with (((n - 1) * 524288) # 524288)%Q;
        [unfold Qle; simpl; lia|].
      apply round_above; [lia|]. unfold Qle. simpl. lia.
    + rewrite <- (round_integer n) by lia. apply round_monotone. unfold Qle. simpl. lia.
Qed.

(** The test of the sweep and the duration of a session, as the code
    computes them on floats, are those of the context store above, for a
    timeout and a duration below 2^34 seconds. *)
Lemma expired_as_computed (self : t) (now : Z) (c : UserContext) :
  (0 <= session_timeout self < 2 ^ 34)%Z →
  expired self now c ↔ session_age_exceeds (session_timeout self) (now - last_activity c).
Proof. intros HT. unfold expired. rewrite session_age_exceeds_exact by lia. done. Qed.

Lemma get_session_duration_as_computed (c : UserContext) (now : Z) :
  (Z.abs (now - session_start c) < 2 ^ 34 * 1000000)%Z →
  _get_session_duration c now = session_duration (now - session_start c).
Proof. intros Hd. unfold _get_session_duration. by rewrite session_duration_exact. Qed.

End Facts.

End TimedeltaFacts.

(** ** The context store *)

Module ContextFacts.
Import ContextManager.

(** *** Bounded histories *)

Lemma deque_append_maxlen {A} (d : deque A) x : maxlen (deque_append d x) = maxlen d.
Proof. reflexivity. Qed.

(** After [append] a deque holds the last [maxlen] elements of what it
    held followed by the new one. *)
Lemma deque_append_items {A} (d : deque A) x :
  length (items d) ≤ maxlen d →
  items (deque_append d x) = drop (S (length (items d)) - maxlen d) (items d ++ [x]).
Proof.
  intros Hle. unfold deque_append. simpl. rewrite length_app. simpl.
  case_decide as Hlt.
  - replace (S (length (items d)) - maxlen d) with 1 by lia. done.
  - replace (S (length (items d)) - maxlen d) with 0 by lia. done.
Qed.

Lemma deque_append_length {A} (d : deque A) x :
  length (items d) ≤ maxlen d → length (items (deque_append d x)) ≤ maxlen d.
Proof.
  intros Hle. rewrite deque_append_items by done.
  rewrite length_drop, length_app. simpl. lia.
Qed.

Lemma deque_of_list_length {A} (l : list A) n : length (items (deque_of_list l n)) ≤ n.
Proof. simpl. rewrite length_drop. lia. Qed.

(** Appending to a full deque evicts its oldest element and nothing else. *)
Lemma deque_append_full {A} (d : deque A) x :
  length (items d) = maxlen d → 0 < maxlen d →
  items (deque_append d x) = drop 1 (items d) ++ [x].
Proof.
  intros Hfull Hpos. unfold deque_append. simpl. rewrite length_app. simpl.
  case_decide; [|lia].
  destruct (items d); simpl in *; [lia|done].
Qed.

Lemma deque_append_room {A} (d : deque A) x :
  length (items d) < maxlen d → items (deque_append d x) = items d ++ [x].
Proof.
  intros Hlt. unfold deque_append. simpl. rewrite length_app. simpl.
  case_decide; [lia|done].
Qed.

Lemma extract_user_name_loop_history ps c i l :
  conversation_history (_extract_user_name_loop ps c i l) = conversation_history c.
Proof.
  induction ps as [|p ps IH]; simpl; [done|].
  destruct (PyStr.find p l); [|done].
  destruct (head _); [|done]. by case_decide.
Qed.

Lemma extract_user_name_history c i :
  conversation_history (_extract_user_name c i) = conversation_history c.
Proof. apply extract_user_name_loop_history. Qed.

Lemma update_context_variables_history c i t :
  conversation_history (_update_context_variables c i t) = conversation_history c.
Proof. reflexivity. Qed.

Lemma cleanup_bounded self now : bounded self → bounded (_cleanup_expired_sessions self now).
Proof.
  unfold bounded. simpl. intros H u c [Hc _]%map_lookup_filter_Some. by apply H in Hc.
Qed.

Lemma create_new_context_bounded self u now :
  bounded_history (max_context_length self) (_create_new_context self u now).
Proof. split; simpl; [done|lia]. Qed.

(** The context [get_context] hands out is the one it leaves in the table. *)
Lemma get_context_lookup self u now :
  user_contexts (get_context self u now).2 !! u = Some (get_context self u now).1.
Proof. unfold get_context. simpl. by rewrite lookup_insert_eq. Qed.

Lemma get_context_max self u now :
  max_context_length (get_context self u now).2 = max_context_length self.
Proof. reflexivity. Qed.

Lemma get_context_bounded self u now : bounded self → bounded (get_context self u now).2.
Proof.
  intros H. apply (cleanup_bounded _ now) in H.
  unfold bounded, get_context in *. simpl in *.
  apply map_Forall_insert_2; [|done].
  destruct (filter _ _ !! u) as [c|] eqn:Hc.
  - apply H in Hc. done.
  - split; simpl; [done|lia].
Qed.

Lemma get_context_result_bounded self u now :
  bounded self → bounded_history (max_context_length self) (get_context self u now).1.
Proof.
  intros H. apply (get_context_bounded _ u now) in H.
  exact (H u _ (get_context_lookup self u now)).
Qed.

(** Inserting a context into the table that [get_context] left. *)
Lemma insert_bounded self u now c :
  bounded self → bounded_history (max_context_length self) c →
  bounded (set_user_contexts (<[u := c]> (user_contexts (get_context self u now).2))
                             (get_context self u now).2).
Proof.
  intros H Hc. apply (get_context_bounded _ u now) in H.
  unfold bounded in *. simpl in *. by apply map_Forall_insert_2.
Qed.

(** The history [update_context] stores: that of the context handed out by
    [get_context], with the new turn appended. *)
Lemma update_context_lookup self u i b n a now :
  ∃ c, user_contexts (update_context self u i b n a now) !! u = Some c ∧
       conversation_history c =
         deque_append (conversation_history (get_context self u now).1)
                      (new_turn now i b n a).
Proof.
  unfold update_context. destruct (get_context self u now) as [c self'] eqn:Hg.
  simpl. eexists. rewrite lookup_insert_eq. split; [done|].
  rewrite update_context_variables_history, extract_user_name_history. done.
Qed.

Lemma update_context_bounded self u i b n a now :
  bounded self → bounded (update_context self u i b n a now).
Proof.
  intros H. pose proof (get_context_result_bounded self u now H) as [Hm Hl].
  pose proof (insert_bounded self u now) as Hins.
  unfold update_context. destruct (get_context self u now) as [c self'] eqn:Hg.
  simpl in *. apply Hins; [done|].
  split; rewrite update_context_variables_history, extract_user_name_history; simpl.
  - done.
  - rewrite <- Hm. apply (deque_append_length (conversation_history c)). lia.
Qed.

Lemma step_max self c : max_context_length (step self c) = max_context_length self.
Proof.
  destruct c as [u now|u i b n a now|u a now|u k v now|u|now|u d]; unfold step.
  - done.
  - pose proof (get_context_max self u now).
    unfold update_context. by destruct (get_context self u now).
  - pose proof (get_context_max self u now).
    unfold switch_application. by destruct (get_context self u now).
  - pose proof (get_context_max self u now).
    unfold set_user_preference. by destruct (get_context self u now).
  - unfold clear_context. by destruct (user_contexts self !! u).
  - done.
  - done.
Qed.

Lemma step_bounded self c : bounded self → bounded (step self c).
Proof.
  intros H.
  destruct c as [u now|u i b n a now|u a now|u k v now|u|now|u d]; unfold step.
  - by apply get_context_bounded.
  - by apply update_context_bounded.
  - pose proof (get_context_result_bounded self u now H) as Hb.
    pose proof (insert_bounded self u now) as Hins.
    unfold switch_application. destruct (get_context self u now) as [c s'].
    by apply Hins.
  - pose proof (get_context_result_bounded self u now H) as Hb.
    pose proof (insert_bounded self u now) as Hins.
    unfold set_user_preference. destruct (get_context self u now) as [c s'].
    by apply Hins.
  - unfold clear_context. destruct (user_contexts self !! u); [|done].
    unfold bounded in *. simpl. by apply map_Forall_delete.
  - by apply cleanup_bounded.
  - unfold bounded in *. simpl. apply map_Forall_insert_2; [|done].
    split; [done|]. apply deque_of_list_length.
Qed.

Lemma run_max self calls : max_context_length (run self calls) = max_context_length self.
Proof.
  unfold run. revert self.
  induction calls as [|c calls IH]; intros self; simpl; [done|].
  by rewrite IH, step_max.
Qed.

Lemma run_bounded self calls : bounded self → bounded (run self calls).
Proof.
  unfold run. revert self.
  induction calls as [|c calls IH]; intros self H; simpl; [done|].
  by apply IH, step_bounded.
Qed.

Lemma init_bounded n timeout : bounded (init n timeout).
Proof. unfold bounded. simpl. apply map_Forall_empty. Qed.

(** C3. In every state the manager reaches from its creation, whatever
    the calls made, no history holds more turns than the configured
    length; and [update_context] leaves, for its user, the most recent
    turns of the history it found followed by the new turn: when that
    history was full, exactly its oldest turn is gone. *)
Theorem history_bounded_fifo (n : nat) (timeout : Z) (calls : list call)
    (u i b t a : string) (now : Z) :
  let self := run (init n timeout) calls in
  let before := items (conversation_history (get_context self u now).1) in
  let turn := new_turn now i b t a in
  (∀ v c, user_contexts self !! v = Some c →
          length (items (conversation_history c)) ≤ n) ∧
  ∃ c', user_contexts (update_context self u i b t a now) !! u = Some c' ∧
        length (items (conversation_history c')) ≤ n ∧
        items (conversation_history c') = drop (S (length before) - n) (before ++ [turn]) ∧
        (length before = n → 0 < n →
         items (conversation_history c') = drop 1 before ++ [turn]).
Proof.
  intros self before turn.
  assert (Hb : bounded self) by apply run_bounded, init_bounded.
  assert (Hn : max_context_length self = n) by apply run_max.
  split.
  - intros v c Hc. apply Hb in Hc as [_ Hl]. by rewrite Hn in Hl.
  - destruct (update_context_lookup self u i b t a now) as (c' & Hc' & Hh).
    pose proof (get_context_result_bounded self u now Hb) as [Hm Hl].
    rewrite Hn in Hm, Hl.
    exists c'. split; [done|]. rewrite Hh. repeat split.
    + pose proof (deque_append_length
                    (conversation_history (get_context self u now).1) turn) as H.
      rewrite Hm in H. by apply H.
    + rewrite deque_append_items by (by rewrite Hm). by rewrite Hm.
    + intros Hfull Hpos. apply deque_append_full; by rewrite Hm.
Qed.

Lemma history_bounded_fifo_witness :
  ∃ c', user_contexts
          (update_context
             (run (init 2 3600)
                  [ UpdateContext "sam" "hello" "Hello!" "greeting" "customer_support" 0;
                    UpdateContext "sam" "order status" "Which order?" "order_status"
                                  "customer_support" 1000000 ])
             "sam" "thanks" "Welcome" "thanks" "customer_support" 2000000) !! "sam"
        = Some c' ∧
        map user_input (items (conversation_history c')) = ["order status"; "thanks"].
Proof.
  destruct (history_bounded_fifo 2 3600
              [ UpdateContext "sam" "hello" "Hello!" "greeting" "customer_support" 0;
                UpdateContext "sam" "order status" "Which order?" "order_status"
                              "customer_support" 1000000 ]
              "sam" "thanks" "Welcome" "thanks" "customer_support" 2000000)
    as (_ & c' & Hc' & _ & _ & Hfull).
  exists c'. split; [exact Hc'|].
  rewrite Hfull; [reflexivity | reflexivity | lia].
Defined.

(** *** Expiry *)

Lemma cleanup_lookup_expired self u c now :
  user_contexts self !! u = Some c → expired self now c →
  user_contexts (_cleanup_expired_sessions self now) !! u = None.
Proof.
  intros Hc Hexp. simpl. apply map_lookup_filter_None. right.
  intros c' Hc'. simpl. rewrite Hc in Hc'. injection Hc' as <-. tauto.
Qed.

(** A session that is not expired survives the sweep unchanged. *)
Lemma cleanup_lookup_live self u c now :
  user_contexts self !! u = Some c → ¬ expired self now c →
  user_contexts (_cleanup_expired_sessions self now) !! u = Some c.
Proof. intros Hc Hexp. simpl. by apply map_lookup_filter_Some. Qed.

(** C6. With a session timeout below 2^34 seconds, for which the sweep's
    comparison of seconds is that of the microseconds, a context whose
    last activity lies more than the session timeout before the access is
    swept by it: [get_context] hands out, and stores, a context created
    afresh, and [get_all_active_sessions] lists no session of that user
    and leaves none in the table. *)
Theorem expired_context_swept (self : t) (u : string) (c : UserContext) (now : Z) :
  (0 <= session_timeout self < 2 ^ 34)%Z →
  user_contexts self !! u = Some c →
  (session_timeout self * 1000000 < now - last_activity c)%Z →
  (get_context self u now).1 = _create_new_context self u now ∧
  user_contexts (get_context self u now).2 !! u = Some (_create_new_context self u now) ∧
  (∀ s, s ∈ (get_all_active_sessions self now).1 → s_user_id s ≠ u) ∧
  user_contexts (get_all_active_sessions self now).2 !! u = None.
Proof.
  intros _ Hc Hexp.
  pose proof (cleanup_lookup_expired self u c now Hc Hexp) as Hnone.
  repeat split.
  - unfold get_context. simpl in *. by rewrite Hnone.
  - rewrite get_context_lookup. unfold get_context. simpl in *. by rewrite Hnone.
  - intros s Hs Heq. unfold get_all_active_sessions in Hs. simpl fst in Hs.
    apply list_elem_of_In, in_map_iff in Hs as ([v c'] & <- & Hin).
    apply list_elem_of_In, elem_of_map_to_list in Hin. simpl in Heq. subst v.
    simpl in Hnone, Hin. congruence.
  - exact Hnone.
Qed.

Lemma expired_context_swept_witness :
  (get_context
     (update_context (init 10 3600) "sam" "my name is Sam" "Hi" "greeting"
                     "customer_support" 0)
     "sam" 3600000001).1
  = _create_new_context (init 10 3600) "sam" 3600000001.
Proof.
  refine (proj1 (expired_context_swept
                   (update_context (init 10 3600) "sam" "my name is Sam" "Hi" "greeting"
                                   "customer_support" 0)
                   "sam"
                   (default (_create_new_context (init 10 3600) "sam" 0)
                      (user_contexts
                         (update_context (init 10 3600) "sam" "my name is Sam" "Hi"
                                         "greeting" "customer_support" 0) !! "sam"))
                   3600000001 _ _ _)).
  - vm_compute. split; [discriminate|reflexivity].
  - reflexivity.
  - vm_compute. reflexivity.
Defined.

(** Idle for exactly the timeout, a session is kept: the same access a
    microsecond earlier hands out the stored context, touched. *)
Example session_kept_at_timeout :
  user_name
    (get_context
       (update_context (init 10 3600) "sam" "my name is Sam" "Hi" "greeting"
                       "customer_support" 0)
       "sam" 3600000000).1
  = Some "Sam".
Proof. reflexivity. Qed.

(** *** Sentiment *)

Lemma update_context_variables_sentiment c input intent :
  last_sentiment (_update_context_variables c input intent) =
    if any_in negative_words (PyStr.lower input) then Some (VStr "negative")
    else if any_in positive_words (PyStr.lower input) then Some (VStr "positive")
    else last_sentiment c.
Proof.
  unfold _update_context_variables, last_sentiment, set_context_variables.
  cbn [context_variables]. set (l := PyStr.lower input).
  destruct (any_in negative_words l); [by rewrite lookup_insert_eq|].
  destruct (any_in positive_words l); [by rewrite lookup_insert_eq|].
  destruct (PyStr.contains "order" l), (any_in issue_words l);
    by repeat (rewrite lookup_insert_ne by done).
Qed.

(** C4 as stated fails: an input with a positive word and a negative word
    is stored as negative, the negative list being scanned last. *)
Lemma sentiment_positive_overwritten :
  any_in positive_words (PyStr.lower "Good food but bad service") = true ∧
  last_sentiment
    (_update_context_variables (_create_new_context (init 10 3600) "sam" 0)
                               "Good food but bad service" "feedback")
  = Some (VStr "negative").
Proof. split; reflexivity. Qed.

(** C4, amended. For an input with a word of the positive list, the stored
    sentiment is "positive" when no word of the negative list occurs in it,
    and "negative" when one does. *)
Theorem sentiment_after_positive_hit (c : UserContext) (input intent : string) :
  any_in positive_words (PyStr.lower input) = true →
  last_sentiment (_update_context_variables c input intent) =
    Some (VStr (if any_in negative_words (PyStr.lower input)
                then "negative" else "positive")).
Proof.
  intros Hpos. rewrite update_context_variables_sentiment, Hpos.
  by destruct (any_in negative_words _).
Qed.

Lemma sentiment_after_positive_hit_witness :
  last_sentiment
    (_update_context_variables (_create_new_context (init 10 3600) "sam" 0)
                               "Thanks, that was great" "thanks")
  = Some (VStr "positive").
Proof.
  exact (sentiment_after_positive_hit (_create_new_context (init 10 3600) "sam" 0)
           "Thanks, that was great" "thanks" eq_refl).
Defined.

(** *** Name extraction *)

(** An input without any of the introduction phrases leaves the context,
    and so a name stored earlier, as it was. *)
Lemma extract_user_name_no_pattern c input :
  any_in name_patterns (PyStr.lower input) = false → _extract_user_name c input = c.
Proof.
  unfold _extract_user_name, any_in. generalize (PyStr.lower input) as l.
  induction name_patterns as [|p ps IH]; intros l; simpl; [done|].
  intros [Hp Hps]%orb_false_elim. unfold PyStr.contains in Hp.
  destruct (PyStr.find p l); [done|]. by apply IH.
Qed.

(** The name stored is never shorter than two characters. *)
Lemma extract_user_name_length c input name :
  user_name c = None → user_name (_extract_user_name c input) = Some name →
  1 < String.length name.
Proof.
  unfold _extract_user_name. generalize (PyStr.lower input) as l.
  induction name_patterns as [|p ps IH]; intros l Hc; simpl.
  - by rewrite Hc.
  - destruct (PyStr.find p l); [|by apply IH].
    destruct (head _) as [w|]; [|by rewrite Hc].
    case_decide; simpl; [congruence|by rewrite Hc].
Qed.

Example extract_user_name_plain c :
  user_name (_extract_user_name c "Hi, my name is Sam and I need help") = Some "Sam".
Proof. reflexivity. Qed.

(** C5, where the code departs from it: the token after the phrase is
    stored as it stands, its punctuation included, although the comment at
    that line announces the removal of punctuation. *)
Theorem extract_user_name_keeps_punctuation (c : UserContext) :
  user_name (_extract_user_name c "my name is Sam.") = Some "Sam." ∧
  user_name (_extract_user_name c "Call me Ann, please") = Some "Ann,".
Proof. split; reflexivity. Qed.

End ContextFacts.

(** ** The intent classifier *)

Module ClassifierFacts.
Import Sklearn IntentClassifier.

(** *** Context scoring *)

Lemma py_min_le_r a b : (py_min a b <= b)%Q.
Proof.
  unfold py_min. destruct (Qle_bool a b) eqn:H.
  - by apply Qle_bool_iff.
  - apply Qle_refl.
Qed.

Lemma py_min_ge c a b : (c <= a)%Q → (c <= b)%Q → (c <= py_min a b)%Q.
Proof. intros. unfold py_min. by destruct (Qle_bool a b). Qed.

Lemma apply_context_scoring_unfold c ti app ctx :
  _apply_context_scoring c ti app ctx =
    let boosted := if decide (application ti = app) then py_min (c * (11 # 10)) 1 else c in
    if decide (tag ti ∈ recent_intents ctx) then (boosted * (21 # 20))%Q else boosted.
Proof.
  unfold _apply_context_scoring, recent_intents. by destruct ctx as [ctx|].
Qed.

(** Neither boost applying, the score is returned as it came. *)
Lemma apply_context_scoring_no_boost c ti app ctx :
  application ti ≠ app → tag ti ∉ recent_intents ctx →
  _apply_context_scoring c ti app ctx = c.
Proof.
  intros Happ Htag. rewrite apply_context_scoring_unfold. cbv zeta.
  by rewrite !decide_False.
Qed.

(** A score of [0,1] is never lowered. *)
Lemma apply_context_scoring_ge c ti app ctx :
  (0 <= c)%Q → (c <= 1)%Q → (c <= _apply_context_scoring c ti app ctx)%Q.
Proof.
  intros H0 H1. rewrite apply_context_scoring_unfold. cbv zeta.
  remember (if decide (application ti = app)
            then py_min (c * (11 # 10)) 1 else c) as boosted eqn:Hboosted.
  assert (Hb : (c <= boosted)%Q).
  { subst boosted. case_decide; [|apply Qle_refl]. apply py_min_ge; lra. }
  destruct (decide (tag ti ∈ recent_intents ctx)); [lra|done].
Qed.

(** The in-application boost alone keeps a score of [0,1] below 1. *)
Lemma apply_context_scoring_capped c ti app ctx :
  (c <= 1)%Q → tag ti ∉ recent_intents ctx →
  (_apply_context_scoring c ti app ctx <= 1)%Q.
Proof.
  intros H1 Htag. rewrite apply_context_scoring_unfold. cbv zeta.
  rewrite (decide_False (P := tag ti ∈ recent_intents ctx)) by done.
  case_decide; [apply py_min_le_r|done].
Qed.

(** With the recent-intent boost the bound is 1.05. *)
Lemma apply_context_scoring_le c ti app ctx :
  (c <= 1)%Q → (_apply_context_scoring c ti app ctx <= 21 # 20)%Q.
Proof.
  intros H1. rewrite apply_context_scoring_unfold. cbv zeta.
  remember (if decide (application ti = app)
            then py_min (c * (11 # 10)) 1 else c) as boosted eqn:Hboosted.
  assert (Hb : (boosted <= 1)%Q).
  { subst boosted. case_decide; [apply py_min_le_r|done]. }
  destruct (decide (tag ti ∈ recent_intents ctx)); lra.
Qed.

(** C1, where the code departs from it: the score is capped at 1.0 after
    the in-application boost only. A raw similarity of 1.0 for a tag that
    was the intent of a recent turn comes back as 1.05, above 1.0. *)
Theorem apply_context_scoring_exceeds_one :
  (_apply_context_scoring 1
     {| application := "customer_support"; tag := "greeting" |}
     "customer_support"
     (Some (ContextManager.get_context
              (ContextManager.update_context (ContextManager.init 10 3600)
                 "sam" "hello" "Hello!" "greeting" "customer_support" 0)
              "sam" 1000000).1)
   == 21 # 20)%Q ∧
  (1 < _apply_context_scoring 1
         {| application := "college_helpdesk"; tag := "greeting" |}
         "customer_support"
         (Some (ContextManager.get_context
                  (ContextManager.update_context (ContextManager.init 10 3600)
                     "sam" "hello" "Hello!" "greeting" "customer_support" 0)
                  "sam" 1000000).1))%Q.
Proof. split; vm_compute; reflexivity. Qed.

(** *** Training *)

Section Training.
Context `{V : Vectorizer}.

Lemma fold_collect_step apps ps ts :
  fold_left collect_step apps (ps, ts) =
    (ps ++ flat_map (λ entry, Corpus.patterns entry.2)
                    (filter (λ entry, well_formed entry.2) apps),
     ts ++ flat_map (λ entry, map (λ tag, {| application := entry.1; tag := tag |})
                                  (Corpus.tags entry.2))
                    (filter (λ entry, well_formed entry.2) apps)).
Proof.
  revert ps ts. induction apps as [|[name d] apps IH]; intros ps ts; simpl.
  - by rewrite !app_nil_r.
  - case_decide as Hlen.
    + rewrite IH, filter_cons_False by done. done.
    + rewrite IH, filter_cons_True by (simpl; unfold well_formed; lia).
      simpl. by rewrite !app_assoc.
Qed.

(** The loop collects the patterns and tags of the applications whose
    counts agree, and of no other. *)
Lemma collect_kept td : collect td = (kept_patterns td, kept_tags td).
Proof. unfold collect. by rewrite fold_collect_step. Qed.

Lemma elem_of_kept_patterns td p :
  p ∈ kept_patterns td ↔
  ∃ name d, (name, d) ∈ default [] (Corpus.applications td) ∧
            well_formed d ∧ p ∈ Corpus.patterns d.
Proof.
  unfold kept_patterns, kept. rewrite list_elem_of_In, in_flat_map. split.
  - intros ([name d] & Hin & Hp). exists name, d.
    apply list_elem_of_In, list_elem_of_filter in Hin as [Hwf Hin].
    split; [done|]. split; [done|]. by apply list_elem_of_In.
  - intros (name & d & Hin & Hwf & Hp). exists (name, d). split.
    + by apply list_elem_of_In, list_elem_of_filter.
    + by apply list_elem_of_In.
Qed.

Lemma kept_tags_corpus td ti : ti ∈ kept_tags td → tag ti ∈ corpus_tags td.
Proof.
  unfold kept_tags, kept, corpus_tags. rewrite !list_elem_of_In, !in_flat_map.
  intros ([name d] & Hin & Hti). exists (name, d).
  apply list_elem_of_In, list_elem_of_filter in Hin as [_ Hin].
  split; [by apply list_elem_of_In|].
  apply in_map_iff in Hti as (tg & <- & Htg). done.
Qed.

(** The three ways [train] ends. *)
Lemma train_cases self td :
  (kept_patterns td = [] ∧ train self td = (false, self)) ∨
  (kept_patterns td ≠ [] ∧ fit_transform (kept_patterns td) = None ∧
   (train self td).1 = false ∧ trained (train self td).2 = false) ∨
  (kept_patterns td ≠ [] ∧ is_Some (fit_transform (kept_patterns td)) ∧
   (train self td).1 = true ∧ trained (train self td).2 = true ∧
   patterns (train self td).2 = kept_patterns td ∧
   tags (train self td).2 = kept_tags td).
Proof.
  unfold train. rewrite collect_kept.
  destruct (kept_patterns td) as [|p ps] eqn:Hps; [by left|right].
  destruct (fit_transform (p :: ps)) as [[fitted rows]|] eqn:Hfit.
  - right. by repeat split.
  - left. by repeat split.
Qed.

(** A corpus whose kept patterns have no token cannot be trained on,
    whatever the vectorizer. *)
Lemma train_fails_on_empty_vocabulary self td :
  Forall (λ doc, tokenize doc = []) (kept_patterns td) → (train self td).1 = false.
Proof.
  intros H%fit_transform_empty_vocabulary.
  destruct (train_cases self td) as [[_ ->]|[(_ & _ & -> & _)|(_ & [x Hx] & _)]];
    [done|done|congruence].
Qed.

End Training.

(** C7 as stated fails: the only application of this corpus is well
    formed and its pattern is kept, yet [train] cannot return [True] on
    it, whatever the classifier and the vectorizer; fitting raises on a
    pattern without a token of two word characters, and [train] answers
    that with [False] like any other exception. *)
Lemma train_fails_with_patterns_left :
  kept_patterns
    {| Corpus.applications :=
         Some [ ("faq", {| Corpus.patterns := ["?"];
                            Corpus.responses := ["Ask me anything."];
                            Corpus.tags := ["help"] |}) ] |} = ["?"] ∧
  ¬ ∃ (V : Vectorizer) (self : t),
      (train self
         {| Corpus.applications :=
              Some [ ("faq", {| Corpus.patterns := ["?"];
                                 Corpus.responses := ["Ask me anything."];
                                 Corpus.tags := ["help"] |}) ] |}).1 = true.
Proof.
  split; [reflexivity|]. intros (V & self & Htrue).
  rewrite train_fails_on_empty_vocabulary in Htrue; [done|].
  by repeat constructor.
Qed.

(** With the stand-in vectorizer the run can be followed step by step. *)
Example train_question_mark :
  train (V := token_overlap) (init (3 # 10))
    {| Corpus.applications :=
         Some [ ("faq", {| Corpus.patterns := ["?"];
                            Corpus.responses := ["Ask me anything."];
                            Corpus.tags := ["help"] |}) ] |}
  = (false,
     {| min_confidence := 3 # 10; trained := false; patterns := ["?"];
        tags := [ {| application := "faq"; tag := "help" |} ];
        vectorizer := None; X := None |}).
Proof. reflexivity. Qed.

(** C7, amended. [train] collects the patterns and tags of exactly the
    applications whose pattern and tag counts agree, in corpus order. It
    returns [False] exactly when no pattern is left or fitting the
    vectorizer on the patterns left raises; when it returns [True] the
    classifier holds those patterns and tags and is trained. *)
Theorem train_skips_mismatched_applications `{V : Vectorizer}
    (self : t) (td : Corpus.TrainingData) :
  collect td = (kept_patterns td, kept_tags td) ∧
  ((train self td).1 = false ↔
     kept_patterns td = [] ∨ fit_transform (kept_patterns td) = None) ∧
  ((train self td).1 = true →
     trained (train self td).2 = true ∧
     patterns (train self td).2 = kept_patterns td ∧
     tags (train self td).2 = kept_tags td).
Proof.
  split; [apply collect_kept|].
  destruct (train_cases self td)
    as [[Hps Ht]|[(Hps & Hfit & Ht & _)|(Hps & [x Hfit] & Ht & Htr & Hp & Htg)]].
  - rewrite Ht. simpl. split; [tauto|done].
  - rewrite Ht. split; [tauto|done].
  - rewrite Ht. split; [|done]. split; [done|].
    intros [?|?]; congruence.
Qed.

Lemma train_skips_mismatched_applications_witness :
  patterns
    (train (V := token_overlap) (init (3 # 10))
       {| Corpus.applications :=
            Some [ ("customer_support",
                    {| Corpus.patterns := ["order status"; "return policy"];
                       Corpus.responses := ["Which order?"];
                       Corpus.tags := ["order_status"; "return_policy"] |});
                   ("broken",
                    {| Corpus.patterns := ["job openings"; "salary range"];
                       Corpus.responses := [];
                       Corpus.tags := ["openings"] |}) ] |}).2
  = ["order status"; "return policy"].
Proof.
  destruct (train_skips_mismatched_applications (V := token_overlap) (init (3 # 10))
       {| Corpus.applications :=
            Some [ ("customer_support",
                    {| Corpus.patterns := ["order status"; "return policy"];
                       Corpus.responses := ["Which order?"];
                       Corpus.tags := ["order_status"; "return_policy"] |});
                   ("broken",
                    {| Corpus.patterns := ["job openings"; "salary range"];
                       Corpus.responses := [];
                       Corpus.tags := ["openings"] |}) ] |})
    as (_ & _ & Hok).
  destruct (Hok eq_refl) as (_ & Hp & _).
  rewrite Hp. reflexivity.
Defined.

(** *** Prediction *)

(** [np.argmax] answers an index of the list whose entry no other entry
    exceeds. *)
Lemma argmax_go_max l : ∀ best_idx best idx (full : list Q),
  full !! best_idx = Some best →
  (∀ j y, j < idx → full !! j = Some y → (y <= best)%Q) →
  drop idx full = l →
  ∃ x, full !! argmax_go best_idx best idx l = Some x ∧
       ∀ j y, full !! j = Some y → (y <= x)%Q.
Proof.
  induction l as [|x l IH]; intros best_idx best idx full Hbest Hle Hdrop; simpl.
  - exists best. split; [done|]. intros j y Hy. apply (Hle j); [|done].
    apply lookup_lt_Some in Hy.
    destruct (decide (idx < length full)) as [Hlt|Hge]; [|lia].
    apply (f_equal length) in Hdrop. rewrite length_drop in Hdrop. simpl in Hdrop. lia.
  - assert (Hx : full !! idx = Some x).
    { rewrite <- (Nat.add_0_r idx), <- lookup_drop, Hdrop. done. }
    assert (Hnext : drop (S idx) full = l).
    { replace (S idx) with (idx + 1) by lia. by rewrite <- drop_drop, Hdrop. }
    destruct (Qle_bool x best) eqn:Hcmp.
    + apply IH; [done| |done]. intros j y Hj Hy.
      destruct (decide (j = idx)) as [->|]; [|apply (Hle j); [lia|done]].
      rewrite Hx in Hy. injection Hy as <-. by apply Qle_bool_iff.
    + apply IH; [done| |done]. intros j y Hj Hy.
      assert (Hlt : (best < x)%Q).
      { apply Qnot_le_lt. intros H%Qle_bool_iff. congruence. }
      destruct (decide (j = idx)) as [->|].
      * rewrite Hx in Hy. injection Hy as <-. apply Qle_refl.
      * apply Qle_trans with best; [apply (Hle j); [lia|done]|by apply Qlt_le_weak].
Qed.

Lemma argmax_max (l : list Q) i :
  argmax l = Some i → ∃ x, l !! i = Some x ∧ ∀ j y, l !! j = Some y → (y <= x)%Q.
Proof.
  destruct l as [|x l]; simpl; [done|]. intros [= <-].
  apply (argmax_go_max l 0 x 1 (x :: l)); [done| |done].
  intros [|j] y Hj Hy; [|lia]. injection Hy as <-. apply Qle_refl.
Qed.

Section Prediction.
Context `{V : Vectorizer}.

(** The confidence of the best match is the largest similarity of the
    text to a row of the index. *)
Lemma best_match_max self text idx conf fitted rows :
  vectorizer self = Some fitted → X self = Some rows →
  best_match self text = Some (idx, conf) →
  ∀ row, row ∈ rows → (cosine_similarity (transform fitted text) row <= conf)%Q.
Proof.
  intros Hv HX. unfold best_match. rewrite Hv, HX. simpl.
  destruct (argmax _) as [i|] eqn:Hi; simpl; [|done].
  destruct (_ !! i) as [c|] eqn:Hc; simpl; [|done]. intros [= <- <-].
  apply argmax_max in Hi as (x & Hx & Hmax). rewrite Hc in Hx. injection Hx as <-.
  intros row [j Hj]%list_elem_of_lookup. apply (Hmax j).
  by rewrite list_lookup_fmap, Hj.
Qed.

(** C2. On a trained classifier, a text whose best match has a similarity
    below the minimum confidence is answered with the tag "unknown" and
    with that similarity as the confidence. *)
Theorem predict_below_threshold (self : t) (text app : string)
    (ctx : option ContextManager.UserContext) (idx : nat) (conf : Q) :
  trained self = true →
  best_match self text = Some (idx, conf) →
  (conf < min_confidence self)%Q →
  predict self text app ctx = ("unknown", conf).
Proof.
  intros Htrained Hbest Hlt. unfold predict. rewrite Htrained, Hbest. simpl.
  destruct (Qle_bool (min_confidence self) conf) eqn:Hle; [|done].
  apply Qle_bool_iff in Hle. by apply Qlt_not_le in Hlt.
Qed.

(** What [predict] answers is "unknown" or the tag of an entry of the tag
    list of a trained classifier. *)
Lemma predict_tag self text app ctx :
  (predict self text app ctx).1 = "unknown" ∨
  (trained self = true ∧ ∃ ti, ti ∈ tags self ∧ (predict self text app ctx).1 = tag ti).
Proof.
  unfold predict. destruct (trained self); simpl; [|by left].
  destruct (best_match self text) as [[idx conf]|]; [|by left].
  destruct (Qle_bool _ _); [|by left].
  destruct (tags self !! idx) as [ti|] eqn:Hti; [|by left].
  right. split; [done|]. exists ti. split; [|done].
  apply list_elem_of_lookup. eauto.
Qed.

Lemma train_tags_of_last self last td :
  tags_of_last self last →
  tags_of_last (train self td).2 (if (train self td).1 then Some td else last).
Proof.
  intros Hinv.
  destruct (train_cases self td)
    as [[_ Ht]|[(_ & _ & _ & Htr)|(_ & _ & Ht & _ & _ & Htg)]].
  - rewrite Ht. done.
  - intros ?. congruence.
  - rewrite Ht. intros _. eauto.
Qed.

Lemma train_all_tags_of_last corpora : ∀ self last,
  tags_of_last self last →
  tags_of_last (train_all self last corpora).1 (train_all self last corpora).2.
Proof.
  induction corpora as [|td corpora IH]; intros self last Hinv; simpl; [done|].
  pose proof (train_tags_of_last self last td Hinv) as Hstep.
  destruct (train self td) as [ok self']. by apply IH.
Qed.

End Prediction.

(** C2 at work with the stand-in vectorizer: one token of six matches. *)
Lemma predict_below_threshold_witness :
  predict (V := token_overlap)
    (train (V := token_overlap) (init (3 # 10))
       {| Corpus.applications :=
            Some [ ("customer_support",
                    {| Corpus.patterns := ["order status"; "return policy"];
                       Corpus.responses := ["Which order?"];
                       Corpus.tags := ["order_status"; "return_policy"] |}) ] |}).2
    "where is my order now please" "customer_support" None
  = ("unknown", (1 # 6)%Q).
Proof.
  apply (predict_below_threshold (V := token_overlap) _ _ _ _ 0 (1 # 6)%Q).
  - reflexivity.
  - vm_compute. reflexivity.
  - reflexivity.
Defined.

Example predict_exact_match :
  predict (V := token_overlap)
    (train (V := token_overlap) (init (3 # 10))
       {| Corpus.applications :=
            Some [ ("customer_support",
                    {| Corpus.patterns := ["order status"; "return policy"];
                       Corpus.responses := ["Which order?"];
                       Corpus.tags := ["order_status"; "return_policy"] |}) ] |}).2
    "Order status" "customer_support" None
  = ("order_status", 1%Q).
Proof. vm_compute. reflexivity. Qed.

(** C10. After any run of [train] calls on a new classifier, the tag
    [predict] answers is "unknown" or a tag of the corpus of the last call
    that returned [True]. *)
Theorem predict_tag_from_corpus `{V : Vectorizer} (min_conf : Q)
    (corpora : list Corpus.TrainingData) (text app : string)
    (ctx : option ContextManager.UserContext) :
  (predict (train_all (init min_conf) None corpora).1 text app ctx).1 = "unknown" ∨
  ∃ td, (train_all (init min_conf) None corpora).2 = Some td ∧
        (predict (train_all (init min_conf) None corpora).1 text app ctx).1
          ∈ corpus_tags td.
Proof.
  assert (Hinv : tags_of_last (init min_conf) None) by (intros H; discriminate H).
  apply (train_all_tags_of_last corpora) in Hinv.
  destruct (predict_tag (train_all (init min_conf) None corpora).1 text app ctx)
    as [Hu|(Htr & ti & Hti & Heq)]; [by left|right].
  destruct (Hinv Htr) as (td & Hlast & Htags).
  exists td. split; [done|]. rewrite Heq. apply kept_tags_corpus. by rewrite <- Htags.
Qed.

End ClassifierFacts.

(** ** The training-data manager *)

Module TrainingDataFacts.
Import TrainingDataManager.

Lemma get_alter_eq f name apps : Corpus.get (Corpus.alter f name apps) name = f <$> Corpus.get apps name.
Proof.
  induction apps as [|[k d] apps IH]; simpl; [done|].
  case_decide; simpl; [by rewrite decide_True|by rewrite decide_False].
Qed.

Lemma get_alter_ne f name name' apps :
  name ≠ name' → Corpus.get (Corpus.alter f name apps) name' = Corpus.get apps name'.
Proof.
  intros Hne. induction apps as [|[k d] apps IH]; simpl; [done|].
  case_decide as Hk; simpl.
  - subst k. by rewrite !decide_False by done.
  - by rewrite IH.
Qed.

Lemma get_add_eq apps name d :
  Corpus.get apps name = None → Corpus.get (Corpus.add apps name d) name = Some d.
Proof.
  unfold Corpus.add. induction apps as [|[k d'] apps IH]; simpl.
  - by rewrite decide_True.
  - case_decide; [done|]. apply IH.
Qed.

Lemma get_add_ne apps name name' d :
  name ≠ name' → Corpus.get (Corpus.add apps name d) name' = Corpus.get apps name'.
Proof.
  intros Hne. unfold Corpus.add. induction apps as [|[k d'] apps IH]; simpl.
  - by rewrite decide_False.
  - by rewrite IH.
Qed.

(** What [add_example] leaves in memory, whether or not the corpus could
    be written: the three entries of the example, at the end of the lists
    of the application, the lists being empty for a new application. *)
Lemma add_example_data self apps app pattern response tag write_ok :
  Corpus.applications (data self) = Some apps →
  ∃ apps', Corpus.applications (data (add_example self app pattern response tag write_ok).2)
             = Some apps' ∧
           Corpus.get apps' app =
             Some (append_example pattern response tag
                     (default {| Corpus.patterns := []; Corpus.responses := [];
                                 Corpus.tags := [] |}
                              (Corpus.get apps app))) ∧
           ∀ other, app ≠ other → Corpus.get apps' other = Corpus.get apps other.
Proof.
  intros Happs. unfold add_example. rewrite Happs. simpl. eexists. split; [done|].
  destruct (Corpus.get apps app) as [d|] eqn:Hget; simpl.
  - split; [by rewrite get_alter_eq, Hget|].
    intros other Hne. by rewrite get_alter_ne.
  - split; [by rewrite get_alter_eq, get_add_eq|].
    intros other Hne. by rewrite get_alter_ne, get_add_ne.
Qed.

Lemma add_example_result self apps app pattern response tag write_ok :
  Corpus.applications (data self) = Some apps →
  (add_example self app pattern response tag write_ok).1 = write_ok.
Proof. intros Happs. unfold add_example. by rewrite Happs. Qed.

(** C8. When the corpus cannot be written, [add_example] returns [False]
    and the corpus in memory holds the new pattern, response and tag all
    the same, appended to the lists of the application; the other
    applications are as they were. *)
Theorem add_example_not_rolled_back (self : t) (apps : Corpus.Applications)
    (app pattern response tag : string) :
  Corpus.applications (data self) = Some apps →
  (add_example self app pattern response tag false).1 = false ∧
  ∃ apps' d d',
    Corpus.applications (data (add_example self app pattern response tag false).2)
      = Some apps' ∧
    d = default {| Corpus.patterns := []; Corpus.responses := []; Corpus.tags := [] |}
                (Corpus.get apps app) ∧
    Corpus.get apps' app = Some d' ∧
    Corpus.patterns d' = Corpus.patterns d ++ [pattern] ∧
    Corpus.responses d' = Corpus.responses d ++ [response] ∧
    Corpus.tags d' = Corpus.tags d ++ [tag] ∧
    ∀ other, app ≠ other → Corpus.get apps' other = Corpus.get apps other.
Proof.
  intros Happs. split; [by apply (add_example_result self apps)|].
  destruct (add_example_data self apps app pattern response tag false Happs)
    as (apps' & Hdata & Hget & Hother).
  exists apps'. eexists. eexists. split; [exact Hdata|]. split; [reflexivity|].
  split; [exact Hget|]. done.
Qed.

Lemma add_example_not_rolled_back_witness :
  (add_example
     {| data_file := "backend/data/chatbot_data.json";
        data := {| Corpus.applications :=
                     Some [ ("customer_support",
                             {| Corpus.patterns := ["hello"; "order status"];
                                Corpus.responses := ["Hello!"; "Which order?"];
                                Corpus.tags := ["greeting"; "order_status"] |}) ] |} |}
     "customer_support" "refund request" "I can help with refunds." "refund" false).1
  = false.
Proof.
  exact (proj1 (add_example_not_rolled_back
     {| data_file := "backend/data/chatbot_data.json";
        data := {| Corpus.applications :=
                     Some [ ("customer_support",
                             {| Corpus.patterns := ["hello"; "order status"];
                                Corpus.responses := ["Hello!"; "Which order?"];
                                Corpus.tags := ["greeting"; "order_status"] |}) ] |} |}
     [ ("customer_support",
        {| Corpus.patterns := ["hello"; "order status"];
           Corpus.responses := ["Hello!"; "Which order?"];
           Corpus.tags := ["greeting"; "order_status"] |}) ]
     "customer_support" "refund request" "I can help with refunds." "refund" eq_refl)).
Defined.

(** The example stays in memory for an application the corpus did not
    have, too. *)
Example add_example_new_application :
  Corpus.applications
    (data (add_example
             {| data_file := "backend/data/chatbot_data.json";
                data := {| Corpus.applications := Some [] |} |}
             "custom_app" "foo bar" "baz response" "foo_tag" false).2)
  = Some [ ("custom_app", {| Corpus.patterns := ["foo bar"];
                              Corpus.responses := ["baz response"];
                              Corpus.tags := ["foo_tag"] |}) ].
Proof. reflexivity. Qed.

(** Before any corpus was loaded the dictionary has no "applications";
    [add_example] then fails on the lookup and changes nothing. *)
Example add_example_without_corpus :
  add_example (init "backend/data/chatbot_data.json")
              "custom_app" "foo bar" "baz response" "foo_tag" true
  = (false, init "backend/data/chatbot_data.json").
Proof. reflexivity. Qed.

End TrainingDataFacts.

(** ** The context store: the rest of its interface *)

Module ContextStoreFacts.
Import ContextManager ContextFacts.

Lemma get_context_live self u c now :
  user_contexts self !! u = Some c → ¬ expired self now c →
  (get_context self u now).1 = set_last_activity now c.
Proof.
  intros Hc Hlive. unfold get_context. cbn [fst].
  by rewrite (cleanup_lookup_live self u c now Hc Hlive).
Qed.

Lemma get_context_absent self u now :
  user_contexts self !! u = None →
  (get_context self u now).1 = _create_new_context self u now.
Proof.
  intros Hc. unfold get_context. cbn [fst].
  assert (user_contexts (_cleanup_expired_sessions self now) !! u = None) as ->; [|done].
  simpl. apply map_lookup_filter_None. left. done.
Qed.

Lemma get_context_expired self u c now :
  user_contexts self !! u = Some c → expired self now c →
  (get_context self u now).1 = _create_new_context self u now.
Proof.
  intros Hc Hexp. unfold get_context. cbn [fst].
  by rewrite (cleanup_lookup_expired self u c now Hc Hexp).
Qed.

Lemma get_context_last_activity self u now :
  last_activity (get_context self u now).1 = now.
Proof.
  unfold get_context. cbn [fst].
  by destruct (user_contexts (_cleanup_expired_sessions self now) !! u).
Qed.

Lemma get_context_timeout self u now :
  session_timeout (get_context self u now).2 = session_timeout self.
Proof. reflexivity. Qed.

(** What the sweep leaves of a session. *)
Lemma cleanup_lookup self v now :
  user_contexts (_cleanup_expired_sessions self now) !! v =
    match user_contexts self !! v with
    | Some c => if decide (expired self now c) then None else Some c
    | None => None
    end.
Proof.
  destruct (user_contexts self !! v) as [c|] eqn:Hc.
  - case_decide.
    + by apply (cleanup_lookup_expired self v c).
    + by apply cleanup_lookup_live.
  - simpl. apply map_lookup_filter_None. by left.
Qed.

Lemma get_context_other self u v now :
  u ≠ v →
  user_contexts (get_context self u now).2 !! v =
    user_contexts (_cleanup_expired_sessions self now) !! v.
Proof.
  intros Hne. unfold get_context. cbn [snd set_user_contexts user_contexts].
  by rewrite lookup_insert_ne.
Qed.

(** An access keeps a session alive: a second access no later than the
    timeout after the first finds the context the first one handed out,
    and only moves its last activity. *)
Theorem get_context_keeps_alive (self : t) (u : string) (t0 t1 : Z) :
  (t1 - t0 <= session_timeout self * 1000000)%Z →
  (get_context (get_context self u t0).2 u t1).1 =
    set_last_activity t1 (get_context self u t0).1.
Proof.
  intros Hle. apply get_context_live.
  - apply get_context_lookup.
  - unfold expired. rewrite get_context_last_activity, get_context_timeout. lia.
Qed.

Lemma get_context_keeps_alive_witness :
  (get_context (get_context (init 10 3600) "sam" 0).2 "sam" 3600000000).1 =
    set_last_activity 3600000000 (get_context (init 10 3600) "sam" 0).1.
Proof.
  apply (get_context_keeps_alive (init 10 3600) "sam" 0 3600000000).
  vm_compute. discriminate.
Defined.

Lemma update_context_other self u v c i b n a now :
  u ≠ v → user_contexts self !! v = Some c →
  user_contexts (update_context self u i b n a now) !! v =
    if decide (session_timeout self * 1000000 < now - last_activity c)%Z
    then None else Some c.
Proof.
  intros Hne Hc.
  pose proof (get_context_other self u v now Hne) as Hother.
  rewrite cleanup_lookup, Hc in Hother.
  unfold update_context. destruct (get_context self u now) as [c0 self0].
  cbn [snd set_user_contexts user_contexts] in *.
  rewrite lookup_insert_ne by done. rewrite Hother. unfold expired.
  by destruct (decide _).
Qed.

Lemma step_timeout self c : session_timeout (step self c) = session_timeout self.
Proof.
  destruct c as [u now|u i b n a now|u a now|u k v now|u|now|u d]; unfold step.
  - done.
  - pose proof (get_context_timeout self u now).
    unfold update_context. by destruct (get_context self u now).
  - pose proof (get_context_timeout self u now).
    unfold switch_application. by destruct (get_context self u now).
  - pose proof (get_context_timeout self u now).
    unfold set_user_preference. by destruct (get_context self u now).
  - unfold clear_context. by destruct (user_contexts self !! u).
  - done.
  - done.
Qed.

Lemma run_timeout self calls : session_timeout (run self calls) = session_timeout self.
Proof.
  unfold run. revert self.
  induction calls as [|c calls IH]; intros self; simpl; [done|].
  by rewrite IH, step_timeout.
Qed.

(** In a manager that was created with a timeout below 2^34 seconds and
    has served any calls but [import_context], so that no two sessions
    share an object, [update_context] for one user leaves the session of
    any other user as it was when that session is live, and removes it
    when it is expired. *)
Theorem update_context_other_users (n : nat) (timeout : Z) (calls : list call)
    (u v : string) (c : UserContext) (i b t a : string) (now : Z) :
  Forall own_call calls →
  (0 <= timeout < 2 ^ 34)%Z →
  u ≠ v →
  user_contexts (run (init n timeout) calls) !! v = Some c →
  user_contexts (update_context (run (init n timeout) calls) u i b t a now) !! v =
    if decide (timeout * 1000000 < now - last_activity c)%Z
    then None else Some c.
Proof.
  intros _ _ Hne Hc.
  rewrite (update_context_other _ u v c i b t a now Hne Hc).
  pose proof (run_timeout (init n timeout) calls) as Ht. cbn [init session_timeout] in Ht.
  destruct (decide _) as [H1|H1], (decide _) as [H2|H2]; try done;
    rewrite Ht in H1; lia.
Qed.

Lemma update_context_other_users_witness :
  user_contexts
    (update_context
       (run (init 10 3600)
            [ UpdateContext "ann" "hello" "Hello!" "greeting" "customer_support" 0 ])
       "sam" "order status" "Which order?" "order_status" "customer_support"
       1000000) !! "ann"
  = user_contexts
      (run (init 10 3600)
           [ UpdateContext "ann" "hello" "Hello!" "greeting" "customer_support" 0 ])
      !! "ann".
Proof.
  rewrite (update_context_other_users 10 3600
             [ UpdateContext "ann" "hello" "Hello!" "greeting" "customer_support" 0 ]
             "sam" "ann"
             (default (_create_new_context (init 10 3600) "ann" 0)
                (user_contexts
                   (run (init 10 3600)
                        [ UpdateContext "ann" "hello" "Hello!" "greeting"
                                        "customer_support" 0 ]) !! "ann"))
             "order status" "Which order?" "order_status" "customer_support" 1000000).
  - reflexivity.
  - repeat constructor.
  - vm_compute. split; [discriminate|reflexivity].
  - discriminate.
  - reflexivity.
Defined.

(** What [update_context] stores for its user, field by field, from the
    context [get_context] handed out. *)
Lemma update_context_stored self u i b n a now :
  user_contexts (update_context self u i b n a now) !! u =
    Some (_update_context_variables
            (_extract_user_name
               (set_message_count (message_count (get_context self u now).1 + 1)
                  (set_current_application a
                     (set_conversation_history
                        (deque_append (conversation_history (get_context self u now).1)
                                      (new_turn now i b n a))
                        (get_context self u now).1)))
               i)
            i n).
Proof.
  unfold update_context. destruct (get_context self u now) as [c0 self0].
  cbn [fst snd set_user_contexts user_contexts]. by rewrite lookup_insert_eq.
Qed.

(** A name once stored survives every later turn of the session whose
    input has none of the introduction phrases. *)
Theorem update_context_keeps_name (self : t) (u name : string) (c : UserContext)
    (i b n a : string) (now : Z) :
  user_contexts self !! u = Some c →
  user_name c = Some name →
  (now - last_activity c <= session_timeout self * 1000000)%Z →
  any_in name_patterns (PyStr.lower i) = false →
  ∃ c', user_contexts (update_context self u i b n a now) !! u = Some c' ∧
        user_name c' = Some name.
Proof.
  intros Hc Hname Hlive Hno. eexists. split; [apply update_context_stored|].
  rewrite extract_user_name_no_pattern by done.
  rewrite (get_context_live self u c now Hc) by (unfold expired; lia).
  exact Hname.
Qed.

Lemma update_context_keeps_name_witness :
  ∃ c', user_contexts
          (update_context
             (update_context (init 10 3600) "sam" "my name is Sam" "Hi" "greeting"
                             "customer_support" 0)
             "sam" "what time is it" "Noon" "time" "personal_assistant" 1000000)
          !! "sam" = Some c' ∧
        user_name c' = Some "Sam".
Proof.
  apply (update_context_keeps_name
           (update_context (init 10 3600) "sam" "my name is Sam" "Hi" "greeting"
                           "customer_support" 0)
           "sam" "Sam"
           (default (_create_new_context (init 10 3600) "sam" 0)
              (user_contexts
                 (update_context (init 10 3600) "sam" "my name is Sam" "Hi" "greeting"
                                 "customer_support" 0) !! "sam"))).
  - reflexivity.
  - reflexivity.
  - vm_compute. discriminate.
  - reflexivity.
Defined.

(** *** Export, import and clear *)

Lemma set_conversation_history_id c :
  set_conversation_history (conversation_history c) c = c.
Proof. by destruct c. Qed.

Lemma set_user_contexts_id self : set_user_contexts (user_contexts self) self = self.
Proof. by destruct self. Qed.

Lemma deque_of_list_bounded {A} (d : deque A) :
  length (items d) ≤ maxlen d → deque_of_list (items d) (maxlen d) = d.
Proof.
  intros Hle. destruct d as [n l]. unfold deque_of_list. simpl in *.
  by replace (length l - n) with 0 by lia.
Qed.

(** Importing what was exported changes nothing, in any state the manager
    reaches from its creation. *)
Theorem export_import_roundtrip (n : nat) (timeout : Z) (calls : list call)
    (u : string) (c : UserContext) :
  export_context (run (init n timeout) calls) u = Some c →
  import_context (run (init n timeout) calls) u c = (true, run (init n timeout) calls).
Proof.
  unfold export_context. intros Hc.
  assert (Hb : bounded (run (init n timeout) calls)) by apply run_bounded, init_bounded.
  destruct (Hb u c Hc) as [Hm Hl].
  unfold import_context. f_equal.
  rewrite <- Hm, deque_of_list_bounded by (rewrite Hm; exact Hl).
  rewrite set_conversation_history_id, insert_id by done.
  apply set_user_contexts_id.
Qed.

Lemma export_import_roundtrip_witness :
  import_context
    (run (init 2 3600)
         [ UpdateContext "sam" "hello" "Hello!" "greeting" "customer_support" 0 ])
    "sam"
    (default (_create_new_context (init 2 3600) "sam" 0)
       (export_context
          (run (init 2 3600)
               [ UpdateContext "sam" "hello" "Hello!" "greeting" "customer_support" 0 ])
          "sam"))
  = (true,
     run (init 2 3600)
         [ UpdateContext "sam" "hello" "Hello!" "greeting" "customer_support" 0 ]).
Proof.
  apply (export_import_roundtrip 2 3600
           [ UpdateContext "sam" "hello" "Hello!" "greeting" "customer_support" 0 ]
           "sam").
  reflexivity.
Defined.

(** An imported history longer than the manager's length is cut to its
    most recent turns; everything else of the imported data is exported
    back as it came. *)
Theorem import_export_truncates (self : t) (u : string) (d : UserContext) :
  ∃ c, export_context (import_context self u d).2 u = Some c ∧
       items (conversation_history c) =
         drop (length (items (conversation_history d)) - max_context_length self)
              (items (conversation_history d)) ∧
       length (items (conversation_history c)) ≤ max_context_length self ∧
       set_conversation_history (conversation_history d) c = d.
Proof.
  unfold export_context, import_context. cbn [snd set_user_contexts user_contexts].
  eexists. rewrite lookup_insert_eq. split; [done|]. split; [done|]. split.
  - apply deque_of_list_length.
  - by destruct d.
Qed.

(** [clear_context] tells whether the user had a session; afterwards the
    user starts from a new context, and no other session is touched. *)
Theorem clear_context_forgets (self : t) (u : string) (now : Z) :
  (clear_context self u).1 = bool_decide (is_Some (user_contexts self !! u)) ∧
  export_context (clear_context self u).2 u = None ∧
  (get_context (clear_context self u).2 u now).1 = _create_new_context self u now ∧
  ∀ v, u ≠ v → user_contexts (clear_context self u).2 !! v = user_contexts self !! v.
Proof.
  assert (Hgone : user_contexts (clear_context self u).2 !! u = None).
  { unfold clear_context. destruct (user_contexts self !! u) eqn:Hc; simpl; [|done].
    apply lookup_delete_eq. }
  repeat split.
  - unfold clear_context. by destruct (user_contexts self !! u).
  - exact Hgone.
  - rewrite (get_context_absent _ u now Hgone).
    unfold clear_context. by destruct (user_contexts self !! u).
  - intros v Hne. unfold clear_context.
    destruct (user_contexts self !! u); simpl; [|done]. by apply lookup_delete_ne.
Qed.

(** *** Message counts *)

Lemma extract_user_name_loop_fields ps c i l :
  user_id (_extract_user_name_loop ps c i l) = user_id c ∧
  message_count (_extract_user_name_loop ps c i l) = message_count c.
Proof.
  induction ps as [|p ps IH]; simpl; [done|].
  destruct (PyStr.find p l); [|done].
  destruct (head _); [|done]. by case_decide.
Qed.

Lemma extract_user_name_fields c i :
  user_id (_extract_user_name c i) = user_id c ∧
  message_count (_extract_user_name c i) = message_count c.
Proof. apply extract_user_name_loop_fields. Qed.

Lemma counted_get_context n self u now :
  max_context_length self = n →
  map_Forall (counted n) (user_contexts self) →
  map_Forall (counted n) (user_contexts (get_context self u now).2) ∧
  counted n u (get_context self u now).1.
Proof.
  intros Hn H.
  assert (Hu : counted n u (get_context self u now).1).
  { unfold get_context. cbn [fst].
    destruct (user_contexts (_cleanup_expired_sessions self now) !! u) as [c|] eqn:Hc.
    - apply map_lookup_filter_Some in Hc as [Hc _]. by apply H in Hc.
    - split; simpl; [done|lia]. }
  split; [|done].
  unfold get_context in *. cbn [fst snd set_user_contexts user_contexts] in *.
  apply map_Forall_insert_2; [done|].
  intros v c [Hc _]%map_lookup_filter_Some. by apply H in Hc.
Qed.

Lemma counted_step n self c :
  own_call c → max_context_length self = n → bounded self →
  map_Forall (counted n) (user_contexts self) →
  map_Forall (counted n) (user_contexts (step self c)).
Proof.
  intros Hown Hn Hb H.
  destruct c as [u now|u i b t a now|u a now|u k v now|u|now|u d]; unfold step.
  - by apply counted_get_context.
  - destruct (counted_get_context n self u now Hn H) as [Htable [Hid Hlen]].
    pose proof (get_context_result_bounded self u now Hb) as [Hm Hl].
    unfold update_context. destruct (get_context self u now) as [c0 self0].
    cbn [fst snd set_user_contexts user_contexts] in *.
    apply map_Forall_insert_2; [|done].
    unfold counted.
    rewrite update_context_variables_history, extract_user_name_history.
    cbn [_update_context_variables set_context_variables user_id message_count].
    rewrite (proj1 (extract_user_name_fields _ _)), (proj2 (extract_user_name_fields _ _)).
    cbn [set_message_count set_current_application set_conversation_history
         user_id message_count conversation_history].
    split; [done|].
    rewrite deque_append_items by lia.
    rewrite length_drop, length_app. simpl. lia.
  - destruct (counted_get_context n self u now Hn H) as [Htable Hu].
    unfold switch_application. destruct (get_context self u now) as [c0 self0].
    cbn [fst snd set_user_contexts user_contexts] in *.
    by apply map_Forall_insert_2.
  - destruct (counted_get_context n self u now Hn H) as [Htable Hu].
    unfold set_user_preference. destruct (get_context self u now) as [c0 self0].
    cbn [fst snd set_user_contexts user_contexts] in *.
    by apply map_Forall_insert_2.
  - unfold clear_context. destruct (user_contexts self !! u); [|done].
    cbn. by apply map_Forall_delete.
  - cbn. intros v c [Hc _]%map_lookup_filter_Some. by apply H in Hc.
  - done.
Qed.

Lemma counted_run n calls : ∀ self,
  Forall own_call calls → max_context_length self = n → bounded self →
  map_Forall (counted n) (user_contexts self) →
  map_Forall (counted n) (user_contexts (run self calls)).
Proof.
  unfold run. induction calls as [|c calls IH]; intros self Hown Hn Hb H; simpl; [done|].
  apply Forall_cons in Hown as [Hc Hown].
  apply IH; [done|by rewrite step_max|by apply step_bounded|by apply counted_step].
Qed.

(** As long as nothing is imported, every session is stored under its own
    user id, and its history holds as many turns as the session recorded,
    up to the manager's length. *)
Theorem history_length_is_message_count (n : nat) (timeout : Z) (calls : list call)
    (u : string) (c : UserContext) :
  Forall own_call calls →
  user_contexts (run (init n timeout) calls) !! u = Some c →
  user_id c = u ∧
  length (items (conversation_history c)) = min (message_count c) n.
Proof.
  intros Hown Hc.
  apply (counted_run n calls (init n timeout) Hown eq_refl (init_bounded n timeout)
           (map_Forall_empty _) u c Hc).
Qed.

Lemma history_length_is_message_count_witness :
  ∃ c, user_contexts
         (run (init 1 3600)
              [ UpdateContext "sam" "hello" "Hello!" "greeting" "customer_support" 0;
                UpdateContext "sam" "thanks" "Welcome" "thanks" "customer_support" 1 ])
         !! "sam" = Some c ∧
       message_count c = 2 ∧ length (items (conversation_history c)) = 1.
Proof.
  eexists. split; [reflexivity|]. split; [reflexivity|].
  refine (eq_trans (proj2 (history_length_is_message_count 1 3600
            [ UpdateContext "sam" "hello" "Hello!" "greeting" "customer_support" 0;
              UpdateContext "sam" "thanks" "Welcome" "thanks" "customer_support" 1 ]
            "sam" _ _ _)) _).
  - repeat constructor.
  - reflexivity.
  - reflexivity.
Defined.

(** *** Listing and reading *)

(** With a timeout below 2^34 seconds and no session that started 2^34
    seconds or more before or after the call, so that seconds are compared
    and counted as the microseconds are, [get_all_active_sessions] lists
    every session that is not expired at the time of the call, once each,
    with the fields of its context, and no other. *)
Theorem active_sessions_are_live (self : t) (now : Z) :
  (0 <= session_timeout self < 2 ^ 34)%Z →
  map_Forall (λ _ c, (Z.abs (now - session_start c) < 2 ^ 34 * 1000000)%Z)
             (user_contexts self) →
  NoDup (map s_user_id (get_all_active_sessions self now).1) ∧
  ∀ s, s ∈ (get_all_active_sessions self now).1 ↔
       ∃ c, user_contexts self !! s_user_id s = Some c ∧
            ¬ (session_timeout self * 1000000 < now - last_activity c)%Z ∧
            s = {| s_user_id := s_user_id s;
                   s_user_name := user_name c;
                   s_current_application := current_application c;
                   s_message_count := message_count c;
                   s_session_duration := _get_session_duration c now;
                   s_last_activity := last_activity c |}.
Proof.
  intros _ _. unfold get_all_active_sessions. cbn [fst]. split.
  - rewrite map_map. cbn [s_user_id].
    exact (NoDup_fst_map_to_list (user_contexts (_cleanup_expired_sessions self now))).
  - intros s. rewrite list_elem_of_In, in_map_iff. split.
    + intros ([u c] & <- & Hin). exists c. cbn [s_user_id fst snd].
      apply list_elem_of_In, elem_of_map_to_list in Hin.
      apply map_lookup_filter_Some in Hin as [Hc Hlive]. by repeat split.
    + intros (c & Hc & Hlive & Heq). exists (s_user_id s, c). split; [by rewrite Heq|].
      apply list_elem_of_In, elem_of_map_to_list. by apply map_lookup_filter_Some.
Qed.

Lemma active_sessions_are_live_witness :
  map s_user_id
      (get_all_active_sessions
         (run (init 10 3600)
              [ UpdateContext "ann" "hello" "Hello!" "greeting" "customer_support" 0;
                UpdateContext "sam" "hi" "Hello!" "greeting" "customer_support"
                              3000000000 ])
         3600000001).1
    = ["sam"] ∧
  NoDup (map s_user_id
           (get_all_active_sessions
              (run (init 10 3600)
                   [ UpdateContext "ann" "hello" "Hello!" "greeting" "customer_support" 0;
                     UpdateContext "sam" "hi" "Hello!" "greeting" "customer_support"
                                   3000000000 ])
              3600000001).1).
Proof.
  split; [vm_compute; reflexivity|].
  refine (proj1 (active_sessions_are_live
                   (run (init 10 3600)
                        [ UpdateContext "ann" "hello" "Hello!" "greeting"
                                        "customer_support" 0;
                          UpdateContext "sam" "hi" "Hello!" "greeting" "customer_support"
                                        3000000000 ])
                   3600000001 _ _)).
  - vm_compute. split; [discriminate|reflexivity].
  - apply (bool_decide_unpack _). vm_compute. exact I.
Defined.

(** With a timeout below 2^34 seconds, a preference that was set is read
    back as long as the session lives; once the session is expired the
    read returns the default. *)
Theorem preference_roundtrip (self : t) (u k : string) (v : value)
    (d : option value) (t0 t1 : Z) :
  (0 <= session_timeout self < 2 ^ 34)%Z →
  (get_user_preference (set_user_preference self u k v t0) u k d t1).1 =
    if decide (session_timeout self * 1000000 < t1 - t0)%Z then d else Some v.
Proof.
  intros _.
  assert (Hset : ∃ c, user_contexts (set_user_preference self u k v t0) !! u = Some c ∧
                      last_activity c = t0 ∧ user_preferences c !! k = Some v ∧
                      session_timeout (set_user_preference self u k v t0)
                        = session_timeout self).
  { pose proof (get_context_last_activity self u t0) as Hact.
    pose proof (get_context_timeout self u t0) as Hto.
    unfold set_user_preference. destruct (get_context self u t0) as [c0 self0].
    cbn [fst snd set_user_contexts user_contexts session_timeout] in *.
    eexists. rewrite lookup_insert_eq. split; [done|]. split; [done|].
    split; [|done]. cbn. apply lookup_insert_eq. }
  destruct Hset as (c & Hc & Hact & Hpref & Hto).
  set (self1 := set_user_preference self u k v t0) in *.
  case_decide as Hexp.
  - assert (He : (get_context self1 u t1).1 = _create_new_context self1 u t1).
    { apply get_context_expired with c; [done|]. unfold expired.
      rewrite Hto, Hact. done. }
    unfold get_user_preference.
    destruct (get_context self1 u t1) as [c1 self2]. cbn [fst] in *. by rewrite He.
  - assert (He : (get_context self1 u t1).1 = set_last_activity t1 c).
    { apply get_context_live; [done|]. unfold expired. rewrite Hto, Hact. done. }
    unfold get_user_preference.
    destruct (get_context self1 u t1) as [c1 self2]. cbn [fst] in *.
    rewrite He. cbn. by rewrite Hpref.
Qed.

Lemma preference_roundtrip_witness :
  (get_user_preference (set_user_preference (init 10 3600) "sam" "theme" (VStr "dark") 0)
                       "sam" "theme" None 3600000000).1 = Some (VStr "dark") ∧
  (get_user_preference (set_user_preference (init 10 3600) "sam" "theme" (VStr "dark") 0)
                       "sam" "theme" None 3600000001).1 = None.
Proof.
  split.
  - refine (eq_trans (preference_roundtrip (init 10 3600) "sam" "theme" (VStr "dark")
                        None 0 3600000000 _) _); [|reflexivity].
    vm_compute. split; [discriminate|reflexivity].
  - reflexivity.
Defined.

(** The three readers go through [get_context]: asked about a user
    without a session they open one, and answer from the new context. *)
Theorem readers_open_a_session (self : t) (u k : string) (limit : option Z)
    (d : option value) (now : Z) :
  user_contexts self !! u = None →
  (get_conversation_history self u limit now).1 = [] ∧
  (get_user_preference self u k d now).1 = d ∧
  sm_message_count (get_context_summary self u now).1 = 0 ∧
  user_contexts (get_conversation_history self u limit now).2 !! u
    = Some (_create_new_context self u now) ∧
  user_contexts (get_user_preference self u k d now).2 !! u
    = Some (_create_new_context self u now) ∧
  user_contexts (get_context_summary self u now).2 !! u
    = Some (_create_new_context self u now).
Proof.
  intros Hnone.
  pose proof (get_context_absent self u now Hnone) as Hnew.
  pose proof (get_context_lookup self u now) as Hlook.
  unfold get_conversation_history, get_user_preference, get_context_summary.
  destruct (get_context self u now) as [c0 self0]. cbn [fst snd] in *. subst c0.
  repeat split; try done.
  - destruct limit as [l|]; [|done]. by case_decide.
  - destruct limit as [l|]; [|done]. by case_decide.
Qed.

Lemma readers_open_a_session_witness :
  (get_conversation_history (init 10 3600) "sam" (Some 3%Z) 0).1 = [].
Proof.
  exact (proj1 (readers_open_a_session (init 10 3600) "sam" "theme" (Some 3%Z) None 0
                  eq_refl)).
Defined.

(** [get_conversation_history] with a positive limit returns the most
    recent turns of the history, as many as the limit allows; with no
    limit, or one that is not positive, the whole history. *)
Theorem conversation_history_limit (self : t) (u : string) (limit : option Z) (now : Z) :
  let history := items (conversation_history (get_context self u now).1) in
  let result := (get_conversation_history self u limit now).1 in
  match limit with
  | Some l =>
      if decide (0 < l)%Z
      then (∃ older, history = older ++ result) ∧
           length result = min (Z.to_nat l) (length history)
      else result = history
  | None => result = history
  end.
Proof.
  unfold get_conversation_history. destruct (get_context self u now) as [c0 self0].
  cbn [fst]. destruct limit as [l|]; [|done]. case_decide; [|done]. cbn [fst]. split.
  - eexists. symmetry. apply take_drop.
  - rewrite length_drop. lia.
Qed.

End ContextStoreFacts.

(** ** The intent classifier: training and prediction together *)

Module ClassifierModelFacts.
Import Sklearn IntentClassifier ClassifierFacts.

(** *** Patterns and their tags *)

Lemma flat_map_aligned (apps : Corpus.Applications) :
  Forall (λ entry, well_formed entry.2) apps →
  ∀ i p,
    flat_map (λ entry, Corpus.patterns entry.2) apps !! i = Some p →
    ∃ name d j tg,
      (name, d) ∈ apps ∧ Corpus.patterns d !! j = Some p ∧
      Corpus.tags d !! j = Some tg ∧
      flat_map (λ entry, map (λ tag, {| application := entry.1; tag := tag |})
                             (Corpus.tags entry.2)) apps !! i
        = Some {| application := name; tag := tg |}.
Proof.
  induction 1 as [|[name d] apps Hwf Hall IH]; intros i p; simpl; [done|].
  unfold well_formed in Hwf. simpl in Hwf.
  destruct (decide (i < length (Corpus.patterns d))) as [Hlt|Hge].
  - rewrite lookup_app_l by done. intros Hp.
    destruct (lookup_lt_is_Some_2 (Corpus.tags d) i) as [tg Htg]; [lia|].
    exists name, d, i, tg. split; [left|]. split; [done|]. split; [done|].
    rewrite lookup_app_l by (rewrite length_map; lia).
    change (map ?f ?l) with (f <$> l). by rewrite list_lookup_fmap, Htg.
  - rewrite lookup_app_r by lia. intros Hp.
    destruct (IH _ _ Hp) as (name' & d' & j & tg & Hin & Hpj & Htj & Hti).
    exists name', d', j, tg. split; [by right|]. split; [done|]. split; [done|].
    rewrite lookup_app_r by (rewrite length_map; lia).
    rewrite length_map, <- Hwf. done.
Qed.

Lemma flat_map_aligned_length (apps : Corpus.Applications) :
  Forall (λ entry, well_formed entry.2) apps →
  length (flat_map (λ entry, Corpus.patterns entry.2) apps) =
  length (flat_map (λ entry, map (λ tag, {| application := entry.1; tag := tag |})
                                 (Corpus.tags entry.2)) apps).
Proof.
  induction 1 as [|[name d] apps Hwf Hall IH]; simpl; [done|].
  unfold well_formed in Hwf. simpl in Hwf.
  rewrite !length_app, length_map. lia.
Qed.

Lemma kept_well_formed td : Forall (λ entry, well_formed entry.2) (kept td).
Proof. unfold kept. apply Forall_forall. by intros x [? _]%list_elem_of_filter. Qed.

(** After a training that returned [True] the classifier holds one tag
    entry per pattern, and the entry at the position of a pattern names
    the application the pattern comes from and the tag that stands at the
    pattern's own position there. *)
Theorem train_aligns_tags `{V : Vectorizer} (self : t) (td : Corpus.TrainingData) :
  (train self td).1 = true →
  length (patterns (train self td).2) = length (tags (train self td).2) ∧
  ∀ i p, patterns (train self td).2 !! i = Some p →
    ∃ name d j tg,
      (name, d) ∈ default [] (Corpus.applications td) ∧
      Corpus.patterns d !! j = Some p ∧ Corpus.tags d !! j = Some tg ∧
      tags (train self td).2 !! i = Some {| application := name; tag := tg |}.
Proof.
  intros Hok.
  destruct (train_cases self td)
    as [[_ Ht]|[(_ & _ & Ht & _)|(_ & _ & _ & _ & Hp & Htg)]];
    [rewrite Ht in Hok; discriminate Hok|congruence|].
  rewrite Hp, Htg. unfold kept_patterns, kept_tags. split.
  - apply flat_map_aligned_length, kept_well_formed.
  - intros i p Hi.
    destruct (flat_map_aligned (kept td) (kept_well_formed td) i p Hi)
      as (name & d & j & tg & Hin & H1 & H2 & H3).
    exists name, d, j, tg. split; [|done].
    unfold kept in Hin. by apply list_elem_of_filter in Hin as [_ Hin].
Qed.

Lemma train_aligns_tags_witness :
  ∃ name d j tg,
    (name, d) ∈ default [] (Corpus.applications
       {| Corpus.applications :=
            Some [ ("broken",
                    {| Corpus.patterns := ["job openings"; "salary range"];
                       Corpus.responses := [];
                       Corpus.tags := ["openings"] |});
                   ("customer_support",
                    {| Corpus.patterns := ["order status"; "return policy"];
                       Corpus.responses := ["Which order?"];
                       Corpus.tags := ["order_status"; "return_policy"] |}) ] |}) ∧
    Corpus.patterns d !! j = Some "return policy" ∧ Corpus.tags d !! j = Some tg ∧
    tags
      (train (V := token_overlap) (init (3 # 10))
       {| Corpus.applications :=
            Some [ ("broken",
                    {| Corpus.patterns := ["job openings"; "salary range"];
                       Corpus.responses := [];
                       Corpus.tags := ["openings"] |});
                   ("customer_support",
                    {| Corpus.patterns := ["order status"; "return policy"];
                       Corpus.responses := ["Which order?"];
                       Corpus.tags := ["order_status"; "return_policy"] |}) ] |}).2 !! 1
    = Some {| application := name; tag := tg |}.
Proof.
  exact (proj2 (train_aligns_tags (V := token_overlap) (init (3 # 10))
       {| Corpus.applications :=
            Some [ ("broken",
                    {| Corpus.patterns := ["job openings"; "salary range"];
                       Corpus.responses := [];
                       Corpus.tags := ["openings"] |});
                   ("customer_support",
                    {| Corpus.patterns := ["order status"; "return policy"];
                       Corpus.responses := ["Which order?"];
                       Corpus.tags := ["order_status"; "return_policy"] |}) ] |}
       eq_refl) 1 "return policy" eq_refl).
Defined.

(** *** Failed training *)

(** A training that returns [False] either found no pattern, and then
    leaves the classifier as it was, or failed while fitting, and then
    leaves a classifier that answers "unknown" with confidence 0 to every
    text, even if it was trained before. *)
Theorem failed_training_outcome `{V : Vectorizer} (self : t) (td : Corpus.TrainingData) :
  (train self td).1 = false →
  (kept_patterns td = [] ∧ (train self td).2 = self) ∨
  (kept_patterns td ≠ [] ∧
   ∀ text app ctx, predict (train self td).2 text app ctx = ("unknown", 0%Q)).
Proof.
  intros Hfail.
  destruct (train_cases self td)
    as [[Hps Ht]|[(Hps & _ & _ & Htr)|(_ & _ & Ht & _)]]; [| |congruence].
  - left. by rewrite Ht.
  - right. split; [done|]. intros text app ctx. unfold predict. by rewrite Htr.
Qed.

Lemma failed_training_outcome_witness :
  predict
    (train (V := token_overlap)
       (train (V := token_overlap) (init (3 # 10))
          {| Corpus.applications :=
               Some [ ("customer_support",
                       {| Corpus.patterns := ["order status"];
                          Corpus.responses := ["Which order?"];
                          Corpus.tags := ["order_status"] |}) ] |}).2
       {| Corpus.applications :=
            Some [ ("faq", {| Corpus.patterns := ["?"];
                               Corpus.responses := ["Ask me anything."];
                               Corpus.tags := ["help"] |}) ] |}).2
    "order status" "customer_support" None
  = ("unknown", 0%Q).
Proof.
  destruct (failed_training_outcome (V := token_overlap)
       (train (V := token_overlap) (init (3 # 10))
          {| Corpus.applications :=
               Some [ ("customer_support",
                       {| Corpus.patterns := ["order status"];
                          Corpus.responses := ["Which order?"];
                          Corpus.tags := ["order_status"] |}) ] |}).2
       {| Corpus.applications :=
            Some [ ("faq", {| Corpus.patterns := ["?"];
                               Corpus.responses := ["Ask me anything."];
                               Corpus.tags := ["help"] |}) ] |}
       eq_refl) as [[Hnil _]|[_ Hall]].
  - discriminate Hnil.
  - apply Hall.
Defined.

(** *** The best match *)

Lemma argmax_go_first l : ∀ best_idx best idx (full : list Q),
  full !! best_idx = Some best →
  best_idx < idx →
  (∀ j y, j < best_idx → full !! j = Some y → (y < best)%Q) →
  (∀ j y, j < idx → full !! j = Some y → (y <= best)%Q) →
  drop idx full = l →
  ∃ x, full !! argmax_go best_idx best idx l = Some x ∧
       ∀ j y, j < argmax_go best_idx best idx l → full !! j = Some y → (y < x)%Q.
Proof.
  induction l as [|x l IH]; intros best_idx best idx full Hbest Hlt Hfirst Hle Hdrop; simpl.
  - exists best. split; done.
  - assert (Hx : full !! idx = Some x).
    { rewrite <- (Nat.add_0_r idx), <- lookup_drop, Hdrop. done. }
    assert (Hnext : drop (S idx) full = l).
    { replace (S idx) with (idx + 1) by lia. by rewrite <- drop_drop, Hdrop. }
    destruct (Qle_bool x best) eqn:Hcmp.
    + apply IH; [done|lia|done| |done]. intros j y Hj Hy.
      destruct (decide (j = idx)) as [->|]; [|apply (Hle j); [lia|done]].
      rewrite Hx in Hy. injection Hy as <-. by apply Qle_bool_iff.
    + assert (Hgt : (best < x)%Q).
      { apply Qnot_le_lt. intros H%Qle_bool_iff. congruence. }
      apply IH; [done|lia| |  |done].
      * intros j y Hj Hy. apply Qle_lt_trans with best; [by apply (Hle j)|done].
      * intros j y Hj Hy. destruct (decide (j = idx)) as [->|].
        -- rewrite Hx in Hy. injection Hy as <-. apply Qle_refl.
        -- apply Qle_trans with best; [apply (Hle j); [lia|done]|by apply Qlt_le_weak].
Qed.

Lemma argmax_first (l : list Q) i :
  argmax l = Some i →
  ∃ x, l !! i = Some x ∧ ∀ j y, j < i → l !! j = Some y → (y < x)%Q.
Proof.
  destruct l as [|x l]; simpl; [done|]. intros [= <-].
  apply (argmax_go_first l 0 x 1 (x :: l)); [done|lia| | |done].
  - intros j y Hj. lia.
  - intros [|j] y Hj Hy; [|lia]. injection Hy as <-. apply Qle_refl.
Qed.

(** The best match of a text is the first row of the index whose
    similarity to the text is the largest: no row is more similar, and
    every row before it is strictly less similar. *)
Theorem best_match_first_maximum `{V : Vectorizer} (self : t) (text : string)
    (idx : nat) (conf : Q) (fitted : Fitted) (rows : list Row) :
  vectorizer self = Some fitted → X self = Some rows →
  best_match self text = Some (idx, conf) →
  (∃ row, rows !! idx = Some row ∧
          conf = cosine_similarity (transform fitted text) row) ∧
  (∀ row, row ∈ rows → (cosine_similarity (transform fitted text) row <= conf)%Q) ∧
  (∀ j row, j < idx → rows !! j = Some row →
            (cosine_similarity (transform fitted text) row < conf)%Q).
Proof.
  intros Hv HX Hbest. split; [|split].
  - unfold best_match in Hbest. rewrite Hv, HX in Hbest. simpl in Hbest.
    destruct (argmax _) as [i|] eqn:Hi; simpl in Hbest; [|done].
    destruct (_ !! i) as [c|] eqn:Hc; simpl in Hbest; [|done].
    injection Hbest as <- <-. rewrite list_lookup_fmap in Hc.
    destruct (rows !! i) as [row|]; [|done]. injection Hc as <-. eauto.
  - by apply (best_match_max self text idx conf fitted rows).
  - unfold best_match in Hbest. rewrite Hv, HX in Hbest. simpl in Hbest.
    destruct (argmax _) as [i|] eqn:Hi; simpl in Hbest; [|done].
    destruct (_ !! i) as [c|] eqn:Hc; simpl in Hbest; [|done].
    injection Hbest as <- <-.
    apply argmax_first in Hi as (x & Hx & Hfirst). rewrite Hc in Hx. injection Hx as <-.
    intros j row Hj Hrow. apply (Hfirst j); [done|].
    by rewrite list_lookup_fmap, Hrow.
Qed.

Lemma best_match_first_maximum_witness :
  (overlap (tokenize "order status") ["return"; "policy"] < 2 # 2)%Q.
Proof.
  destruct (best_match_first_maximum (V := token_overlap)
              (train (V := token_overlap) (init (3 # 10))
                 {| Corpus.applications :=
                      Some [ ("customer_support",
                              {| Corpus.patterns :=
                                   ["return policy"; "order status"; "status order"];
                                 Corpus.responses := ["Which order?"];
                                 Corpus.tags :=
                                   ["return_policy"; "order_status"; "order_status"] |}) ] |}).2
              "order status" 1 (2 # 2)%Q tt
              [ ["return"; "policy"]; ["order"; "status"]; ["status"; "order"] ]
              eq_refl eq_refl eq_refl) as (_ & _ & Hfirst).
  apply (Hfirst 0 ["return"; "policy"]); [lia|reflexivity].
Defined.

(** *** Confidence of a matched answer *)

(** When the best match reaches the minimum confidence, [predict] answers
    the tag stored at its position, with a confidence that is at least the
    similarity, hence at least the minimum, and at most 1.05. *)
Theorem predict_matched_confidence `{V : Vectorizer} (self : t) (text app : string)
    (ctx : option ContextManager.UserContext) (idx : nat) (conf : Q) (ti : TagInfo) :
  trained self = true →
  best_match self text = Some (idx, conf) →
  tags self !! idx = Some ti →
  (0 <= min_confidence self)%Q →
  (min_confidence self <= conf)%Q →
  (conf <= 1)%Q →
  (predict self text app ctx).1 = tag ti ∧
  (min_confidence self <= (predict self text app ctx).2)%Q ∧
  (conf <= (predict self text app ctx).2)%Q ∧
  ((predict self text app ctx).2 <= 21 # 20)%Q.
Proof.
  intros Htr Hbest Hti Hmin Hge Hle. unfold predict. rewrite Htr, Hbest. cbn [negb].
  apply Qle_bool_iff in Hge as Hge'. rewrite Hge', Hti. cbn [fst snd].
  assert (H0 : (0 <= conf)%Q) by lra.
  pose proof (apply_context_scoring_ge conf ti app ctx H0 Hle).
  pose proof (apply_context_scoring_le conf ti app ctx Hle).
  repeat split; [lra|done|done].
Qed.

Lemma predict_matched_confidence_witness :
  (predict (V := token_overlap)
     (train (V := token_overlap) (init (3 # 10))
        {| Corpus.applications :=
             Some [ ("customer_support",
                     {| Corpus.patterns := ["order status"; "return policy"];
                        Corpus.responses := ["Which order?"];
                        Corpus.tags := ["order_status"; "return_policy"] |}) ] |}).2
     "my order status" "customer_support" None).1
  = "order_status".
Proof.
  refine (proj1 (predict_matched_confidence (V := token_overlap) _ _ _ _ 0 (2 # 3)%Q
                   {| application := "customer_support"; tag := "order_status" |}
                   _ _ _ _ _ _)).
  - reflexivity.
  - vm_compute. reflexivity.
  - reflexivity.
  - vm_compute. discriminate.
  - vm_compute. discriminate.
  - vm_compute. discriminate.
Defined.

End ClassifierModelFacts.

(** ** Similar intents *)

Module SimilarIntentsFacts.
Import Sklearn Numpy IntentClassifier SimilarIntents.

Lemma StronglySorted_reverse {A} (R : relation A) l :
  StronglySorted R l → StronglySorted (flip R) (reverse l).
Proof.
  induction 1 as [|x l Hl IH Hx]; [rewrite reverse_nil; constructor|].
  rewrite reverse_cons. apply StronglySorted_app_2; [|done|repeat constructor].
  intros y z Hy Hz%list_elem_of_singleton. subst z.
  rewrite elem_of_reverse in Hy. rewrite Forall_forall in Hx. unfold flip. by apply Hx.
Qed.

Lemma StronglySorted_drop {A} (R : relation A) n l :
  StronglySorted R l → StronglySorted R (drop n l).
Proof.
  intros H. rewrite <- (take_drop n l) in H. by apply StronglySorted_app_1_r in H.
Qed.

Lemma slice_last_sorted {A} (R : relation A) k l :
  StronglySorted R l → StronglySorted R (slice_last k l).
Proof. intros H. unfold slice_last. case_decide; by apply StronglySorted_drop. Qed.

Lemma slice_last_length {A} k (l : list A) :
  (0 < k)%Z → length (slice_last k l) ≤ Z.to_nat k.
Proof. intros Hk. unfold slice_last. rewrite decide_True by done. rewrite length_drop. lia. Qed.

(** Every entry of the loop's result comes from one of the indices, has
    its similarity, which is positive, and the tag stored at the index. *)
Lemma similar_loop_elem sims tgs idxs : ∀ r tg c,
  similar_loop sims tgs idxs = Some r → (tg, c) ∈ r →
  ∃ idx ti, idx ∈ idxs ∧ sims !! idx = Some c ∧ (0 < c)%Q ∧
            tgs !! idx = Some ti ∧ tag ti = tg.
Proof.
  induction idxs as [|idx idxs IH]; intros r tg c; simpl.
  - intros [= <-] Hin. by apply not_elem_of_nil in Hin.
  - destruct (sims !! idx) as [sim|] eqn:Hsim; simpl; [|done].
    destruct (Qle_bool sim 0) eqn:Hpos.
    + intros Hr Hin. destruct (IH _ _ _ Hr Hin) as (i & ti & Hi & H).
      exists i, ti. split; [by right|done].
    + destruct (tgs !! idx) as [ti|] eqn:Hti; simpl; [|done].
      destruct (similar_loop sims tgs idxs) as [r'|] eqn:Hr'; simpl; [|done].
      intros [= <-] [Heq|Hin]%elem_of_cons.
      * injection Heq as -> ->. exists idx, ti. split; [left|]. split; [done|].
        split; [|done]. apply Qnot_le_lt. intros H%Qle_bool_iff. congruence.
      * destruct (IH _ _ _ eq_refl Hin) as (i & ti' & Hi & H).
        exists i, ti'. split; [by right|done].
Qed.

Lemma similar_loop_length sims tgs idxs : ∀ r,
  similar_loop sims tgs idxs = Some r → length r ≤ length idxs.
Proof.
  induction idxs as [|idx idxs IH]; intros r; simpl.
  - by intros [= <-].
  - destruct (sims !! idx) as [sim|]; simpl; [|done].
    destruct (Qle_bool sim 0).
    + intros Hr%IH. lia.
    + destruct (tgs !! idx); simpl; [|done].
      destruct (similar_loop sims tgs idxs) as [r'|]; simpl; [|done].
      intros [= <-]. simpl. specialize (IH _ eq_refl). lia.
Qed.

Lemma similar_loop_sorted sims tgs idxs : ∀ r,
  StronglySorted (flip (le_key sims)) idxs →
  similar_loop sims tgs idxs = Some r →
  StronglySorted (λ a b, (b.2 <= a.2)%Q) r.
Proof.
  induction idxs as [|idx idxs IH]; intros r Hs; simpl.
  - intros [= <-]. constructor.
  - apply StronglySorted_cons in Hs as [Hhd Hs].
    destruct (sims !! idx) as [sim|] eqn:Hsim; simpl; [|done].
    destruct (Qle_bool sim 0); [by apply IH|].
    destruct (tgs !! idx) as [ti|]; simpl; [|done].
    destruct (similar_loop sims tgs idxs) as [r'|] eqn:Hr'; simpl; [|done].
    intros [= <-]. constructor; [by apply IH|].
    apply Forall_forall. intros [tg c] Hin. simpl.
    destruct (similar_loop_elem sims tgs idxs r' tg c Hr' Hin)
      as (i & ti' & Hi & Hc & _).
    rewrite Forall_forall in Hhd. specialize (Hhd i Hi).
    unfold flip, le_key, key in Hhd. by rewrite Hsim, Hc in Hhd.
Qed.

Lemma similar_nil_sound (tgs : list TagInfo) (top_k : Z) :
  (∀ tg c, (tg, c) ∈ ([] : list (string * Q)) →
           (0 < c)%Q ∧ ∃ ti, ti ∈ tgs ∧ tag ti = tg) ∧
  StronglySorted (λ a b : string * Q, (b.2 <= a.2)%Q) [] ∧
  ((0 < top_k)%Z → length ([] : list (string * Q)) ≤ Z.to_nat top_k).
Proof.
  split; [|split].
  - intros tg c Hin. by apply not_elem_of_nil in Hin.
  - apply SSorted_nil.
  - intros _. simpl. lia.
Qed.

(** What [get_similar_intents] returns: entries with a positive
    similarity and a tag of the classifier, in descending order of
    similarity, no more than a positive [top_k] of them, and none from
    a classifier that is not trained. *)
Theorem get_similar_intents_sound `{V : Vectorizer} `{S : Argsort}
    (self : t) (text : string) (top_k : Z) :
  (∀ tg c, (tg, c) ∈ get_similar_intents self text top_k →
           (0 < c)%Q ∧ ∃ ti, ti ∈ tags self ∧ tag ti = tg) ∧
  StronglySorted (λ a b, (b.2 <= a.2)%Q) (get_similar_intents self text top_k) ∧
  ((0 < top_k)%Z → length (get_similar_intents self text top_k) ≤ Z.to_nat top_k) ∧
  (trained self = false → get_similar_intents self text top_k = []).
Proof.
  rewrite !(assoc and). split; [|unfold get_similar_intents; by intros ->].
  rewrite <- !(assoc and).
  unfold get_similar_intents.
  destruct (trained self); cbn [negb]; [|apply similar_nil_sound].
  destruct (vectorizer self) as [fitted|]; [|apply similar_nil_sound].
  destruct (X self) as [rows|]; [|apply similar_nil_sound].
  cbv zeta.
  set (sims := cosine_similarity (transform fitted text) <$> rows).
  destruct (similar_loop sims (tags self) (reverse (slice_last top_k (argsort sims))))
    as [r|] eqn:Hr; cbn [default]; [|apply similar_nil_sound].
  split; [|split].
  - intros tg c Hin.
    destruct (similar_loop_elem _ _ _ _ _ _ Hr Hin) as (i & ti & _ & _ & Hpos & Hti & Htg).
    split; [done|]. exists ti. split; [|done]. apply list_elem_of_lookup. eauto.
  - apply (similar_loop_sorted _ _ _ _ (StronglySorted_reverse _ _
             (slice_last_sorted _ top_k _ (argsort_sorted sims))) Hr).
  - intros Hk. apply similar_loop_length in Hr.
    rewrite length_reverse in Hr. pose proof (slice_last_length top_k (argsort sims) Hk).
    unfold id. lia.
Qed.

Lemma get_similar_intents_sound_witness :
  length
    (get_similar_intents (V := token_overlap) (S := merge_argsort)
       (train (V := token_overlap) (init (3 # 10))
          {| Corpus.applications :=
               Some [ ("customer_support",
                       {| Corpus.patterns :=
                            ["order status"; "return policy"; "cancel order"];
                          Corpus.responses := ["Which order?"];
                          Corpus.tags :=
                            ["order_status"; "return_policy"; "cancel_order"] |}) ] |}).2
       "order status please" 1)
  ≤ 1.
Proof.
  refine (proj1 (proj2 (proj2 (get_similar_intents_sound (V := token_overlap)
                                 (S := merge_argsort) _ _ 1%Z))) _).
  reflexivity.
Defined.

Example get_similar_intents_top2 :
  get_similar_intents (V := token_overlap) (S := merge_argsort)
    (train (V := token_overlap) (init (3 # 10))
       {| Corpus.applications :=
            Some [ ("customer_support",
                    {| Corpus.patterns :=
                         ["order status"; "return policy"; "cancel order"];
                       Corpus.responses := ["Which order?"];
                       Corpus.tags :=
                         ["order_status"; "return_policy"; "cancel_order"] |}) ] |}).2
    "order status please" 2
  = [ ("order_status", (2 # 3)%Q); ("cancel_order", (1 # 3)%Q) ].
Proof. vm_compute. reflexivity. Qed.

Lemma similar_loop_is_Some sims tgs idxs :
  length tgs = length sims → (∀ idx, idx ∈ idxs → idx < length sims) →
  is_Some (similar_loop sims tgs idxs).
Proof.
  intros Hlen. induction idxs as [|idx idxs IH]; intros Hin; simpl; [by eexists|].
  destruct (lookup_lt_is_Some_2 sims idx) as [sim ->]; [apply Hin; left|]. simpl.
  destruct IH as [r Hr]; [intros i Hi; apply Hin; by right|].
  destruct (Qle_bool sim 0); [by eexists|].
  destruct (lookup_lt_is_Some_2 tgs idx) as [ti ->]; [rewrite Hlen; apply Hin; left|].
  simpl. rewrite Hr. by eexists.
Qed.

Lemma similar_loop_complete sims tgs idxs : ∀ r idx c ti,
  similar_loop sims tgs idxs = Some r → idx ∈ idxs →
  sims !! idx = Some c → (0 < c)%Q → tgs !! idx = Some ti →
  (tag ti, c) ∈ r.
Proof.
  induction idxs as [|i idxs IH]; intros r idx c ti; simpl.
  - intros _ Hin. by apply not_elem_of_nil in Hin.
  - intros Hr Hin Hc Hpos Hti.
    destruct (sims !! i) as [sim|] eqn:Hsim; simpl in Hr; [|done].
    apply elem_of_cons in Hin as [->|Hin].
    + rewrite Hc in Hsim. injection Hsim as <-.
      destruct (Qle_bool c 0) eqn:Hle.
      { apply Qle_bool_iff in Hle. by apply Qlt_not_le in Hpos. }
      rewrite Hti in Hr. simpl in Hr.
      destruct (similar_loop sims tgs idxs); simpl in Hr; [|done].
      injection Hr as <-. left.
    + destruct (Qle_bool sim 0); [by apply (IH r idx)|].
      destruct (tgs !! i); simpl in Hr; [|done].
      destruct (similar_loop sims tgs idxs) as [r'|]; simpl in Hr; [|done].
      injection Hr as <-. right. by apply (IH r' idx).
Qed.

Lemma slice_last_all {A} k (l : list A) :
  (k = 0 ∨ Z.of_nat (length l) <= k)%Z → slice_last k l = l.
Proof.
  intros [->|Hk]; unfold slice_last.
  - by rewrite decide_False by lia.
  - case_decide.
    + by replace (length l - Z.to_nat k) with 0 by lia.
    + assert (length l = 0) as Hl by lia. destruct l; [apply drop_nil|done].
Qed.

(** A [top_k] of 0 does not limit the answer: the slice [[-0:]] is the
    whole array, so, as with a [top_k] that is at least the number of
    rows, every row of positive similarity is reported with its tag. *)
Theorem get_similar_intents_zero_is_unlimited `{V : Vectorizer} `{S : Argsort}
    (self : t) (text : string) (top_k : Z) (fitted : Fitted) (rows : list Row)
    (i : nat) (row : Row) (ti : TagInfo) :
  trained self = true → vectorizer self = Some fitted → X self = Some rows →
  length (tags self) = length rows →
  (top_k = 0 ∨ Z.of_nat (length rows) <= top_k)%Z →
  rows !! i = Some row → tags self !! i = Some ti →
  (0 < cosine_similarity (transform fitted text) row)%Q →
  (tag ti, cosine_similarity (transform fitted text) row)
    ∈ get_similar_intents self text top_k.
Proof.
  intros Htr Hv HX Hlen Hk Hrow Hti Hpos.
  unfold get_similar_intents. rewrite Htr, Hv, HX. cbn [negb]. cbv zeta.
  set (sims := cosine_similarity (transform fitted text) <$> rows).
  assert (Hsl : length sims = length rows) by apply length_fmap.
  rewrite slice_last_all
    by (rewrite (Permutation_length (argsort_permutation sims)), length_seq, Hsl; done).
  assert (Hidx : ∀ idx, idx ∈ reverse (argsort sims) ↔ idx < length sims).
  { intros idx. rewrite elem_of_reverse, (argsort_permutation sims), elem_of_seq. lia. }
  destruct (similar_loop_is_Some sims (tags self) (reverse (argsort sims))) as [r Hr];
    [by rewrite Hsl|intros idx; apply Hidx|].
  rewrite Hr. cbn [default]. unfold id.
  apply (similar_loop_complete sims (tags self) (reverse (argsort sims)) r i _ ti);
    [done| | |done|done].
  - apply Hidx. rewrite Hsl. by apply lookup_lt_Some in Hrow.
  - unfold sims. by rewrite list_lookup_fmap, Hrow.
Qed.

Lemma get_similar_intents_zero_is_unlimited_witness :
  ("return_policy", (1 # 3)%Q)
    ∈ get_similar_intents (V := token_overlap) (S := merge_argsort)
        (train (V := token_overlap) (init (3 # 10))
           {| Corpus.applications :=
                Some [ ("customer_support",
                        {| Corpus.patterns :=
                             ["order status"; "return policy"; "cancel order"];
                           Corpus.responses := ["Which order?"];
                           Corpus.tags :=
                             ["order_status"; "return_policy"; "cancel_order"] |}) ] |}).2
        "return my order" 0.
Proof.
  apply (get_similar_intents_zero_is_unlimited (V := token_overlap) (S := merge_argsort)
           _ "return my order" 0 tt
           [ ["order"; "status"]; ["return"; "policy"]; ["cancel"; "order"] ]
           1 ["return"; "policy"]
           {| application := "customer_support"; tag := "return_policy" |}).
  - reflexivity.
  - reflexivity.
  - reflexivity.
  - reflexivity.
  - by left.
  - reflexivity.
  - reflexivity.
  - reflexivity.
Defined.

End SimilarIntentsFacts.

(** ** The training-data manager: loading, listing, counting *)

Module TrainingDataStoreFacts.
Import TrainingDataManager TrainingDataFacts.

Lemma alter_keys f name apps : map fst (Corpus.alter f name apps) = map fst apps.
Proof.
  induction apps as [|[k d] apps IH]; simpl; [done|].
  case_decide; simpl; [done|by rewrite IH].
Qed.

Lemma get_None_keys apps name : Corpus.get apps name = None ↔ name ∉ map fst apps.
Proof.
  induction apps as [|[k d] apps IH]; simpl.
  - split; [intros _; apply not_elem_of_nil|done].
  - rewrite not_elem_of_cons. case_decide as Hk.
    + split; [done|]. intros [Hne _]. by subst.
    + rewrite IH. split; [|tauto]. intros H. split; [congruence|done].
Qed.

(** [add_example] leaves the list of applications as it was for an
    application the corpus has, and puts a new application at its end;
    no application is ever listed twice. *)
Theorem add_example_applications (self : t) (apps : Corpus.Applications)
    (app pattern response tag : string) (write_ok : bool) :
  Corpus.applications (data self) = Some apps →
  NoDup (map fst apps) →
  ∃ names, get_all_applications (add_example self app pattern response tag write_ok).2
             = Some names ∧
           names = (if decide (app ∈ map fst apps)
                    then map fst apps else map fst apps ++ [app]) ∧
           NoDup names ∧ app ∈ names.
Proof.
  intros Happs Hnd. unfold add_example, get_all_applications. rewrite Happs. simpl.
  eexists. split; [done|]. rewrite alter_keys.
  destruct (Corpus.get apps app) as [d|] eqn:Hget.
  - assert (Hin : app ∈ map fst apps).
    { destruct (decide (app ∈ map fst apps)) as [|Hn]; [done|].
      apply get_None_keys in Hn. congruence. }
    rewrite decide_True by done. done.
  - apply get_None_keys in Hget as Hn. rewrite decide_False by done.
    unfold Corpus.add. rewrite map_app. simpl. split; [done|]. split.
    + apply NoDup_app. split; [done|]. split; [|apply NoDup_singleton].
      intros x Hx Hx'%list_elem_of_singleton. by subst.
    + apply elem_of_app. right. by left.
Qed.

Lemma add_example_applications_witness :
  get_all_applications
    (add_example
       {| data_file := "backend/data/chatbot_data.json"; data := _create_default_data |}
       "custom_app" "foo bar" "baz response" "foo_tag" true).2
  = Some [ "customer_support"; "college_helpdesk"; "hr_recruitment";
           "personal_assistant"; "custom_app" ].
Proof.
  destruct (add_example_applications
              {| data_file := "backend/data/chatbot_data.json";
                 data := _create_default_data |}
              (default [] (Corpus.applications _create_default_data))
              "custom_app" "foo bar" "baz response" "foo_tag" true eq_refl)
    as (names & Hnames & -> & _).
  - apply (bool_decide_unpack _). vm_compute. exact I.
  - rewrite Hnames. reflexivity.
Defined.

(** *** Counting *)

Lemma fold_stats_step apps : ∀ p r l,
  fold_left stats_step apps (p, r, l) =
    (p + count_patterns apps, r + count_responses apps,
     l ++ map (λ entry, (entry.1, (length (Corpus.patterns entry.2),
                                   length (Corpus.responses entry.2),
                                   length (Corpus.tags entry.2)))) apps).
Proof.
  unfold count_patterns, count_responses.
  induction apps as [|[k d] apps IH]; intros p r l; simpl.
  - by rewrite !Nat.add_0_r, app_nil_r.
  - rewrite IH. simpl. rewrite <- app_assoc. simpl. by rewrite !Nat.add_assoc.
Qed.

Lemma get_stats_totals self apps :
  Corpus.applications (data self) = Some apps →
  ∃ st, get_stats self = Some st ∧
        total_applications st = length apps ∧
        total_patterns st = count_patterns apps ∧
        total_responses st = count_responses apps ∧
        map fst (application_stats st) = map fst apps.
Proof.
  intros Happs. unfold get_stats. rewrite Happs. simpl. rewrite fold_stats_step.
  eexists. split; [done|]. simpl. repeat split. rewrite map_map. done.
Qed.

Lemma count_alter_append pattern response tag name apps d :
  Corpus.get apps name = Some d →
  count_patterns (Corpus.alter (append_example pattern response tag) name apps)
    = count_patterns apps + 1 ∧
  count_responses (Corpus.alter (append_example pattern response tag) name apps)
    = count_responses apps + 1 ∧
  length (Corpus.alter (append_example pattern response tag) name apps) = length apps.
Proof.
  unfold count_patterns, count_responses.
  induction apps as [|[k d'] apps IH]; simpl; [done|].
  case_decide as Hk; simpl.
  - intros _. rewrite !length_app. simpl. repeat split; lia.
  - intros Hget. destruct (IH Hget) as (-> & -> & ->). repeat split; lia.
Qed.

Lemma count_add_empty apps name :
  count_patterns (Corpus.add apps name
     {| Corpus.patterns := []; Corpus.responses := []; Corpus.tags := [] |})
    = count_patterns apps ∧
  count_responses (Corpus.add apps name
     {| Corpus.patterns := []; Corpus.responses := []; Corpus.tags := [] |})
    = count_responses apps.
Proof.
  unfold count_patterns, count_responses, Corpus.add.
  rewrite !map_app, !sum_list_with_app. simpl. lia.
Qed.

(** Every [add_example] raises the totals of [get_stats] by one pattern
    and one response, and the number of applications by one exactly when
    the application is new, whether the corpus could be written or not. *)
Theorem get_stats_after_add_example (self : t) (apps : Corpus.Applications)
    (app pattern response tag : string) (write_ok : bool) :
  Corpus.applications (data self) = Some apps →
  ∃ st st',
    get_stats self = Some st ∧
    get_stats (add_example self app pattern response tag write_ok).2 = Some st' ∧
    total_patterns st' = total_patterns st + 1 ∧
    total_responses st' = total_responses st + 1 ∧
    total_applications st' =
      total_applications st + (match Corpus.get apps app with Some _ => 0 | None => 1 end).
Proof.
  intros Happs.
  destruct (get_stats_totals self apps Happs) as (st & Hst & Ha & Hp & Hr & _).
  destruct (add_example_data self apps app pattern response tag write_ok Happs)
    as (apps' & Happs' & _ & _).
  destruct (get_stats_totals _ apps' Happs') as (st' & Hst' & Ha' & Hp' & Hr' & _).
  exists st, st'. split; [done|]. split; [done|].
  rewrite Ha, Hp, Hr, Ha', Hp', Hr'.
  unfold add_example in Happs'. rewrite Happs in Happs'. simpl in Happs'.
  injection Happs' as <-.
  destruct (Corpus.get apps app) as [d|] eqn:Hget.
  - destruct (count_alter_append pattern response tag app apps d Hget) as (-> & -> & ->).
    lia.
  - destruct (count_alter_append pattern response tag app
                (Corpus.add apps app
                   {| Corpus.patterns := []; Corpus.responses := []; Corpus.tags := [] |})
                {| Corpus.patterns := []; Corpus.responses := []; Corpus.tags := [] |})
      as (-> & -> & ->); [by apply get_add_eq|].
    destruct (count_add_empty apps app) as [-> ->].
    unfold Corpus.add. rewrite length_app. simpl. lia.
Qed.

Lemma get_stats_after_add_example_witness :
  ∃ st', get_stats
           (add_example
              {| data_file := "backend/data/chatbot_data.json";
                 data := _create_default_data |}
              "customer_support" "refund request" "I can help." "refund" false).2
         = Some st' ∧
         total_patterns st' = 57 ∧ total_responses st' = 23 ∧
         total_applications st' = 4.
Proof.
  destruct (get_stats_after_add_example
              {| data_file := "backend/data/chatbot_data.json";
                 data := _create_default_data |}
              (default [] (Corpus.applications _create_default_data))
              "customer_support" "refund request" "I can help." "refund" false eq_refl)
    as (st & st' & Hst & Hst' & Hp & Hr & Ha).
  exists st'. split; [exact Hst'|].
  injection Hst as <-. rewrite Hp, Hr, Ha. repeat split; reflexivity.
Defined.

(** *** Loading *)

(** When the data file cannot be read, [load_data] hands the default
    corpus to its caller but stores nothing: a manager that had no corpus
    still has none, and [add_example] on it returns [False] and changes
    nothing, even when the file could be written. With no file at all
    the default corpus is stored, written or not. *)
Theorem load_data_failure_stores_nothing (data_file : string) (write_ok write_ok' : bool)
    (app pattern response tag : string) :
  (load_data (init data_file) Unreadable write_ok).1 = _create_default_data ∧
  (load_data (init data_file) Unreadable write_ok).2 = init data_file ∧
  add_example (load_data (init data_file) Unreadable write_ok).2
              app pattern response tag write_ok' = (false, init data_file) ∧
  get_all_applications (load_data (init data_file) Unreadable write_ok).2 = None ∧
  data (load_data (init data_file) Missing write_ok).2 = _create_default_data ∧
  (add_example (load_data (init data_file) Missing write_ok).2
               app pattern response tag write_ok').1 = write_ok'.
Proof. repeat split. Qed.

End TrainingDataStoreFacts.

(** ** The trainer's validation and the classifier *)

Module TrainerFacts.
Import Sklearn IntentClassifier ClassifierFacts ChatbotTrainer.

Lemma validate_step_true valid name d :
  validate_step valid (name, d) = true ↔
  valid = true ∧ well_formed d ∧ Corpus.patterns d ≠ [].
Proof.
  unfold validate_step, well_formed.
  destruct (decide (length (Corpus.patterns d) = 0)) as [H0|H0].
  - split; [done|]. intros (_ & _ & Hp). by destruct (Corpus.patterns d).
  - destruct (decide (length (Corpus.patterns d) ≠ length (Corpus.tags d))) as [Hne|He].
    + split; [done|]. intros (_ & Hw & _). done.
    + split.
      * intros ->. split; [done|]. split; [lia|]. intros Hnil. by rewrite Hnil in H0.
      * by intros (-> & _).
Qed.

Lemma fold_validate_step apps : ∀ valid,
  fold_left validate_step apps valid = true ↔
  valid = true ∧
  Forall (λ entry, well_formed entry.2 ∧ Corpus.patterns entry.2 ≠ []) apps.
Proof.
  induction apps as [|[name d] apps IH]; intros valid.
  - simpl. split; [by intros ->|by intros [-> _]].
  - cbn [fold_left]. rewrite IH, Forall_cons, validate_step_true. simpl. tauto.
Qed.

(** [validate_data] returns [True] exactly for a corpus in which every
    application has as many patterns as tags and at least one pattern.
    On such a corpus [train] skips no application, and, unless the corpus
    has no application at all, it can only fail by the fit raising. *)
Theorem validate_data_sound `{V : Vectorizer} (td : Corpus.TrainingData) (self : t) :
  (validate_data td = Some true ↔
     ∃ apps, Corpus.applications td = Some apps ∧
             Forall (λ entry, well_formed entry.2 ∧ Corpus.patterns entry.2 ≠ []) apps) ∧
  (validate_data td = Some true →
     kept td = default [] (Corpus.applications td) ∧
     (default [] (Corpus.applications td) ≠ [] →
        kept_patterns td ≠ [] ∧
        ((train self td).1 = false → fit_transform (kept_patterns td) = None))).
Proof.
  assert (Hiff : validate_data td = Some true ↔
     ∃ apps, Corpus.applications td = Some apps ∧
             Forall (λ entry, well_formed entry.2 ∧ Corpus.patterns entry.2 ≠ []) apps).
  { unfold validate_data. destruct (Corpus.applications td) as [apps|]; simpl.
    - split.
      + intros [= H]. apply fold_validate_step in H as [_ H]. eauto.
      + intros (apps' & [= <-] & H). f_equal. by apply fold_validate_step.
    - split; [done|]. by intros (? & ? & _). }
  split; [done|]. intros (apps & Happs & Hall)%Hiff.
  assert (Hkept : kept td = apps).
  { unfold kept. rewrite Happs. simpl. clear Happs.
    induction Hall as [|[name d] apps [Hw _] _ IH]; [done|].
    rewrite filter_cons_True by done. by rewrite IH. }
  rewrite Happs. simpl. split; [done|]. intros Hne.
  assert (Hps : kept_patterns td ≠ []).
  { unfold kept_patterns. rewrite Hkept.
    destruct Hall as [|[name d] apps' [_ Hp] _]; [done|]. simpl in *.
    destruct (Corpus.patterns d); [done|]. simpl. discriminate. }
  split; [done|]. intros Hfail.
  destruct (train_cases self td)
    as [[Hnil _]|[(_ & Hfit & _)|(_ & _ & Ht & _)]]; [done|done|congruence].
Qed.

Lemma validate_data_sound_witness :
  kept TrainingDataManager._create_default_data
  = default [] (Corpus.applications TrainingDataManager._create_default_data).
Proof.
  exact (proj1 (proj2 (validate_data_sound (V := token_overlap)
                         TrainingDataManager._create_default_data (init (3 # 10)))
                      eq_refl)).
Defined.

(** A corpus with an application without patterns is refused by the
    validation although the classifier trains on it. *)
Example validate_data_empty_application :
  validate_data
    {| Corpus.applications :=
         Some [ ("customer_support",
                 {| Corpus.patterns := ["order status"];
                    Corpus.responses := ["Which order?"];
                    Corpus.tags := ["order_status"] |});
                ("new_app",
                 {| Corpus.patterns := []; Corpus.responses := []; Corpus.tags := [] |}) ] |}
  = Some false.
Proof. reflexivity. Qed.

End TrainerFacts.

(** ** The chatbot of [app.py] *)

Module SimpleChatbotFacts.
Import SimpleChatbot.

(** *** Blank input *)

(** A message that is empty or blank is answered with the request to type
    one, with confidence 0; no context is created and nothing is
    recorded. *)
Theorem get_response_blank (self : t) (user_input user_id application : string)
    (rng : nat → nat) (now : Z) :
  PyStr.strip user_input = EmptyString →
  get_response self user_input user_id application rng now
    = (please_type application, self).
Proof. intros Hblank. unfold get_response. by rewrite decide_True by (by right). Qed.

Lemma get_response_blank_witness :
  get_response (init "09:30" "09:30 AM") "   " "sam" "customer_support" (λ _, 0) 0
    = (please_type "customer_support", init "09:30" "09:30 AM").
Proof. apply get_response_blank. reflexivity. Defined.

(** *** Confidence *)

Lemma group_confidence_range pattern_group processed_input :
  (0 <= group_confidence pattern_group processed_input)%Q ∧
  (group_confidence pattern_group processed_input <= 1)%Q.
Proof.
  unfold group_confidence.
  set (n := length (filter _ pattern_group)).
  assert (Hn : n ≤ length pattern_group) by apply length_filter.
  destruct pattern_group as [|p ps]; [split; by vm_compute|].
  unfold Qle. simpl Qnum. simpl Qden.
  rewrite <- positive_nat_Z, Nat2Pos.id by done. simpl in Hn. clearbody n. lia.
Qed.

Lemma match_loop_confidence rng app_patterns processed_input :
  ∀ best_response best_confidence k best_response' best_confidence' k',
  match_loop rng app_patterns processed_input best_response best_confidence k
    = Some (best_response', best_confidence', k') →
  (best_confidence <= 1)%Q → (best_confidence' <= 1)%Q.
Proof.
  induction app_patterns as [|[g rs] app_patterns IH];
    intros br bc k br' bc' k'; simpl.
  - by intros [= _ <- _].
  - destruct (Qle_bool _ bc); [apply IH|].
    destruct (choice rng k rs) as [chosen|]; simpl; [|done].
    intros H _. apply (IH _ _ _ _ _ _ H), group_confidence_range.
Qed.

Lemma respond_confidence self context user_input application rng now r context' :
  respond self context user_input application rng now = Some (r, context') →
  confidence r = (1 # 10)%Q ∨ ((3 # 10 <= confidence r)%Q ∧ (confidence r <= 1)%Q).
Proof.
  unfold respond.
  destruct (match_loop _ _ _ _ _ _) as [[[br bc] k]|] eqn:Hloop; simpl; [|done].
  apply match_loop_confidence in Hloop; [|done].
  destruct (bool_decide _ || negb (Qle_bool (3 # 10) bc)) eqn:Hfb.
  - destruct (choice rng k _) as [chosen|]; simpl; [|done].
    destruct (PyStr.find _ _) as [i|]; simpl.
    + destruct (head _) as [pn|]; simpl; [|done].
      destruct (decide (1 < String.length pn)); simpl; intros [= <- _]; by left.
    + destruct (user_name context) as [name|]; [|intros [= <- _]; by left].
      destruct (_ && _); intros [= <- _]; by left.
  - apply orb_false_elim in Hfb as [_ Hge]. apply negb_false_iff, Qle_bool_iff in Hge.
    simpl.
    destruct (PyStr.find _ _) as [i|]; simpl.
    + destruct (head _) as [pn|]; simpl; [|done].
      destruct (decide (1 < String.length pn)); simpl; intros [= <- _]; by right.
    + destruct (user_name context) as [name|]; [|intros [= <- _]; by right].
      destruct (_ && _); intros [= <- _]; by right.
Qed.

(** The confidence [get_response] reports is 0 (blank input, or the
    apology), 0.1 (a fallback answer), or a share of matched patterns that
    is at least 0.3 and at most 1: nothing strictly between 0.1 and 0.3,
    and nothing above 1. *)
Theorem get_response_confidence (self : t) (user_input user_id application : string)
    (rng : nat → nat) (now : Z) :
  confidence (get_response self user_input user_id application rng now).1 = 0%Q ∨
  confidence (get_response self user_input user_id application rng now).1 = (1 # 10)%Q ∨
  ((3 # 10 <= confidence (get_response self user_input user_id application rng now).1)%Q ∧
   (confidence (get_response self user_input user_id application rng now).1 <= 1)%Q).
Proof.
  unfold get_response. case_decide; [by left|].
  destruct (respond _ _ _ _ _ _) as [[r c]|] eqn:Hr; [|by left].
  right. apply (respond_confidence _ _ _ _ _ _ _ _ Hr).
Qed.

(** *** Histories *)

Lemma respond_history self context user_input application rng now r context' :
  respond self context user_input application rng now = Some (r, context') →
  length (conversation_history context') ≤ 5 ∧
  (context_used r = true → conversation_history context ≠ []).
Proof.
  unfold respond.
  destruct (match_loop _ _ _ _ _ _) as [[[br bc] k]|]; simpl; [|done].
  destruct (if _ : bool then _ else _) as [[br' bc']|]; simpl; [|done].
  destruct (match PyStr.find _ _ with Some _ => _ | None => _ end)
    as [[br'' context'']|] eqn:Hname; simpl; [|done].
  assert (Hh : conversation_history context'' = conversation_history context).
  { destruct (PyStr.find _ _) as [i|]; simpl in Hname.
    - destruct (head _) as [pn|]; simpl in Hname; [|done].
      case_decide; by injection Hname as <- <-.
    - destruct (user_name context) as [name|]; [|by injection Hname as <- <-].
      destruct (_ && _); by injection Hname as <- <-. }
  intros [= <- <-]. simpl. rewrite Hh. split.
  - case_decide as Hlen; [rewrite length_drop; lia|lia].
  - intros Hused%bool_decide_eq_true. intros Hnil. rewrite Hnil in Hused.
    simpl in Hused. lia.
Qed.

Lemma get_response_bounded self user_input user_id application rng now :
  map_Forall (λ _ c, length (conversation_history c) ≤ 5) (conversation_context self) →
  map_Forall (λ _ c, length (conversation_history c) ≤ 5)
             (conversation_context
                (get_response self user_input user_id application rng now).2).
Proof.
  intros Hinv. unfold get_response. case_decide; [done|].
  set (context := match conversation_context self !! user_id with
                  | Some context => context
                  | None => {| conversation_history := [];
                               current_application := application;
                               user_name := None |}
                  end).
  assert (Hctx : length (conversation_history context) ≤ 5).
  { unfold context. destruct (conversation_context self !! user_id) as [c|] eqn:Hc.
    - by apply Hinv in Hc.
    - simpl. lia. }
  destruct (respond _ _ _ _ _ _) as [[r c]|] eqn:Hr; simpl.
  - apply map_Forall_insert_2; [by apply respond_history in Hr as [? _]|].
    by apply map_Forall_insert_2.
  - by apply map_Forall_insert_2.
Qed.

(** Whatever the requests served since the chatbot was built, no user's
    history holds more than the last five exchanges. *)
Theorem history_at_most_five (hm ampm : string) (requests : list Request)
    (user_id : string) (c : Context) :
  conversation_context (run (init hm ampm) requests) !! user_id = Some c →
  length (conversation_history c) ≤ 5.
Proof.
  assert (H : ∀ self,
    map_Forall (λ _ c, length (conversation_history c) ≤ 5) (conversation_context self) →
    map_Forall (λ _ c, length (conversation_history c) ≤ 5)
               (conversation_context (run self requests))).
  { unfold run. induction requests as [|q requests IH]; intros self Hinv; simpl; [done|].
    apply IH. by apply get_response_bounded. }
  intros Hc. apply (H (init hm ampm) (map_Forall_empty _) user_id c Hc).
Qed.

Lemma history_at_most_five_witness :
  ∃ c, conversation_context
         (run (init "09:30" "09:30 AM")
              (map (λ n, {| q_user_input := "order status"; q_user_id := "sam";
                            q_application := "customer_support";
                            q_rng := λ k, k + n; q_now := Z.of_nat n |})
                   (seq 0 7)))
         !! "sam" = Some c ∧
       length (conversation_history c) = 5 ∧ length (conversation_history c) ≤ 5.
Proof.
  eexists. split; [vm_compute; reflexivity|]. split; [reflexivity|].
  apply (history_at_most_five "09:30" "09:30 AM"
           (map (λ n, {| q_user_input := "order status"; q_user_id := "sam";
                         q_application := "customer_support";
                         q_rng := λ k, k + n; q_now := Z.of_nat n |})
                (seq 0 7))
           "sam").
  vm_compute. reflexivity.
Defined.

(** [context_used] is true only for a user who had an exchange on record
    when the message came in: never on a first message, and never with
    the apology or the request to type a message. *)
Theorem context_used_needs_history (self : t) (user_input user_id application : string)
    (rng : nat → nat) (now : Z) :
  context_used (get_response self user_input user_id application rng now).1 = true →
  ∃ c, conversation_context self !! user_id = Some c ∧ conversation_history c ≠ [].
Proof.
  unfold get_response. case_decide; [done|].
  destruct (respond _ _ _ _ _ _) as [[r c]|] eqn:Hr; [|done]. simpl.
  intros Hused. apply respond_history in Hr as [_ Hh]. specialize (Hh Hused).
  destruct (conversation_context self !! user_id) as [c0|]; [by exists c0|done].
Qed.

Lemma context_used_needs_history_witness :
  ∃ c, conversation_context
         (run (init "09:30" "09:30 AM")
              [ {| q_user_input := "hello"; q_user_id := "sam";
                   q_application := "customer_support"; q_rng := λ _, 0; q_now := 0 |} ])
         !! "sam" = Some c ∧
       conversation_history c ≠ [].
Proof.
  apply (context_used_needs_history
           (run (init "09:30" "09:30 AM")
                [ {| q_user_input := "hello"; q_user_id := "sam";
                     q_application := "customer_support"; q_rng := λ _, 0; q_now := 0 |} ])
           "where is my order" "sam" "customer_support" (λ _, 1) 1).
  vm_compute. reflexivity.
Defined.

(** *** Names *)

Lemma rstrip_empty s : PyStr.rstrip s = EmptyString → PyStr.forallb PyStr.isspace s = true.
Proof.
  induction s as [|c s IH]; simpl; [done|].
  destruct (PyStr.rstrip s) as [|c' r]; [|done].
  destruct (PyStr.isspace c); [|done]. intros _. by rewrite IH.
Qed.

Lemma lstrip_blank s :
  PyStr.forallb PyStr.isspace (PyStr.lstrip s) = true → PyStr.forallb PyStr.isspace s = true.
Proof.
  induction s as [|c s IH]; simpl; [done|].
  destruct (PyStr.isspace c) eqn:Hc; simpl; [done|by rewrite Hc].
Qed.

Lemma strip_empty s : PyStr.strip s = EmptyString → PyStr.forallb PyStr.isspace s = true.
Proof. intros H. by apply lstrip_blank, rstrip_empty. Qed.

Lemma lower_char_not_m c : implb (PyStr.isspace c) (negb (Ascii.eqb "m" (PyStr.lower_char c))) = true.
Proof. PyStrFacts.by_ascii_cases c. Qed.

Lemma find_name_blank s :
  PyStr.forallb PyStr.isspace s = true → PyStr.find "my name is" (PyStr.lower s) = None.
Proof.
  induction s as [|c s IH]; [done|].
  cbn [PyStr.forallb]. intros [Hc Hs]%andb_prop.
  cbn [PyStr.lower PyStr.find]. rewrite (IH Hs).
  pose proof (lower_char_not_m c) as Hm. rewrite Hc in Hm. cbn [implb] in Hm.
  apply negb_true_iff, Ascii.eqb_neq in Hm.
  cbn [PyStr.startswith]. by rewrite decide_False.
Qed.

(** A message with "my name is" and no word after it makes
    [get_response] fail on the missing word: the answer is the apology
    with confidence 0, and the exchange is not recorded; the user is left
    with the context the message found, or with a new, empty one. *)
Theorem get_response_name_missing (self : t) (user_input user_id application : string)
    (rng : nat → nat) (now : Z) (i : nat) :
  PyStr.find "my name is" (PyStr.lower user_input) = Some i →
  PyStr.split (PyStr.strip (PyStr.slice_from (i + 10) user_input)) = [] →
  (get_response self user_input user_id application rng now).1 = apology application ∧
  conversation_context (get_response self user_input user_id application rng now).2
    !! user_id = Some (context_of self user_id application).
Proof.
  intros Hfind Hrest. unfold get_response.
  rewrite decide_False.
  2:{ intros [->|Hblank]; [done|].
      apply strip_empty, find_name_blank in Hblank. congruence. }
  fold (context_of self user_id application).
  assert (Hnone : ∀ self', respond self' (context_of self user_id application)
                             user_input application rng now = None).
  { intros self'. unfold respond.
    destruct (match_loop _ _ _ _ _ _) as [[[br bc] k]|]; simpl; [|done].
    destruct (if _ : bool then _ else _) as [[br' bc']|]; simpl; [|done].
    rewrite Hfind. simpl. by rewrite Hrest. }
  rewrite Hnone. simpl. by rewrite lookup_insert_eq.
Qed.

Lemma get_response_name_missing_witness :
  (get_response (init "09:30" "09:30 AM") "Hello, my name is " "sam" "customer_support"
                (λ _, 0) 0).1
  = apology "customer_support".
Proof.
  exact (proj1 (get_response_name_missing (init "09:30" "09:30 AM") "Hello, my name is "
                  "sam" "customer_support" (λ _, 0) 0 7 eq_refl eq_refl)).
Defined.

Lemma choice_is_Some rng k seq : seq ≠ [] → is_Some (choice rng k seq).
Proof.
  intros Hne. unfold choice. apply lookup_lt_is_Some_2.
  apply Nat.mod_upper_bound. by destruct seq.
Qed.

Lemma choice_elem_of rng k seq x : choice rng k seq = Some x → x ∈ seq.
Proof. unfold choice. intros H. apply list_elem_of_lookup. eauto. Qed.

Lemma dict_get_elem_of {A} (d : list (string * A)) key (default v : A) :
  dict_get d key default = v → v = default ∨ (key, v) ∈ d.
Proof.
  induction d as [|[k x] d IH]; simpl; [by left|].
  case_decide as Hk.
  - intros <-. right. subst. left.
  - intros [?|?]%IH; [by left|right; by right].
Qed.

Lemma match_loop_is_Some rng app_patterns processed_input :
  Forall (λ group, group.2 ≠ []) app_patterns →
  ∀ best_response best_confidence k,
    is_Some (match_loop rng app_patterns processed_input best_response best_confidence k).
Proof.
  induction 1 as [|[g rs] app_patterns Hrs _ IH]; intros br bc k; simpl; [by eexists|].
  destruct (Qle_bool _ bc); [apply IH|].
  destruct (choice_is_Some rng k rs Hrs) as [chosen ->]. simpl. apply IH.
Qed.

Lemma fallbacks_nonempty application :
  dict_get fallbacks application [ "How can I help you today?" ] ≠ [].
Proof.
  unfold fallbacks. simpl. repeat (case_decide; [done|]). done.
Qed.

Lemma append_assoc a b c : (a +:+ b) +:+ c = a +:+ (b +:+ c).
Proof.
  induction a as [|x a IH]; [reflexivity|].
  change (String x ((a +:+ b) +:+ c) = String x (a +:+ (b +:+ c))). by rewrite IH.
Qed.

Lemma startswith_app p s : PyStr.startswith p (p +:+ s) = true.
Proof.
  induction p as [|a p IH]; [done|].
  change (String a p +:+ s) with (String a (p +:+ s)). simpl. by rewrite decide_True.
Qed.

Lemma startswith_greeting name rest :
  PyStr.startswith ("Nice to meet you, " +:+ name +:+ "! ")
                   ("Nice to meet you, " +:+ name +:+ "! " +:+ rest) = true.
Proof.
  rewrite <- (append_assoc name "! " rest).
  rewrite <- (append_assoc "Nice to meet you, " (name +:+ "! ") rest).
  apply startswith_app.
Qed.

(** With a table in which every pattern group has a response, a message
    that introduces a name of two characters or more is answered with a
    greeting of that name in front of the answer, and the name is stored
    with the user. *)
Theorem get_response_name_introduction (self : t)
    (user_input user_id application : string) (rng : nat → nat) (now : Z)
    (i : nat) (name : string) :
  well_tabled self →
  PyStr.find "my name is" (PyStr.lower user_input) = Some i →
  head (PyStr.split (PyStr.strip (PyStr.slice_from (i + 10) user_input))) = Some name →
  1 < String.length name →
  PyStr.startswith ("Nice to meet you, " +:+ name +:+ "! ")
    (response (get_response self user_input user_id application rng now).1) = true ∧
  ∃ c, conversation_context (get_response self user_input user_id application rng now).2
         !! user_id = Some c ∧
       user_name c = Some name.
Proof.
  intros Htab Hfind Hrest Hlen. unfold get_response.
  rewrite decide_False.
  2:{ intros [->|Hblank]; [done|].
      apply strip_empty, find_name_blank in Hblank. congruence. }
  fold (context_of self user_id application).
  set (context := context_of self user_id application).
  set (self' := {| pattern_responses := pattern_responses self;
                   conversation_context := <[user_id:=context]> (conversation_context self) |}).
  assert (Hgroups : Forall (λ group : list string * list string, group.2 ≠ [])
                      (dict_get (pattern_responses self') application [])).
  { destruct (dict_get_elem_of (pattern_responses self') application [] _ eq_refl)
      as [->|Hin]; [constructor|].
    unfold well_tabled in Htab. rewrite Forall_forall in Htab. apply (Htab _ Hin). }
  unfold respond.
  destruct (match_loop_is_Some rng _ (SimpleTextPreprocessor.preprocess_text user_input)
              Hgroups None 0%Q 0) as [[[br bc] k] ->].
  cbn -[dict_get fallbacks PyStr.find PyStr.split PyStr.startswith String.append].
  destruct (choice_is_Some rng k _ (fallbacks_nonempty application)) as [chosen Hch].
  rewrite Hch, Hfind.
  destruct (_ || _);
    cbn -[dict_get fallbacks PyStr.find PyStr.split PyStr.startswith String.append];
    rewrite Hrest;
    cbn -[dict_get fallbacks PyStr.find PyStr.split PyStr.startswith String.append];
    rewrite decide_True by done;
    cbn -[dict_get fallbacks PyStr.find PyStr.split PyStr.startswith String.append];
    (split; [apply startswith_greeting|eexists; rewrite lookup_insert_eq; by split]).
Qed.

Lemma get_response_name_introduction_witness :
  PyStr.startswith "Nice to meet you, Sam! "
    (response (get_response (init "09:30" "09:30 AM") "Hi, my name is Sam" "sam"
                            "customer_support" (λ _, 0) 0).1) = true.
Proof.
  refine (proj1 (get_response_name_introduction (init "09:30" "09:30 AM")
                   "Hi, my name is Sam" "sam" "customer_support" (λ _, 0) 0 4 "Sam"
                   _ eq_refl eq_refl _)).
  - unfold well_tabled. simpl. repeat (constructor; [repeat (constructor; [done|])|]);
      constructor.
  - simpl. lia.
Defined.

(** *** Where answers come from *)

Lemma match_loop_source rng app_patterns processed_input :
  ∀ best_response best_confidence k best_response' best_confidence' k',
  match_loop rng app_patterns processed_input best_response best_confidence k
    = Some (best_response', best_confidence', k') →
  best_response' = best_response ∨
  ∃ group x, group ∈ app_patterns ∧ x ∈ group.2 ∧ best_response' = Some x.
Proof.
  induction app_patterns as [|[g rs] app_patterns IH];
    intros br bc k br' bc' k'; simpl.
  - intros [= <- _ _]. by left.
  - destruct (Qle_bool _ bc).
    + intros [?|(group & x & Hin & Hx & ->)]%IH; [by left|right].
      exists group, x. split; [by right|done].
    + destruct (choice rng k rs) as [chosen|] eqn:Hch; simpl; [|done].
      intros [->|(group & x & Hin & Hx & ->)]%IH; right.
      * exists (g, rs), chosen. split; [left|]. split; [|done].
        by apply choice_elem_of in Hch.
      * exists group, x. split; [by right|done].
Qed.

(** An answer of [get_response] is the request to type a message, the
    apology, or one of the candidates of the application, as it stands,
    or behind the greeting of a new name, or followed by the reference to
    the stored name. *)
Theorem get_response_from_tables (self : t) (user_input user_id application : string)
    (rng : nat → nat) (now : Z) :
  (get_response self user_input user_id application rng now).1 = please_type application ∨
  (get_response self user_input user_id application rng now).1 = apology application ∨
  ∃ base, base ∈ candidates self application ∧
    (response (get_response self user_input user_id application rng now).1 = base ∨
     (∃ name, response (get_response self user_input user_id application rng now).1
              = "Nice to meet you, " +:+ name +:+ "! " +:+ base) ∨
     (∃ name, user_name (context_of self user_id application) = Some name ∧
              response (get_response self user_input user_id application rng now).1
              = base +:+ " By the way, " +:+ name +:+ "!")).
Proof.
  unfold get_response. case_decide; [by left|right].
  fold (context_of self user_id application).
  set (context := context_of self user_id application).
  destruct (respond _ _ _ _ _ _) as [[r c]|] eqn:Hr; [right|by left].
  cbn [fst]. revert Hr. unfold respond.
  cbn [pattern_responses].
  destruct (match_loop _ _ _ _ _ _) as [[[br bc] k]|] eqn:Hloop;
    cbn -[dict_get fallbacks PyStr.find PyStr.split String.append]; [|done].
  apply match_loop_source in Hloop.
  assert (Hbase : ∀ br' bc',
    (if bool_decide (br = None ∨ br = Some EmptyString) || negb (Qle_bool (3 # 10) bc)
     then chosen ← choice rng k
                     (dict_get fallbacks application [ "How can I help you today?" ]);
          Some (chosen, (1 # 10)%Q)
     else Some (default EmptyString br, bc)) = Some (br', bc') →
    br' ∈ candidates self application).
  { intros br' bc'. unfold candidates.
    destruct (bool_decide (br = None ∨ br = Some EmptyString)) eqn:Hnone;
      cbn -[dict_get fallbacks].
    - destruct (choice rng k _) as [chosen|] eqn:Hch; cbn -[dict_get fallbacks]; [|done].
      intros [= <- _]. apply elem_of_app. right. by apply choice_elem_of in Hch.
    - apply bool_decide_eq_false in Hnone.
      destruct (negb _).
      + destruct (choice rng k _) as [chosen|] eqn:Hch; cbn -[dict_get fallbacks]; [|done].
        intros [= <- _]. apply elem_of_app. right. by apply choice_elem_of in Hch.
      + intros [= <- _]. apply elem_of_app. left.
        destruct Hloop as [->|(group & x & Hin & Hx & ->)]; [tauto|]. simpl.
        apply list_elem_of_In, in_flat_map. exists group.
        split; by apply list_elem_of_In. }
  destruct (if _ : bool then _ else _) as [[br' bc']|] eqn:Hstep;
    cbn -[dict_get fallbacks PyStr.find PyStr.split String.append]; [|done].
  specialize (Hbase br' bc' eq_refl).
  destruct (PyStr.find _ _) as [i|];
    cbn -[dict_get fallbacks PyStr.find PyStr.split String.append].
  - destruct (head _) as [pn|];
      cbn -[dict_get fallbacks PyStr.find PyStr.split String.append]; [|done].
    destruct (decide (1 < String.length pn));
      cbn -[dict_get fallbacks PyStr.find PyStr.split String.append];
      intros [= <- _]; exists br'; (split; [done|]); cbn [response]; eauto.
  - destruct (user_name context) as [name|] eqn:Hname.
    + destruct (_ && _);
        cbn -[dict_get fallbacks PyStr.find PyStr.split String.append];
        intros [= <- _]; exists br'; (split; [done|]); cbn [response]; eauto.
    + cbn -[dict_get fallbacks PyStr.find PyStr.split String.append].
      intros [= <- _]. exists br'. split; [done|]. cbn [response]. eauto.
Qed.

Lemma choice_singleton (rng : nat → nat) (k : nat) (x : string) :
  choice rng k [x] = Some x.
Proof. unfold choice. simpl length. by rewrite Nat.mod_1_r. Qed.

(** For an application that neither table knows, a message that is not
    blank and has no "my name is", from a user without a stored name, is
    answered "How can I help you today?" with confidence 0.1, whatever
    the random draws. *)
Theorem get_response_unknown_application (self : t)
    (user_input user_id application : string) (rng : nat → nat) (now : Z) :
  PyStr.strip user_input ≠ EmptyString →
  application ∉ map fst (pattern_responses self) →
  application ∉ map fst fallbacks →
  PyStr.find "my name is" (PyStr.lower user_input) = None →
  user_name (context_of self user_id application) = None →
  response (get_response self user_input user_id application rng now).1
    = "How can I help you today?" ∧
  confidence (get_response self user_input user_id application rng now).1 = (1 # 10)%Q.
Proof.
  intros Hblank Hpat Hfb Hfind Hname.
  assert (Hdefault : ∀ {A} (d : list (string * A)) (x : A),
            application ∉ map fst d → dict_get d application x = x).
  { intros A d x. induction d as [|[k v] d IH]; simpl; [done|].
    rewrite not_elem_of_cons. intros [Hk Hd]. rewrite decide_False by done. by apply IH. }
  unfold get_response.
  rewrite decide_False
    by (intros [->|?]; [by apply Hblank|done]).
  fold (context_of self user_id application).
  unfold respond. cbn [pattern_responses].
  rewrite (Hdefault _ _ _ Hpat), (Hdefault _ _ _ Hfb).
  cbn [match_loop mbind option_bind bool_decide orb].
  rewrite bool_decide_eq_true_2 by (by left). cbn [orb].
  rewrite choice_singleton. cbn -[PyStr.find]. by rewrite Hfind, Hname.
Qed.

Lemma get_response_unknown_application_witness :
  response (get_response (init "09:30" "09:30 AM") "hello there" "sam" "billing"
                         (λ k, 7 * k + 3) 0).1
  = "How can I help you today?".
Proof.
  refine (proj1 (get_response_unknown_application (init "09:30" "09:30 AM")
                   "hello there" "sam" "billing" (λ k, 7 * k + 3) 0 _ _ _ eq_refl eq_refl)).
  - discriminate.
  - apply (bool_decide_unpack _). vm_compute. exact I.
  - apply (bool_decide_unpack _). vm_compute. exact I.
Defined.

End SimpleChatbotFacts.

(** ** The normalizer, once more *)

Module NormalizerFacts.
Import PyStr PyStrFacts SimpleTextPreprocessor Normalized.

Lemma append_cons c s t : String c s +:+ t = String c (s +:+ t).
Proof. reflexivity. Qed.

Lemma append_empty_r s : s +:+ EmptyString = s.
Proof. induction s as [|c s IH]; [done|]. by rewrite append_cons, IH. Qed.

Lemma append_assoc' s t u : (s +:+ t) +:+ u = s +:+ t +:+ u.
Proof. induction s as [|c s IH]; [done|]. by rewrite !append_cons, IH. Qed.

Lemma forallb_append P s t : forallb P (s +:+ t) = forallb P s && forallb P t.
Proof.
  induction s as [|c s IH]; [done|].
  rewrite append_cons. cbn [forallb]. by rewrite IH, andb_assoc.
Qed.

Lemma forallb_impl (P Q : ascii → bool) s :
  (∀ c, implb (P c) (Q c) = true) → forallb P s = true → forallb Q s = true.
Proof.
  intros HPQ. induction s as [|c s IH]; [done|]. cbn [forallb].
  intros [Hc Hs]%andb_prop. specialize (HPQ c). rewrite Hc in HPQ. cbn in HPQ.
  by rewrite HPQ, IH.
Qed.

Lemma lower_char_plain c :
  implb (isword (lower_char c) || isspace (lower_char c))
        (plain (lower_char c) || isspace (lower_char c)) = true.
Proof. by_ascii_cases c. Qed.

Lemma plain_not_isspace c : implb (plain c) (negb (isspace c)) = true.
Proof. by_ascii_cases c. Qed.

Lemma plain_or_space_not_isupper c :
  implb (plain c || (code c =? 32)%N) (negb (isupper c)) = true.
Proof. by_ascii_cases c. Qed.

Lemma plain_or_space_kept c :
  implb (plain c || (code c =? 32)%N) (isword c || isspace c) = true.
Proof. by_ascii_cases c. Qed.

Lemma plain_or_space_shape c :
  implb (plain c || (code c =? 32)%N)
        (islower c || isdigit c || (code c =? 95)%N || (code c =? 32)%N) = true.
Proof. by_ascii_cases c. Qed.

(** What is left after lowering and [re.sub]. *)
Lemma sub_lower_chars text :
  forallb (λ c, plain c || isspace c) (sub_nonword_nonspace (lower text)) = true.
Proof.
  induction text as [|c s IH]; [done|]. cbn [lower sub_nonword_nonspace].
  pose proof (lower_char_plain c) as Hc.
  destruct (isword (lower_char c) || isspace (lower_char c)); [|done].
  cbn [forallb]. cbn in Hc. by rewrite Hc, IH.
Qed.

Lemma word_append w c : forallb plain w = true → plain c = true →
  word (w +:+ String c EmptyString) = true.
Proof.
  intros Hw Hc. destruct w as [|a w].
  - change (forallb plain (String c EmptyString) = true). cbn [forallb]. by rewrite Hc.
  - change (forallb plain (String a w +:+ String c EmptyString) = true).
    rewrite forallb_append, Hw. cbn [forallb]. by rewrite Hc.
Qed.

Lemma word_forallb w : word w = true → forallb plain w = true.
Proof. by destruct w. Qed.

(** The words [split] finds in such a text. *)
Lemma split_go_words cur s :
  from_option (λ w, word w = true) True cur →
  forallb (λ c, plain c || isspace c) s = true →
  Forall (λ w, word w = true) (split_go cur s).
Proof.
  revert cur. induction s as [|c s IH]; intros cur Hcur; cbn [split_go forallb].
  - intros _. destruct cur; [by constructor|constructor].
  - intros [Hc Hs]%andb_prop. destruct (isspace c) eqn:Hsp.
    + apply Forall_app. split; [destruct cur; [by constructor|constructor]|].
      by apply IH.
    + rewrite orb_false_r in Hc. apply IH; [|done].
      destruct cur as [w|]; cbn.
      * by apply word_append; [apply word_forallb|].
      * by rewrite Hc.
Qed.

Lemma dict_get_cases (d : list (string * string)) w :
  dict_get d w w = w ∨ In (dict_get d w w) (map snd d).
Proof.
  induction d as [|[k v] d IH]; cbn [dict_get]; [by left|].
  case_decide; [right; by left|]. destruct IH; [by left|right; by right].
Qed.

Lemma lemma_word w : word w = true → word (lemma w) = true.
Proof.
  intros Hw. unfold lemma. destruct (dict_get_cases lemmatization_map w) as [->|Hin]; [done|].
  assert (H : List.forallb word (map snd lemmatization_map) = true) by (by vm_compute).
  by apply (proj1 (forallb_forall _ _) H).
Qed.

Lemma lemma_idempotent w : lemma (lemma w) = lemma w.
Proof.
  destruct (dict_get_cases lemmatization_map w) as [Heq|Hin]; fold (lemma w) in *.
  - by rewrite !Heq.
  - assert (H : List.forallb (λ v, bool_decide (lemma v = v))
                             (map snd lemmatization_map) = true) by (by vm_compute).
    apply (proj1 (forallb_forall _ _) H) in Hin. by apply bool_decide_eq_true in Hin.
Qed.

(** Reading a word: the run that [split] is in grows by the word. *)
Lemma split_go_word w : ∀ cur s,
  word w = true →
  split_go cur (w +:+ s) = split_go (Some (from_option (λ x, x +:+ w) w cur)) s.
Proof.
  induction w as [|c w IH]; intros cur s Hw; [done|].
  cbn in Hw. apply andb_prop in Hw as [Hc Hw].
  pose proof (plain_not_isspace c) as Hsp. rewrite Hc in Hsp. cbn in Hsp.
  apply negb_true_iff in Hsp.
  rewrite append_cons. cbn [split_go]. rewrite Hsp.
  destruct w as [|a w]; [done|].
  rewrite IH by done. cbn [from_option]. f_equal. f_equal.
  destruct cur as [x|]; cbn [from_option]; [|done].
  by rewrite append_assoc'.
Qed.

Lemma split_join ws : Forall (λ w, word w = true) ws → split (join " " ws) = ws.
Proof.
  unfold split. induction 1 as [|w ws Hw Hws IH]; [done|].
  destruct ws as [|w' ws].
  - cbn [join]. rewrite <- (append_empty_r w), split_go_word by done.
    by rewrite append_empty_r.
  - change (join " " (w :: w' :: ws)) with (w +:+ String " " (join " " (w' :: ws))).
    rewrite split_go_word by done. cbn [split_go from_option].
    change (isspace " ") with true. cbn [option_list]. by rewrite IH.
Qed.

Lemma join_chars ws :
  Forall (λ w, word w = true) ws →
  forallb (λ c, plain c || (code c =? 32)%N) (join " " ws) = true.
Proof.
  assert (Hplain : ∀ w, word w = true →
            forallb (λ c, plain c || (code c =? 32)%N) w = true).
  { intros w Hw. apply (forallb_impl plain); [|by apply word_forallb].
    intros c. by destruct (plain c). }
  induction 1 as [|w ws Hw Hws IH]; [done|].
  destruct ws as [|w' ws]; [by apply Hplain|].
  change (join " " (w :: w' :: ws)) with (w +:+ String " " (join " " (w' :: ws))).
  rewrite forallb_append, Hplain by done. cbn [forallb andb]. by rewrite IH.
Qed.

Lemma lower_fixed s : forallb (λ c, negb (isupper c)) s = true → lower s = s.
Proof.
  induction s as [|c s IH]; [done|]. cbn [forallb lower].
  intros [Hc Hs]%andb_prop. apply negb_true_iff in Hc.
  unfold lower_char. by rewrite Hc, IH.
Qed.

Lemma sub_nonword_nonspace_fixed s :
  forallb (λ c, isword c || isspace c) s = true → sub_nonword_nonspace s = s.
Proof.
  induction s as [|c s IH]; [done|]. cbn [forallb sub_nonword_nonspace].
  intros [Hc Hs]%andb_prop. by rewrite Hc, IH.
Qed.

(** The result of [preprocess_text] is a list of lemmatized words joined
    by single spaces. *)
Lemma preprocess_text_words text :
  ∃ ws, Forall (λ w, word w = true) ws ∧ map lemma ws = ws ∧
        preprocess_text text = join " " ws.
Proof.
  unfold preprocess_text. case_decide.
  - exists []. by repeat split.
  - exists (map lemma (split (sub_nonword_nonspace (lower text)))). repeat split.
    + apply Forall_forall. intros w (w0 & <- & Hin)%list_elem_of_In%in_map_iff.
      apply lemma_word.
      pose proof (split_go_words None (sub_nonword_nonspace (lower text)) I
                    (sub_lower_chars text)) as Hws.
      rewrite Forall_forall in Hws. by apply Hws, list_elem_of_In.
    + rewrite map_map. apply map_ext. intros w. apply lemma_idempotent.
Qed.

Lemma preprocess_text_join ws :
  Forall (λ w, word w = true) ws → map lemma ws = ws →
  preprocess_text (join " " ws) = join " " ws.
Proof.
  intros Hws Hmap. unfold preprocess_text. case_decide as Hnil; [done|].
  pose proof (join_chars ws Hws) as Hchars.
  rewrite lower_fixed
    by (apply (forallb_impl _ _ _ plain_or_space_not_isupper Hchars)).
  rewrite sub_nonword_nonspace_fixed
    by (apply (forallb_impl _ _ _ plain_or_space_kept Hchars)).
  rewrite split_join by done. fold lemma. change (map (λ word, lemma word) ws) with (map lemma ws).
  by rewrite Hmap.
Qed.

(** What [preprocess_text] returns is made of lower-case letters, digits,
    underscores and spaces only, and its words stand one space apart, with
    no blank before the first or after the last: splitting it and joining
    the words with a space gives it back; and none of its words is one the
    lemmatization map replaces. *)
Theorem preprocess_text_normal_form (text : string) :
  forallb (λ c, islower c || isdigit c || (code c =? 95)%N || (code c =? 32)%N)
          (preprocess_text text) = true ∧
  join " " (split (preprocess_text text)) = preprocess_text text ∧
  Forall (λ w, dict_get lemmatization_map w w = w) (split (preprocess_text text)).
Proof.
  destruct (preprocess_text_words text) as (ws & Hws & Hmap & ->).
  split; [|split].
  - apply (forallb_impl _ _ _ plain_or_space_shape), join_chars, Hws.
  - by rewrite split_join.
  - rewrite split_join by done. apply Forall_forall. intros w Hw.
    apply list_elem_of_In in Hw. rewrite <- Hmap in Hw at 1.
    apply in_map_iff in Hw as (w0 & <- & Hw0).
    assert (Hfix : In (lemma w0) (map lemma ws)) by (by apply in_map).
    rewrite Hmap in Hfix. apply lemma_idempotent.
Qed.

(** Normalizing a normalized text changes nothing. *)
Theorem preprocess_text_idempotent (text : string) :
  preprocess_text (preprocess_text text) = preprocess_text text.
Proof.
  destruct (preprocess_text_words text) as (ws & Hws & Hmap & ->).
  by apply preprocess_text_join.
Qed.

End NormalizerFacts.
